(** * Gazebo physics: Simbody topology construction and Bullet slider stops

    A shallow embedding of the parts of
    [gazebo/physics/simbody/SimbodyPhysics.cc] and
    [gazebo/physics/bullet/BulletSliderJoint.cc] that build the multibody
    system, synthesise mobilizers, attach collision geometry, transfer
    solver state across a rebuild, and set slider stops.

    Conventions of the embedding:
    - a C++ [double] is a primitive IEEE-754 binary64 [float];
    - objects reached through pointers (links, joints) live in a store
      indexed by their identity and are updated in place;
    - every call into code that is not part of these files (the Simbody
      library, and the Save/Restore methods of SimbodyJoint and
      SimbodyLink) is recorded, in order, in a trace; a backend oracle
      decides whether such a call throws a [std::exception];
    - a solver state holds, besides its stage and its time, the
      generalized coordinates and speeds of the joints and links, by
      identity; the Save/Restore methods move them between a state and
      the joint or link;
    - values of the Simbody library (rotations, transforms) are kept as
      the terms that construct them. *)

From Stdlib Require Import Floats ZArith.
From stdpp Require Import gmap strings list pretty.

#[local] Set Warnings "-inexact-float".

Open Scope Z_scope.
Open Scope string_scope.
Open Scope list_scope.

(** ** Doubles and ignition::math *)

Abbreviation double := float.

Module ign.

Record Vector3d := mkVector3d { vX : double; vY : double; vZ : double }.

Record Quaterniond :=
  mkQuaterniond { qw : double; qx : double; qy : double; qz : double }.

Record Pose3d := mkPose3d { Pos : Vector3d; Rot : Quaterniond }.

(** [ignition::math::equal(a, b)] with its default tolerance:
    [std::abs(a - b) <= 1e-6]. *)
Definition equal (a b : double) : bool :=
  PrimFloat.leb (PrimFloat.abs (PrimFloat.sub a b)) 1e-6%float.
Arguments equal : simpl never.

(** [ignition::math::Angle]: the stored value is the angle in radians. *)
Record Angle := mkAngle { Radian : double }.

End ign.

(** ** Console output: gzerr, gzwarn, gzdbg *)

Inductive LogLevel := gzerr_level | gzwarn_level | gzdbg_level.

Record LogMsg := mkLog { level : LogLevel; text : string }.

(** ** BulletSliderJoint: stops *)

Module Bullet.

(** The linear limits of the native [btSliderConstraint]. *)
Record btSliderConstraint := mkSlider {
  lowerLinLimit : double;
  upperLinLimit : double
}.

Definition setUpperLinLimit (v : double) (c : btSliderConstraint) :=
  {| lowerLinLimit := lowerLinLimit c; upperLinLimit := v |}.

Definition setLowerLinLimit (v : double) (c : btSliderConstraint) :=
  {| lowerLinLimit := v; upperLinLimit := upperLinLimit c |}.

(** The joint object: the generic [Joint] part holds one stored limit per
    axis ([lowerLimit], [upperLimit]); [bulletSlider] is the pointer to
    the native constraint, [None] while it is NULL. *)
Record BulletSliderJoint := mkJoint {
  lowerLimit : list ign.Angle;
  upperLimit : list ign.Angle;
  bulletSlider : option btSliderConstraint;
  console : list LogMsg
}.

(** Modelled from the spec: [Joint::SetHighStop] and [Joint::SetLowStop]
    live in gazebo/physics/Joint.cc, which is not among the sources;
    they are the generic joint's setters, storing the stop value of the
    given axis in the joint's limit state and returning true. *)
Definition Joint_SetHighStop (index : nat) (angle : ign.Angle)
    (j : BulletSliderJoint) : bool * BulletSliderJoint :=
  (true, {| lowerLimit := lowerLimit j;
            upperLimit := <[index := angle]> (upperLimit j);
            bulletSlider := bulletSlider j;
            console := console j |}).

Definition Joint_SetLowStop (index : nat) (angle : ign.Angle)
    (j : BulletSliderJoint) : bool * BulletSliderJoint :=
  (true, {| lowerLimit := <[index := angle]> (lowerLimit j);
            upperLimit := upperLimit j;
            bulletSlider := bulletSlider j;
            console := console j |}).

(** The line feed that ends a console line. *)
Definition nl : string := String (Ascii.ascii_of_nat 10) EmptyString.

Definition gzerr (msg : string) (j : BulletSliderJoint) : BulletSliderJoint :=
  {| lowerLimit := lowerLimit j;
     upperLimit := upperLimit j;
     bulletSlider := bulletSlider j;
     console := console j ++ [mkLog gzerr_level msg] |}.

Definition with_slider (c : btSliderConstraint) (j : BulletSliderJoint) :=
  {| lowerLimit := lowerLimit j;
     upperLimit := upperLimit j;
     bulletSlider := Some c;
     console := console j |}.

(** [BulletSliderJoint::SetHighStop(unsigned int, const Angle &)] *)
Definition SetHighStop (_index : nat) (_angle : ign.Angle)
    (this : BulletSliderJoint) : bool * BulletSliderJoint :=
  let this := snd (Joint_SetHighStop 0 _angle this) in
  match bulletSlider this with
  | Some slider =>
      (true, with_slider (setUpperLinLimit (ign.Radian _angle) slider) this)
  | None =>
      (false, gzerr ("bulletSlider not yet created." +:+ nl) this)
  end.

(** [BulletSliderJoint::SetLowStop(unsigned int, const Angle &)] *)
Definition SetLowStop (_index : nat) (_angle : ign.Angle)
    (this : BulletSliderJoint) : bool * BulletSliderJoint :=
  let this := snd (Joint_SetLowStop 0 _angle this) in
  match bulletSlider this with
  | Some slider =>
      (true, with_slider (setLowerLinLimit (ign.Radian _angle) slider) this)
  | None =>
      (false, gzerr ("bulletSlider not yet created." +:+ nl) this)
  end.

(** A slider joint before [Init]: one axis, both stored stops at 0, no
    native constraint yet. *)
Definition fresh_joint : BulletSliderJoint :=
  {| lowerLimit := [ign.mkAngle 0%float];
     upperLimit := [ign.mkAngle 0%float];
     bulletSlider := None;
     console := [] |}.

End Bullet.

(** ** Identities

    A joint or a link, as the key under which its part of a solver state
    is kept. *)

Inductive StateOwner := OfJoint (j : nat) | OfLink (l : nat).

#[global] Instance StateOwner_eq_dec : EqDecision StateOwner.
Proof. solve_decision. Defined.

#[global] Instance StateOwner_countable : Countable StateOwner.
Proof.
  refine (inj_countable'
            (fun o => match o with OfJoint j => inl j | OfLink l => inr l end)
            (fun x => match x with inl j => OfJoint j | inr l => OfLink l end) _).
  intros []; reflexivity.
Defined.

(** ** Values of the Simbody library

    Simbody is an external library: its rotations and transforms are kept
    as the terms that build them, one constructor per library operation
    used by SimbodyPhysics.cc. *)

Module SimTK.

Record Vec3 := mkVec3 { v0 : double; v1 : double; v2 : double }.

Inductive CoordinateAxis := XAxis | YAxis | ZAxis.

(** The argument of a [UnitVec3] constructor. *)
Inductive Direction3 :=
  | UnitVec3 (v : Vec3)
  (** [Vector3ToVec3(q.RotateVector(v))], normalised *)
  | UnitVec3_Rotated (q : ign.Quaterniond) (v : ign.Vector3d)
  (** unary minus of a unit vector *)
  | UnitVec3_Neg (u : Direction3).

Inductive Rotation :=
  | Rotation_Identity
  (** [Rotation(Quaternion(w, x, y, z))] *)
  | Rotation_Quaternion (w x y z : double)
  (** [Rotation(u, axis)]: a rotation whose [axis] is along [u] *)
  | Rotation_Axis (u : Direction3) (a : CoordinateAxis)
  (** [Rotation(u1, a1, u2, a2)] *)
  | Rotation_TwoAxes (u1 : Direction3) (a1 : CoordinateAxis)
                     (u2 : Direction3) (a2 : CoordinateAxis)
  (** [Rotation(angle, axis)] *)
  | Rotation_AngleAxis (angle : double) (a : CoordinateAxis)
  (** [R1 * R2] *)
  | Rotation_Mul (r1 r2 : Rotation)
  (** [~R] *)
  | Rotation_Inv (r : Rotation)
  (** [X.R()] *)
  | R_of (x : Transform)
with Transform :=
  (** [Transform()] *)
  | Transform_Identity
  (** [Transform(R, p)] *)
  | Transform_Rp (r : Rotation) (p : Position)
  (** [Transform(R)]: a rotation used where a transform is expected *)
  | Transform_R (r : Rotation)
  (** [~X] *)
  | Transform_Inv (x : Transform)
  (** [X1 * X2] *)
  | Transform_Mul (x1 x2 : Transform)
with Position :=
  | Position_Vec (v : Vec3)
  (** [X.p()] *)
  | p_of (x : Transform).

(** [SimTK::Stage] *)
Inductive Stage :=
  | Empty | Topology | Model | Instance | Time | Position_stage
  | Velocity | Dynamics | Acceleration | Report.

Definition Stage_eqb (a b : Stage) : bool :=
  match a, b with
  | Empty, Empty | Topology, Topology | Model, Model
  | Instance, Instance | Time, Time | Position_stage, Position_stage
  | Velocity, Velocity | Dynamics, Dynamics
  | Acceleration, Acceleration | Report, Report => true
  | _, _ => false
  end.

(** The generalized coordinates and speeds of one joint or link. *)
Record QU := mkQU { getQ : list double; getU : list double }.

(** What this code observes of a [SimTK::State]: its stage, its time,
    and the generalized coordinates and speeds it holds, by the joint or
    link they belong to. *)
Record State := mkState {
  getSystemStage : Stage;
  getTime : double;
  getQU : gmap StateOwner QU
}.

Definition setTime (t : double) (s : State) : State :=
  {| getSystemStage := getSystemStage s; getTime := t; getQU := getQU s |}.

Definition setQU (o : StateOwner) (v : QU) (s : State) : State :=
  {| getSystemStage := getSystemStage s; getTime := getTime s;
     getQU := <[o := v]> (getQU s) |}.

(** Handles into the solver's tables. *)
Inductive MobilizedBody :=
  | EmptyHandle               (** default-constructed [MobilizedBody] *)
  | Ground
  | Mobod (index : nat).

Inductive Force := EmptyForce | ForceIndex (index : nat).

Inductive ContactCliqueId :=
  | InvalidCliqueId           (** default-constructed [ContactCliqueId] *)
  | CliqueId (index : nat).

Definition isValid (c : ContactCliqueId) : bool :=
  match c with InvalidCliqueId => false | CliqueId _ => true end.

Inductive MobilizedBody_Direction := Forward | Reverse.

Record ContactMaterial := mkContactMaterial {
  stiffness : double;
  dissipation : double;
  staticFriction : double;
  dynamicFriction : double;
  viscousFriction : double
}.

Inductive ContactGeometry :=
  | HalfSpace
  | Sphere (r : double)
  (** [TriangleMesh(PolygonalMesh::createCylinderMesh(axis, r, halfLength, resolution))] *)
  | TriangleMesh_Cylinder (a : CoordinateAxis) (r halfLength : double) (resolution : nat)
  (** [TriangleMesh(PolygonalMesh::createBrickMesh(size / 2, resolution))] *)
  | TriangleMesh_Brick (halfLengths : Vec3) (resolution : nat).

Record ContactSurface := mkContactSurface {
  geometry : ContactGeometry;
  material : ContactMaterial;
  thickness : option nat;
  cliques : list ContactCliqueId
}.

(** [SimTK::Pi] *)
Definition Pi : double := 0x1.921fb54442d18p+1%float.

Definition joinClique (c : ContactCliqueId) (s : ContactSurface) :=
  {| geometry := geometry s; material := material s;
     thickness := thickness s; cliques := cliques s ++ [c] |}.

End SimTK.

(** ** Gazebo objects as SimbodyPhysics.cc sees them *)

Module physics.

Import SimTK.

(** Identities of heap objects (the pointers of the C++ code). *)
Definition LinkId := nat.
Definition JointId := nat.
Definition ModelId := nat.

(** Constants declared in headers that are not among the sources
    ([Base::EntityType] in gazebo/physics/Base.hh and
    [UniversalJoint::AxisIndex] in gazebo/physics/UniversalJoint.hh):
    the embedding takes them as parameters. *)
Record Constants := mkConstants {
  BALL_JOINT : Z;
  HINGE2_JOINT : Z;
  HINGE_JOINT : Z;
  SLIDER_JOINT : Z;
  SCREW_JOINT : Z;
  UNIVERSAL_JOINT : Z;
  SHAPE : Z;
  BOX_SHAPE : Z;
  CYLINDER_SHAPE : Z;
  PLANE_SHAPE : Z;
  SPHERE_SHAPE : Z;
  AXIS_PARENT : nat;
  AXIS_CHILD : nat
}.

(** The six joint type flags are non-zero and share no bit. *)
Definition joint_flags (K : Constants) : list Z :=
  [BALL_JOINT K; HINGE2_JOINT K; HINGE_JOINT K;
   SLIDER_JOINT K; SCREW_JOINT K; UNIVERSAL_JOINT K].

Fixpoint disjoint_from (x : Z) (l : list Z) : bool :=
  match l with
  | [] => true
  | y :: l' => Z.eqb (Z.land x y) 0 && disjoint_from x l'
  end.

Fixpoint pairwise_disjoint (l : list Z) : bool :=
  match l with
  | [] => true
  | x :: l' => negb (Z.eqb x 0) && disjoint_from x l' && pairwise_disjoint l'
  end.

Definition joint_flags_ok (K : Constants) : bool :=
  pairwise_disjoint (joint_flags K).

(** The values gazebo/physics/Base.hh and UniversalJoint.hh give them. *)
Definition gazebo_constants : Constants :=
  {| BALL_JOINT := 0x80;
     HINGE2_JOINT := 0x100;
     HINGE_JOINT := 0x200;
     SLIDER_JOINT := 0x400;
     SCREW_JOINT := 0x800;
     UNIVERSAL_JOINT := 0x1000;
     SHAPE := 0x10000;
     BOX_SHAPE := 0x20000;
     CYLINDER_SHAPE := 0x40000;
     PLANE_SHAPE := 0x800000;
     SPHERE_SHAPE := 0x1000000;
     AXIS_PARENT := 0;
     AXIS_CHILD := 1 |}.

(** A collision shape object; its dynamic class decides what
    [dynamic_pointer_cast] returns and which flag the constructor added
    with [AddType] (see PlaneShape.cc). *)
Inductive Shape :=
  | PlaneShape (normal : ign.Vector3d)
  | SphereShape (radius : double)
  | CylinderShape (radius length : double)
  | BoxShape (size : ign.Vector3d)
  | OtherShape (flag : Z).

Record Collision := mkCollision {
  c_GetRelativePose : ign.Pose3d;
  GetShape : Shape
}.

(** [Collision::GetShapeType]: the type flags of the shape, [SHAPE]
    together with the flag of its class. *)
Definition GetShapeType (K : Constants) (c : Collision) : Z :=
  Z.lor (SHAPE K)
    match GetShape c with
    | PlaneShape _ => PLANE_SHAPE K
    | SphereShape _ => SPHERE_SHAPE K
    | CylinderShape _ _ => CYLINDER_SHAPE K
    | BoxShape _ => BOX_SHAPE K
    | OtherShape f => f
    end.

(** [SimbodyLink]: the getters used here, then the members written
    during construction. *)
Record SimbodyLink := mkSimbodyLink {
  l_GetName : string;
  GetMass : double;                        (* GetInertial()->GetMass() *)
  mustBeBaseLink : bool;
  GetSelfCollide : bool;
  GetCollisions : list Collision;
  l_GetRelativePose : ign.Pose3d;
  GetParentModel_WorldPose : ign.Pose3d;   (* GetParentModel()->GetWorldPose() *)
  masterMobod : MobilizedBody;
  slaveMobods : list MobilizedBody;
  slaveWelds : list (MobilizedBody * MobilizedBody);
  l_physicsInitialized : bool
}.

(** [SimbodyJoint]. [GetThreadPitch] is [Some] exactly when the object
    is a [SimbodyScrewJoint]. The three force arrays have
    [MAX_JOINT_AXIS] entries. *)
Record SimbodyJoint := mkSimbodyJoint {
  j_GetName : string;
  GetType : Z;
  GetParent : option LinkId;
  GetChild : option LinkId;
  mustBreakLoopHere : bool;
  xPA : Transform;
  xCB : Transform;
  defxAB : Transform;
  GetAxisFrameOffset : nat -> ign.Quaterniond;
  GetLocalAxis : nat -> ign.Vector3d;
  GetLowerLimit : nat -> ign.Angle;
  GetUpperLimit : nat -> ign.Angle;
  GetStopStiffness : nat -> double;
  GetStopDissipation : nat -> double;
  GetDamping : nat -> double;
  GetStiffness : nat -> double;
  GetSpringReferencePosition : nat -> double;
  GetThreadPitch : option (nat -> double);
  mobod : MobilizedBody;
  isReversed : bool;
  limitForce : list Force;
  damper : list Force;
  spring : list Force;
  j_physicsInitialized : bool
}.

(** What a [LinkPtr] or [JointPtr] points to: an object of the Simbody
    subclass, or one on which the dynamic cast fails. *)
Inductive Link := Link_Simbody (l : SimbodyLink) | Link_Other (name : string).
Inductive Joint := Joint_Simbody (j : SimbodyJoint) | Joint_Other (name : string).

Definition Link_GetName (l : Link) : string :=
  match l with Link_Simbody l => l_GetName l | Link_Other n => n end.
Definition Joint_GetName (j : Joint) : string :=
  match j with Joint_Simbody j => j_GetName j | Joint_Other n => n end.

Record Model := mkModel {
  model_id : ModelId;
  IsStatic : bool;
  GetLinks : list LinkId;
  GetJoints : list JointId
}.

(** *** The multibody graph maker *)

Inductive GraphCall :=
  | addJointType (name : string) (numMobilities : nat)
                 (haveGoodLoopJointAvailable : bool)
  | addBody (name : string) (mass : double) (mustBeBase : bool)
            (ref : option LinkId)
  | addJoint (name type parentBody childBody : string)
             (mustBeLoopJoint : bool) (ref : option JointId)
  | generateGraph.

(** [MultibodyGraphMaker::Mobilizer] through its accessors. *)
Record Mobilizer := mkMobilizer {
  getJointTypeName : string;
  isSlaveMobilizer : bool;
  getInboardBodyRef : option LinkId;       (* NULL for the world body *)
  getOutboardMasterBodyRef : LinkId;
  getNumFragments : nat;
  isAddedBaseMobilizer : bool;
  getJointRef : option JointId;
  isReversedFromJoint : bool
}.

(** The graph maker: the calls it has received, in order, and the
    mobilizers [generateGraph] produced. *)
Record MultibodyGraphMaker := mkGraphMaker {
  received : list GraphCall;
  mobilizers : list Mobilizer
}.

(** A new [MultibodyGraphMaker]. As the comment in CreateMultibodyGraph
    notes, "weld" and "free" are always predefined at 0 and 6 dofs. *)
Definition predefinedJointTypes : list (string * nat) :=
  [("weld", 0%nat); ("free", 6%nat)].

Definition new_MultibodyGraphMaker : MultibodyGraphMaker :=
  {| received := []; mobilizers := [] |}.

(** The mobilities registered for a joint type name: the first
    registration of the name among the predefined types and the
    [addJointType] calls received. *)
Fixpoint addedJointTypes (l : list GraphCall) : list (string * nat) :=
  match l with
  | [] => []
  | addJointType n d _ :: l' => (n, d) :: addedJointTypes l'
  | _ :: l' => addedJointTypes l'
  end.

Fixpoint assoc_dofs (n : string) (l : list (string * nat)) : option nat :=
  match l with
  | [] => None
  | (m, d) :: l' => if String.eqb n m then Some d else assoc_dofs n l'
  end.

Definition numMobilities_of (g : MultibodyGraphMaker) (n : string) : option nat :=
  assoc_dofs n (predefinedJointTypes ++ addedJointTypes (received g)).

End physics.

(** ** The physics engine: state, external calls, and the monad of its methods *)

Module SimbodyPhysics.

Import SimTK physics.

(** *** Member updates of the heap objects *)

Definition set_mobod (v : MobilizedBody) (s : SimbodyJoint) : SimbodyJoint :=
  {| j_GetName := j_GetName s;
     GetType := GetType s;
     GetParent := GetParent s;
     GetChild := GetChild s;
     mustBreakLoopHere := mustBreakLoopHere s;
     xPA := xPA s;
     xCB := xCB s;
     defxAB := defxAB s;
     GetAxisFrameOffset := GetAxisFrameOffset s;
     GetLocalAxis := GetLocalAxis s;
     GetLowerLimit := GetLowerLimit s;
     GetUpperLimit := GetUpperLimit s;
     GetStopStiffness := GetStopStiffness s;
     GetStopDissipation := GetStopDissipation s;
     GetDamping := GetDamping s;
     GetStiffness := GetStiffness s;
     GetSpringReferencePosition := GetSpringReferencePosition s;
     GetThreadPitch := GetThreadPitch s;
     mobod := v;
     isReversed := isReversed s;
     limitForce := limitForce s;
     damper := damper s;
     spring := spring s;
     j_physicsInitialized := j_physicsInitialized s |}.

Definition set_isReversed (v : bool) (s : SimbodyJoint) : SimbodyJoint :=
  {| j_GetName := j_GetName s;
     GetType := GetType s;
     GetParent := GetParent s;
     GetChild := GetChild s;
     mustBreakLoopHere := mustBreakLoopHere s;
     xPA := xPA s;
     xCB := xCB s;
     defxAB := defxAB s;
     GetAxisFrameOffset := GetAxisFrameOffset s;
     GetLocalAxis := GetLocalAxis s;
     GetLowerLimit := GetLowerLimit s;
     GetUpperLimit := GetUpperLimit s;
     GetStopStiffness := GetStopStiffness s;
     GetStopDissipation := GetStopDissipation s;
     GetDamping := GetDamping s;
     GetStiffness := GetStiffness s;
     GetSpringReferencePosition := GetSpringReferencePosition s;
     GetThreadPitch := GetThreadPitch s;
     mobod := mobod s;
     isReversed := v;
     limitForce := limitForce s;
     damper := damper s;
     spring := spring s;
     j_physicsInitialized := j_physicsInitialized s |}.

Definition set_limitForce (v : list Force) (s : SimbodyJoint) : SimbodyJoint :=
  {| j_GetName := j_GetName s;
     GetType := GetType s;
     GetParent := GetParent s;
     GetChild := GetChild s;
     mustBreakLoopHere := mustBreakLoopHere s;
     xPA := xPA s;
     xCB := xCB s;
     defxAB := defxAB s;
     GetAxisFrameOffset := GetAxisFrameOffset s;
     GetLocalAxis := GetLocalAxis s;
     GetLowerLimit := GetLowerLimit s;
     GetUpperLimit := GetUpperLimit s;
     GetStopStiffness := GetStopStiffness s;
     GetStopDissipation := GetStopDissipation s;
     GetDamping := GetDamping s;
     GetStiffness := GetStiffness s;
     GetSpringReferencePosition := GetSpringReferencePosition s;
     GetThreadPitch := GetThreadPitch s;
     mobod := mobod s;
     isReversed := isReversed s;
     limitForce := v;
     damper := damper s;
     spring := spring s;
     j_physicsInitialized := j_physicsInitialized s |}.

Definition set_damper (v : list Force) (s : SimbodyJoint) : SimbodyJoint :=
  {| j_GetName := j_GetName s;
     GetType := GetType s;
     GetParent := GetParent s;
     GetChild := GetChild s;
     mustBreakLoopHere := mustBreakLoopHere s;
     xPA := xPA s;
     xCB := xCB s;
     defxAB := defxAB s;
     GetAxisFrameOffset := GetAxisFrameOffset s;
     GetLocalAxis := GetLocalAxis s;
     GetLowerLimit := GetLowerLimit s;
     GetUpperLimit := GetUpperLimit s;
     GetStopStiffness := GetStopStiffness s;
     GetStopDissipation := GetStopDissipation s;
     GetDamping := GetDamping s;
     GetStiffness := GetStiffness s;
     GetSpringReferencePosition := GetSpringReferencePosition s;
     GetThreadPitch := GetThreadPitch s;
     mobod := mobod s;
     isReversed := isReversed s;
     limitForce := limitForce s;
     damper := v;
     spring := spring s;
     j_physicsInitialized := j_physicsInitialized s |}.

Definition set_spring (v : list Force) (s : SimbodyJoint) : SimbodyJoint :=
  {| j_GetName := j_GetName s;
     GetType := GetType s;
     GetParent := GetParent s;
     GetChild := GetChild s;
     mustBreakLoopHere := mustBreakLoopHere s;
     xPA := xPA s;
     xCB := xCB s;
     defxAB := defxAB s;
     GetAxisFrameOffset := GetAxisFrameOffset s;
     GetLocalAxis := GetLocalAxis s;
     GetLowerLimit := GetLowerLimit s;
     GetUpperLimit := GetUpperLimit s;
     GetStopStiffness := GetStopStiffness s;
     GetStopDissipation := GetStopDissipation s;
     GetDamping := GetDamping s;
     GetStiffness := GetStiffness s;
     GetSpringReferencePosition := GetSpringReferencePosition s;
     GetThreadPitch := GetThreadPitch s;
     mobod := mobod s;
     isReversed := isReversed s;
     limitForce := limitForce s;
     damper := damper s;
     spring := v;
     j_physicsInitialized := j_physicsInitialized s |}.

Definition set_j_physicsInitialized (v : bool) (s : SimbodyJoint) : SimbodyJoint :=
  {| j_GetName := j_GetName s;
     GetType := GetType s;
     GetParent := GetParent s;
     GetChild := GetChild s;
     mustBreakLoopHere := mustBreakLoopHere s;
     xPA := xPA s;
     xCB := xCB s;
     defxAB := defxAB s;
     GetAxisFrameOffset := GetAxisFrameOffset s;
     GetLocalAxis := GetLocalAxis s;
     GetLowerLimit := GetLowerLimit s;
     GetUpperLimit := GetUpperLimit s;
     GetStopStiffness := GetStopStiffness s;
     GetStopDissipation := GetStopDissipation s;
     GetDamping := GetDamping s;
     GetStiffness := GetStiffness s;
     GetSpringReferencePosition := GetSpringReferencePosition s;
     GetThreadPitch := GetThreadPitch s;
     mobod := mobod s;
     isReversed := isReversed s;
     limitForce := limitForce s;
     damper := damper s;
     spring := spring s;
     j_physicsInitialized := v |}.

Definition set_masterMobod (v : MobilizedBody) (s : SimbodyLink) : SimbodyLink :=
  {| l_GetName := l_GetName s;
     GetMass := GetMass s;
     mustBeBaseLink := mustBeBaseLink s;
     GetSelfCollide := GetSelfCollide s;
     GetCollisions := GetCollisions s;
     l_GetRelativePose := l_GetRelativePose s;
     GetParentModel_WorldPose := GetParentModel_WorldPose s;
     masterMobod := v;
     slaveMobods := slaveMobods s;
     slaveWelds := slaveWelds s;
     l_physicsInitialized := l_physicsInitialized s |}.

Definition set_slaveMobods (v : list MobilizedBody) (s : SimbodyLink) : SimbodyLink :=
  {| l_GetName := l_GetName s;
     GetMass := GetMass s;
     mustBeBaseLink := mustBeBaseLink s;
     GetSelfCollide := GetSelfCollide s;
     GetCollisions := GetCollisions s;
     l_GetRelativePose := l_GetRelativePose s;
     GetParentModel_WorldPose := GetParentModel_WorldPose s;
     masterMobod := masterMobod s;
     slaveMobods := v;
     slaveWelds := slaveWelds s;
     l_physicsInitialized := l_physicsInitialized s |}.

Definition set_slaveWelds (v : list (MobilizedBody * MobilizedBody)) (s : SimbodyLink) : SimbodyLink :=
  {| l_GetName := l_GetName s;
     GetMass := GetMass s;
     mustBeBaseLink := mustBeBaseLink s;
     GetSelfCollide := GetSelfCollide s;
     GetCollisions := GetCollisions s;
     l_GetRelativePose := l_GetRelativePose s;
     GetParentModel_WorldPose := GetParentModel_WorldPose s;
     masterMobod := masterMobod s;
     slaveMobods := slaveMobods s;
     slaveWelds := v;
     l_physicsInitialized := l_physicsInitialized s |}.

Definition set_l_physicsInitialized (v : bool) (s : SimbodyLink) : SimbodyLink :=
  {| l_GetName := l_GetName s;
     GetMass := GetMass s;
     mustBeBaseLink := mustBeBaseLink s;
     GetSelfCollide := GetSelfCollide s;
     GetCollisions := GetCollisions s;
     l_GetRelativePose := l_GetRelativePose s;
     GetParentModel_WorldPose := GetParentModel_WorldPose s;
     masterMobod := masterMobod s;
     slaveMobods := slaveMobods s;
     slaveWelds := slaveWelds s;
     l_physicsInitialized := v |}.

(** *** Calls into the solver and into absent methods *)

Inductive MobilizerKind :=
  | Free
  | Screw (pitch : double)
  | Universal
  | Pin
  | Slider
  | Ball.

(** [SimbodyLink::GetEffectiveMassProps(numFragments)] of a link. *)
Inductive MassProperties :=
  | GetEffectiveMassProps (link : LinkId) (numFragments : nat).

(** The arguments of a [MobilizedBody::Kind] constructor. *)
Record MobilizedBodyCtor := mkMobilizedBody {
  kind : MobilizerKind;
  parentMobod : MobilizedBody;
  X_IF : Transform;
  massProps : MassProperties;
  X_OM : Transform;
  direction : MobilizedBody_Direction
}.

Inductive ForceCtor :=
  (** [Force::MobilityLinearStop(forces, mobod, q, k, d, qLow, qHigh)] *)
  | MobilityLinearStop (b : MobilizedBody) (q : nat)
                       (k d qLow qHigh : double)
  (** [Force::MobilityLinearDamper(forces, mobod, u, c)] *)
  | MobilityLinearDamper (b : MobilizedBody) (u : nat) (c : double)
  (** [Force::MobilityLinearSpring(forces, mobod, u, k, x0)] *)
  | MobilityLinearSpring (b : MobilizedBody) (u : nat) (k x0 : double).

Inductive Call :=
  | graph_call (c : GraphCall)
  | createNewContactClique
  | new_MobilizedBody (c : MobilizedBodyCtor)
  | setDefaultTransform (b : MobilizedBody) (X : Transform)
  | setDefaultRotation (b : MobilizedBody) (R : Rotation)
  | new_Force (f : ForceCtor)
  | addContactSurface (b : MobilizedBody) (X : Transform) (surface : ContactSurface)
  | new_Weld (master slave : MobilizedBody)
  | setDefaultGravityVector (g : Vec3)
  | setDefaultMagnitude (g : double)
  | realizeTopology
  | State_setTime (t : double)
  | integ_initialize (state : State)
  (** [SimbodyJoint::SaveSimbodyState], [SimbodyLink::SaveSimbodyState] *)
  | SaveSimbodyState (o : StateOwner) (currentState : State)
  (** [SimbodyJoint::RestoreSimbodyState], [SimbodyLink::RestoreSimbodyState] *)
  | RestoreSimbodyState (o : StateOwner) (state : State).

(** The behaviour of the code behind the calls: which calls throw a
    [std::exception] (and with what message), what [generateGraph]
    computes from the calls the graph maker received, the default state
    [realizeTopology] returns, and the state the integrator holds after
    [initialize]. *)
Record Backend := mkBackend {
  throws : Call -> option string;
  generateGraph_result : list GraphCall -> list Mobilizer;
  realizeTopology_result : State;
  initialize_result : State -> State
}.

(** The members of [SimbodyPhysics] and of the world it simulates.
    [simbodyQU] holds the coordinates and speeds that the joints and
    links have captured (members of the joint and link objects), by
    identity. *)
Record SimbodyPhysics := mkSimbodyPhysics {
  links : gmap LinkId Link;
  joints : gmap JointId Joint;
  world_GetModels : list Model;
  trace : list Call;
  console : list LogMsg;
  numMobods : nat;
  numForces : nat;
  numCliques : nat;
  integ_getState : State;
  GetGravity : ign.Vector3d;
  contactMaterial : ContactMaterial;
  simbodyPhysicsInitialized : bool;
  simbodyQU : gmap StateOwner QU
}.

Definition set_links (v : gmap LinkId Link) (s : SimbodyPhysics) : SimbodyPhysics :=
  {| links := v;
     joints := joints s;
     world_GetModels := world_GetModels s;
     trace := trace s;
     console := console s;
     numMobods := numMobods s;
     numForces := numForces s;
     numCliques := numCliques s;
     integ_getState := integ_getState s;
     GetGravity := GetGravity s;
     contactMaterial := contactMaterial s;
     simbodyPhysicsInitialized := simbodyPhysicsInitialized s;
     simbodyQU := simbodyQU s |}.

Definition set_joints (v : gmap JointId Joint) (s : SimbodyPhysics) : SimbodyPhysics :=
  {| links := links s;
     joints := v;
     world_GetModels := world_GetModels s;
     trace := trace s;
     console := console s;
     numMobods := numMobods s;
     numForces := numForces s;
     numCliques := numCliques s;
     integ_getState := integ_getState s;
     GetGravity := GetGravity s;
     contactMaterial := contactMaterial s;
     simbodyPhysicsInitialized := simbodyPhysicsInitialized s;
     simbodyQU := simbodyQU s |}.

Definition set_trace (v : list Call) (s : SimbodyPhysics) : SimbodyPhysics :=
  {| links := links s;
     joints := joints s;
     world_GetModels := world_GetModels s;
     trace := v;
     console := console s;
     numMobods := numMobods s;
     numForces := numForces s;
     numCliques := numCliques s;
     integ_getState := integ_getState s;
     GetGravity := GetGravity s;
     contactMaterial := contactMaterial s;
     simbodyPhysicsInitialized := simbodyPhysicsInitialized s;
     simbodyQU := simbodyQU s |}.

Definition set_console (v : list LogMsg) (s : SimbodyPhysics) : SimbodyPhysics :=
  {| links := links s;
     joints := joints s;
     world_GetModels := world_GetModels s;
     trace := trace s;
     console := v;
     numMobods := numMobods s;
     numForces := numForces s;
     numCliques := numCliques s;
     integ_getState := integ_getState s;
     GetGravity := GetGravity s;
     contactMaterial := contactMaterial s;
     simbodyPhysicsInitialized := simbodyPhysicsInitialized s;
     simbodyQU := simbodyQU s |}.

Definition set_numMobods (v : nat) (s : SimbodyPhysics) : SimbodyPhysics :=
  {| links := links s;
     joints := joints s;
     world_GetModels := world_GetModels s;
     trace := trace s;
     console := console s;
     numMobods := v;
     numForces := numForces s;
     numCliques := numCliques s;
     integ_getState := integ_getState s;
     GetGravity := GetGravity s;
     contactMaterial := contactMaterial s;
     simbodyPhysicsInitialized := simbodyPhysicsInitialized s;
     simbodyQU := simbodyQU s |}.

Definition set_numForces (v : nat) (s : SimbodyPhysics) : SimbodyPhysics :=
  {| links := links s;
     joints := joints s;
     world_GetModels := world_GetModels s;
     trace := trace s;
     console := console s;
     numMobods := numMobods s;
     numForces := v;
     numCliques := numCliques s;
     integ_getState := integ_getState s;
     GetGravity := GetGravity s;
     contactMaterial := contactMaterial s;
     simbodyPhysicsInitialized := simbodyPhysicsInitialized s;
     simbodyQU := simbodyQU s |}.

Definition set_numCliques (v : nat) (s : SimbodyPhysics) : SimbodyPhysics :=
  {| links := links s;
     joints := joints s;
     world_GetModels := world_GetModels s;
     trace := trace s;
     console := console s;
     numMobods := numMobods s;
     numForces := numForces s;
     numCliques := v;
     integ_getState := integ_getState s;
     GetGravity := GetGravity s;
     contactMaterial := contactMaterial s;
     simbodyPhysicsInitialized := simbodyPhysicsInitialized s;
     simbodyQU := simbodyQU s |}.

Definition set_integ_getState (v : State) (s : SimbodyPhysics) : SimbodyPhysics :=
  {| links := links s;
     joints := joints s;
     world_GetModels := world_GetModels s;
     trace := trace s;
     console := console s;
     numMobods := numMobods s;
     numForces := numForces s;
     numCliques := numCliques s;
     integ_getState := v;
     GetGravity := GetGravity s;
     contactMaterial := contactMaterial s;
     simbodyPhysicsInitialized := simbodyPhysicsInitialized s;
     simbodyQU := simbodyQU s |}.

Definition set_simbodyPhysicsInitialized (v : bool) (s : SimbodyPhysics) : SimbodyPhysics :=
  {| links := links s;
     joints := joints s;
     world_GetModels := world_GetModels s;
     trace := trace s;
     console := console s;
     numMobods := numMobods s;
     numForces := numForces s;
     numCliques := numCliques s;
     integ_getState := integ_getState s;
     GetGravity := GetGravity s;
     contactMaterial := contactMaterial s;
     simbodyPhysicsInitialized := v;
     simbodyQU := simbodyQU s |}.

Definition set_simbodyQU (v : gmap StateOwner QU) (s : SimbodyPhysics) : SimbodyPhysics :=
  {| links := links s;
     joints := joints s;
     world_GetModels := world_GetModels s;
     trace := trace s;
     console := console s;
     numMobods := numMobods s;
     numForces := numForces s;
     numCliques := numCliques s;
     integ_getState := integ_getState s;
     GetGravity := GetGravity s;
     contactMaterial := contactMaterial s;
     simbodyPhysicsInitialized := simbodyPhysicsInitialized s;
     simbodyQU := v |}.

(** *** Exceptions and the monad *)

Inductive Exn :=
  | std_exception (what : string)        (** thrown by the solver *)
  | common_Exception (msg : string)      (** thrown by [gzthrow] *)
  | undefined_behaviour (why : string).  (** dereference of a bad pointer *)

Inductive Outcome (A : Type) :=
  | Ret (a : A)
  | Throw (e : Exn).
Arguments Ret {A} a.
Arguments Throw {A} e.

Definition Sim (A : Type) : Type := SimbodyPhysics -> Outcome A * SimbodyPhysics.

Definition ret {A} (a : A) : Sim A := fun s => (Ret a, s).

Definition bind {A B} (m : Sim A) (k : A -> Sim B) : Sim B :=
  fun s =>
    match m s with
    | (Ret a, s') => k a s'
    | (Throw e, s') => (Throw e, s')
    end.

Definition throw {A} (e : Exn) : Sim A := fun s => (Throw e, s).

(** [try { body } catch (const std::exception &e) { handler(e.what()) }] *)
Definition try_catch {A} (body : Sim A) (handler : string -> Sim A) : Sim A :=
  fun s =>
    match body s with
    | (Throw (std_exception what), s') => handler what s'
    | r => r
    end.

Definition gets {A} (f : SimbodyPhysics -> A) : Sim A := fun s => (Ret (f s), s).

Definition modify (f : SimbodyPhysics -> SimbodyPhysics) : Sim unit :=
  fun s => (Ret tt, f s).

Declare Scope sim_scope.
Delimit Scope sim_scope with sim.
Notation "'let*' x ':=' m 'in' k" := (bind m (fun x => k))
  (at level 10, x name, m at level 100, k at level 200) : sim_scope.
Notation "m ';;' k" := (bind m (fun _ => k))
  (at level 100, k at level 200, right associativity) : sim_scope.
Open Scope sim_scope.

Fixpoint for_each {A} (l : list A) (body : A -> Sim unit) : Sim unit :=
  match l with
  | [] => ret tt
  | x :: l' => body x ;; for_each l' body
  end.

Fixpoint fold_each {A G} (l : list A) (body : G -> A -> Sim G) (g : G) : Sim G :=
  match l with
  | [] => ret g
  | x :: l' => let* g' := body g x in fold_each l' body g'
  end.

Definition nl : string := String (Ascii.ascii_of_nat 10) EmptyString.

Definition log (lv : LogLevel) (msg : string) : Sim unit :=
  modify (fun s => set_console (console s ++ [mkLog lv msg]) s).

Definition gzerr := log gzerr_level.
Definition gzdbg := log gzdbg_level.

(** [gzthrow(msg)] *)
Definition gzthrow {A} (msg : string) : Sim A := throw (common_Exception msg).

Section Methods.

Context (K : Constants) (B : Backend).

(** A call into the solver: it throws when the backend says so, and is
    appended to the trace otherwise. *)
Definition call (c : Call) : Sim unit :=
  fun s =>
    match throws B c with
    | Some what => (Throw (std_exception what), s)
    | None => (Ret tt, set_trace (trace s ++ [c]) s)
    end.

(** A call on the (local) graph maker. *)
Definition graph (c : GraphCall) (g : MultibodyGraphMaker)
    : Sim MultibodyGraphMaker :=
  fun s =>
    match throws B (graph_call c) with
    | Some what => (Throw (std_exception what), s)
    | None =>
        (Ret {| received := received g ++ [c];
                mobilizers :=
                  match c with
                  | generateGraph => generateGraph_result B (received g)
                  | _ => mobilizers g
                  end |}, s)
    end.

(** Dereferencing a [LinkPtr] / [JointPtr]. *)
Definition deref_link (id : LinkId) : Sim Link :=
  fun s =>
    match links s !! id with
    | Some l => (Ret l, s)
    | None => (Throw (undefined_behaviour "dangling link pointer"), s)
    end.

Definition deref_joint (id : JointId) : Sim Joint :=
  fun s =>
    match joints s !! id with
    | Some j => (Ret j, s)
    | None => (Throw (undefined_behaviour "dangling joint pointer"), s)
    end.

(** Using the result of a pointer cast to the Simbody subclass without
    a check. *)
Definition deref_SimbodyLink (id : LinkId) : Sim SimbodyLink :=
  let* l := deref_link id in
  match l with
  | Link_Simbody l => ret l
  | Link_Other _ => throw (undefined_behaviour "not a SimbodyLink")
  end.

Definition deref_SimbodyJoint (id : JointId) : Sim SimbodyJoint :=
  let* j := deref_joint id in
  match j with
  | Joint_Simbody j => ret j
  | Joint_Other _ => throw (undefined_behaviour "not a SimbodyJoint")
  end.

(** Writing a member through a [SimbodyLink*] / [SimbodyJoint*]. *)
Definition update_link (id : LinkId) (f : SimbodyLink -> SimbodyLink) : Sim unit :=
  let* l := deref_SimbodyLink id in
  modify (fun s => set_links (<[id := Link_Simbody (f l)]> (links s)) s).

Definition update_joint (id : JointId) (f : SimbodyJoint -> SimbodyJoint) : Sim unit :=
  let* j := deref_SimbodyJoint id in
  modify (fun s => set_joints (<[id := Joint_Simbody (f j)]> (joints s)) s).

(** [SimbodyPhysics::GetTypeString(physics::Base::EntityType)] *)
Definition GetTypeString (_type : Z) : Sim string :=
  if negb (Z.eqb (Z.land _type (BALL_JOINT K)) 0) then ret "ball"
  else if negb (Z.eqb (Z.land _type (HINGE2_JOINT K)) 0) then ret "revolute2"
  else if negb (Z.eqb (Z.land _type (HINGE_JOINT K)) 0) then ret "revolute"
  else if negb (Z.eqb (Z.land _type (SLIDER_JOINT K)) 0) then ret "prismatic"
  else if negb (Z.eqb (Z.land _type (SCREW_JOINT K)) 0) then ret "screw"
  else if negb (Z.eqb (Z.land _type (UNIVERSAL_JOINT K)) 0) then ret "universal"
  else gzerr ("Unrecognized joint type" +:+ nl) ;; ret "UNRECOGNIZED".

(** [_mbgraph.addJointType(GetTypeString(t), dofs)] *)
Definition registerJointType (t : Z) (dofs : nat) (g : MultibodyGraphMaker)
    : Sim MultibodyGraphMaker :=
  let* name := GetTypeString t in
  graph (addJointType name dofs false) g.

(** Step 2 of CreateMultibodyGraph, for one link. *)
Definition CreateMultibodyGraph_link (g : MultibodyGraphMaker) (li : LinkId)
    : Sim MultibodyGraphMaker :=
  let* l := deref_link li in
  match l with
  | Link_Simbody simbodyLink =>
      graph (addBody (l_GetName simbodyLink) (GetMass simbodyLink)
                     (mustBeBaseLink simbodyLink) (Some li)) g
  | Link_Other name =>
      gzerr ("simbodyLink [" +:+ name +:+ "]is not a SimbodyLinkPtr" +:+ nl) ;;
      ret g
  end.

(** Step 3 of CreateMultibodyGraph, for one joint. *)
Definition CreateMultibodyGraph_joint (g : MultibodyGraphMaker) (ji : JointId)
    : Sim MultibodyGraphMaker :=
  let* j := deref_joint ji in
  match j with
  | Joint_Simbody simbodyJoint =>
      match GetParent simbodyJoint, GetChild simbodyJoint with
      | Some parent, Some child =>
          let* type := GetTypeString (GetType simbodyJoint) in
          let* p := deref_link parent in
          let* c := deref_link child in
          graph (addJoint (j_GetName simbodyJoint) type
                          (Link_GetName p) (Link_GetName c)
                          (mustBreakLoopHere simbodyJoint) (Some ji)) g
      | None, Some child =>
          let* type := GetTypeString (GetType simbodyJoint) in
          let* c := deref_link child in
          graph (addJoint (j_GetName simbodyJoint) type
                          "world" (Link_GetName c)
                          (mustBreakLoopHere simbodyJoint) (Some ji)) g
      | _, None =>
          gzerr ("simbodyJoint [" +:+ j_GetName simbodyJoint
                 +:+ "] does not have a valid child link, which is required"
                 +:+ nl) ;;
          ret g
      end
  | Joint_Other name =>
      gzerr ("simbodyJoint [" +:+ name +:+ "]is not a SimbodyJointPtr" +:+ nl) ;;
      ret g
  end.

(** [SimbodyPhysics::CreateMultibodyGraph(_mbgraph, _model)] *)
Definition CreateMultibodyGraph (_mbgraph : MultibodyGraphMaker) (_model : Model)
    : Sim MultibodyGraphMaker :=
  (* Step 1: joint types *)
  let* g := registerJointType (HINGE_JOINT K) 1 _mbgraph in
  let* g := registerJointType (HINGE2_JOINT K) 2 g in
  let* g := registerJointType (SLIDER_JOINT K) 1 g in
  let* g := registerJointType (UNIVERSAL_JOINT K) 2 g in
  let* g := registerJointType (SCREW_JOINT K) 1 g in
  let* g := registerJointType (BALL_JOINT K) 3 g in
  (* Step 2: links, starting with world *)
  let* g := graph (addBody "world" infinity false None) g in
  let* g := fold_each (GetLinks _model) CreateMultibodyGraph_link g in
  (* Step 3: joints *)
  let* g := fold_each (GetJoints _model) CreateMultibodyGraph_joint g in
  (* Step 4 *)
  graph generateGraph g.

(** [SimbodyPhysics::InitSimbodySystem()] *)
Definition Vector3ToVec3 (_v : ign.Vector3d) : Vec3 :=
  mkVec3 (ign.vX _v) (ign.vY _v) (ign.vZ _v).

(** [ignition::math::Vector3d::Length()] *)
Definition Length (v : ign.Vector3d) : double :=
  PrimFloat.sqrt (ign.vX v * ign.vX v + ign.vY v * ign.vY v
                  + ign.vZ v * ign.vZ v)%float.

Definition InitSimbodySystem : Sim unit :=
  let* g := gets GetGravity in
  if negb (ign.equal (Length g) 0%float)
  then call (setDefaultGravityVector (Vector3ToVec3 g))
  else call (setDefaultMagnitude 0%float).

(** [SimbodyPhysics::Pose2Transform(_pose)] *)
Definition Pose2Transform (_pose : ign.Pose3d) : Transform :=
  Transform_Rp
    (Rotation_Quaternion (ign.qw (ign.Rot _pose)) (ign.qx (ign.Rot _pose))
                         (ign.qy (ign.Rot _pose)) (ign.qz (ign.Rot _pose)))
    (Position_Vec (mkVec3 (ign.vX (ign.Pos _pose)) (ign.vY (ign.Pos _pose))
                          (ign.vZ (ign.Pos _pose)))).

(** The surface of one collision shape: built, joined to the model
    clique when [addModelClique] holds, then attached to [_mobod]. *)
Definition attach_surface (addModelClique : bool) (_modelClique : ContactCliqueId)
    (_mobod : MobilizedBody) (X : Transform) (surface : ContactSurface) : Sim unit :=
  let surface :=
    if addModelClique then joinClique _modelClique surface else surface in
  call (addContactSurface _mobod X surface).

(** The body of the loop of AddCollisionsToLink, for one collision. *)
Definition AddCollisionsToLink_shape (material : ContactMaterial)
    (addModelClique : bool) (_mobod : MobilizedBody)
    (_modelClique : ContactCliqueId) (ci : Collision) : Sim unit :=
  let X_LC := Pose2Transform (c_GetRelativePose ci) in
  let t := Z.land (GetShapeType K ci) (Z.lnot (SHAPE K)) in
  if Z.eqb t (PLANE_SHAPE K) then
    match GetShape ci with
    | PlaneShape normal_ =>
        (* a contact surface to represent the ground *)
        call (addContactSurface Ground
                (Transform_R (Rotation_AngleAxis (Pi / 2)%float YAxis))
                (mkContactSurface HalfSpace material None [])) ;;
        let normal := Vector3ToVec3 normal_ in
        let R_XN := Rotation_Axis (UnitVec3_Neg (UnitVec3 normal)) XAxis in
        attach_surface addModelClique _modelClique _mobod (Transform_R R_XN)
          (mkContactSurface HalfSpace material None [])
    | _ => throw (undefined_behaviour "not a PlaneShape")
    end
  else if Z.eqb t (SPHERE_SHAPE K) then
    match GetShape ci with
    | SphereShape r =>
        attach_surface addModelClique _modelClique _mobod X_LC
          (mkContactSurface (Sphere r) material None [])
    | _ => throw (undefined_behaviour "not a SphereShape")
    end
  else if Z.eqb t (CYLINDER_SHAPE K) then
    match GetShape ci with
    | CylinderShape r len =>
        attach_surface addModelClique _modelClique _mobod X_LC
          (mkContactSurface (TriangleMesh_Cylinder ZAxis r (len / 2)%float 1)
                            material (Some 1%nat) [])
    | _ => throw (undefined_behaviour "not a CylinderShape")
    end
  else if Z.eqb t (BOX_SHAPE K) then
    match GetShape ci with
    | BoxShape size =>
        let hsz := mkVec3 (ign.vX size / 2)%float (ign.vY size / 2)%float
                          (ign.vZ size / 2)%float in
        attach_surface addModelClique _modelClique _mobod X_LC
          (mkContactSurface (TriangleMesh_Brick hsz 6) material (Some 1%nat) [])
    | _ => throw (undefined_behaviour "not a BoxShape")
    end
  else
    gzerr ("Collision type [" +:+ pretty (GetShapeType K ci)
           +:+ "] unimplemented" +:+ nl).

(** [SimbodyPhysics::AddCollisionsToLink(_link, _mobod, _modelClique)] *)
Definition AddCollisionsToLink (_link : LinkId) (_mobod : MobilizedBody)
    (_modelClique : ContactCliqueId) : Sim unit :=
  let* material := gets contactMaterial in
  let* link := deref_SimbodyLink _link in
  let addModelClique := isValid _modelClique && negb (GetSelfCollide link) in
  for_each (GetCollisions link)
    (AddCollisionsToLink_shape material addModelClique _mobod _modelClique).

(** [SimbodyPhysics::AddStaticModelToSimbodySystem(_model)] *)
Definition AddStaticModelToSimbodySystem (_model : Model) : Sim unit :=
  for_each (GetLinks _model) (fun li =>
    let* l := deref_link li in
    match l with
    | Link_Simbody _ =>
        AddCollisionsToLink li Ground InvalidCliqueId ;;
        update_link li (set_masterMobod Ground)
    | Link_Other name =>
        gzerr ("simbodyLink [" +:+ name +:+ "]is not a SimbodyLinkPtr" +:+ nl)
    end).

(** *** Mobilizer synthesis *)

(** Constructing a [MobilizedBody], a [Force] element, a contact
    clique: the call, then a fresh handle. *)
Definition new_body (c : MobilizedBodyCtor) : Sim MobilizedBody :=
  call (new_MobilizedBody c) ;;
  let* n := gets numMobods in
  modify (set_numMobods (S n)) ;;
  ret (Mobod n).

Definition new_force (f : ForceCtor) : Sim Force :=
  call (new_Force f) ;;
  let* n := gets numForces in
  modify (set_numForces (S n)) ;;
  ret (ForceIndex n).

Definition new_clique : Sim ContactCliqueId :=
  call createNewContactClique ;;
  let* n := gets numCliques in
  modify (set_numCliques (S n)) ;;
  ret (CliqueId n).

(** The stop, damper and spring of axis [nj]: the block that the
    screw, revolute and prismatic branches have for axis 0 and the
    universal branch has in its loop over [nj]. *)
Definition attach_axis_forces (id : JointId) (gzJoint : SimbodyJoint)
    (mobod : MobilizedBody) (nj : nat) : Sim unit :=
  let low := ign.Radian (GetLowerLimit gzJoint nj) in
  let high := ign.Radian (GetUpperLimit gzJoint nj) in
  (* initialize stop stiffness and dissipation from joint parameters *)
  let* stop :=
    new_force (MobilityLinearStop mobod nj (GetStopStiffness gzJoint nj)
                                  (GetStopDissipation gzJoint nj) low high) in
  update_joint id (fun j => set_limitForce (<[nj := stop]> (limitForce j)) j) ;;
  (* a damper for every joint even if damping coefficient is zero *)
  let* d := new_force (MobilityLinearDamper mobod nj (GetDamping gzJoint nj)) in
  update_joint id (fun j => set_damper (<[nj := d]> (damper j)) j) ;;
  (* add spring *)
  let* sp :=
    new_force (MobilityLinearSpring mobod nj (GetStiffness gzJoint nj)
                                    (GetSpringReferencePosition gzJoint nj)) in
  update_joint id (fun j => set_spring (<[nj := sp]> (spring j)) j).

(** [UnitVec3(Vector3ToVec3(GetAxisFrameOffset(0).RotateVector(GetLocalAxis(i))))] *)
Definition joint_axis (gzJoint : SimbodyJoint) (i : nat) : Direction3 :=
  UnitVec3_Rotated (GetAxisFrameOffset gzJoint 0) (GetLocalAxis gzJoint i).

(** [Transform(X.R() * R, X.p())] *)
Definition align (X : Transform) (R : Rotation) : Transform :=
  Transform_Rp (Rotation_Mul (R_of X) R) (p_of X).

(** The inboard frame, outboard frame and direction chosen for a
    mobilizer of an input joint. *)
Definition X_IF0_of (isReversed : bool) (gzJoint : SimbodyJoint) : Transform :=
  if isReversed then xCB gzJoint else xPA gzJoint.

Definition X_OM0_of (isReversed : bool) (gzJoint : SimbodyJoint) : Transform :=
  if isReversed then xPA gzJoint else xCB gzJoint.

Definition direction_of (isReversed : bool) : MobilizedBody_Direction :=
  if isReversed then Reverse else Forward.

(** The branch on [type] for a mobilizer that corresponds to an input
    joint; the result is the local [mobod]. *)
Definition mobilize_joint (type : string) (id : JointId) (gzJoint : SimbodyJoint)
    (isReversed : bool) (parentMobod : MobilizedBody)
    (massProps : MassProperties) : Sim MobilizedBody :=
  let X_IF0 := X_IF0_of isReversed gzJoint in
  let X_OM0 := X_OM0_of isReversed gzJoint in
  let direction := direction_of isReversed in
  if String.eqb type "free" then
    let* freeJoint :=
      new_body (mkMobilizedBody Free parentMobod X_IF0 massProps X_OM0 direction) in
    let defX_FM :=
      if isReversed then Transform_Inv (defxAB gzJoint) else defxAB gzJoint in
    call (setDefaultTransform freeJoint defX_FM) ;;
    ret freeJoint
  else if String.eqb type "screw" then
    let axis := joint_axis gzJoint 0 in
    let* pitch :=
      match GetThreadPitch gzJoint with
      | Some f => ret (f 0%nat)
      | None => throw (undefined_behaviour "not a SimbodyScrewJoint")
      end in
    let* pitch :=
      if ign.equal pitch 0%float then
        gzerr ("thread pitch should not be zero (joint is a slider?)"
               +:+ " using pitch = 1.0e6" +:+ nl) ;;
        ret 1.0e6%float
      else ret pitch in
    (* Simbody's screw joint axis is along Z *)
    let R_JZ := Rotation_Axis axis ZAxis in
    let* screwJoint :=
      new_body (mkMobilizedBody (Screw (-1.0 / pitch)%float) parentMobod
                  (align X_IF0 R_JZ) massProps (align X_OM0 R_JZ) direction) in
    gzdbg ("Setting limitForce[0] for [" +:+ j_GetName gzJoint +:+ "]" +:+ nl) ;;
    attach_axis_forces id gzJoint screwJoint 0 ;;
    ret screwJoint
  else if String.eqb type "universal" then
    let axis1 := joint_axis gzJoint (AXIS_PARENT K) in
    let axis2 := joint_axis gzJoint (AXIS_CHILD K) in
    let R_JF := Rotation_TwoAxes axis1 XAxis axis2 YAxis in
    let* uJoint :=
      new_body (mkMobilizedBody Universal parentMobod
                  (align X_IF0 R_JF) massProps (align X_OM0 R_JF) direction) in
    for_each [0%nat; 1%nat] (attach_axis_forces id gzJoint uJoint) ;;
    ret uJoint
  else if String.eqb type "revolute" then
    let axis := joint_axis gzJoint 0 in
    (* Simbody's pin is along Z *)
    let R_JZ := Rotation_Axis axis ZAxis in
    let* pinJoint :=
      new_body (mkMobilizedBody Pin parentMobod
                  (align X_IF0 R_JZ) massProps (align X_OM0 R_JZ) direction) in
    attach_axis_forces id gzJoint pinJoint 0 ;;
    ret pinJoint
  else if String.eqb type "prismatic" then
    let axis := joint_axis gzJoint 0 in
    (* Simbody's slider is along X *)
    let R_JX := Rotation_Axis axis XAxis in
    let* sliderJoint :=
      new_body (mkMobilizedBody Slider parentMobod
                  (align X_IF0 R_JX) massProps (align X_OM0 R_JX) direction) in
    attach_axis_forces id gzJoint sliderJoint 0 ;;
    ret sliderJoint
  else if String.eqb type "ball" then
    let* ballJoint :=
      new_body (mkMobilizedBody Ball parentMobod X_IF0 massProps X_OM0 direction) in
    let defR_FM :=
      if isReversed then Rotation_Inv (R_of (defxAB gzJoint))
      else R_of (defxAB gzJoint) in
    call (setDefaultRotation ballJoint defR_FM) ;;
    ret ballJoint
  else
    gzerr ("Simbody joint type [" +:+ type +:+ "] not implemented." +:+ nl) ;;
    ret EmptyHandle.

(** The mobilizer that has no input joint: only [free] is allowed. *)
Definition mobilize_added_base (type : string) (gzInb : option LinkId)
    (gzOutb : SimbodyLink) (parentMobod : MobilizedBody)
    (massProps : MassProperties) : Sim MobilizedBody :=
  if String.eqb type "free" then
    let* freeJoint :=
      new_body (mkMobilizedBody Free parentMobod Transform_Identity
                  massProps Transform_Identity Forward) in
    let* inboard_X_ML :=
      match gzInb with
      | None =>
          ret (Transform_Inv (Pose2Transform (GetParentModel_WorldPose gzOutb)))
      | Some inb =>
          let* l := deref_SimbodyLink inb in
          ret (Pose2Transform (l_GetRelativePose l))
      end in
    let outboard_X_ML := Pose2Transform (l_GetRelativePose gzOutb) in
    (* defX_ML link frame specified in model frame *)
    call (setDefaultTransform freeJoint
            (Transform_Mul (Transform_Inv inboard_X_ML) outboard_X_ML)) ;;
    ret freeJoint
  else ret EmptyHandle.

(** The body of the loop over the mobilizers of the graph. *)
Definition AddMobilizer (modelClique : ContactCliqueId) (mob : Mobilizer)
    : Sim unit :=
  let type := getJointTypeName mob in
  let isSlave := isSlaveMobilizer mob in
  let gzInb := getInboardBodyRef mob in
  let gzOutb := getOutboardMasterBodyRef mob in
  let* outb := deref_SimbodyLink gzOutb in
  let massProps := GetEffectiveMassProps gzOutb (getNumFragments mob) in
  let* parentMobod :=
    match gzInb with
    | None => ret Ground
    | Some inb => let* l := deref_SimbodyLink inb in ret (masterMobod l)
    end in
  let* mobod :=
    if isAddedBaseMobilizer mob then
      mobilize_added_base type gzInb outb parentMobod massProps
    else
      match getJointRef mob with
      | None => throw (undefined_behaviour "null joint reference")
      | Some id =>
          let* gzJoint := deref_SimbodyJoint id in
          let isReversed := isReversedFromJoint mob in
          let* mobod :=
            mobilize_joint type id gzJoint isReversed parentMobod massProps in
          (* Created a mobilizer that corresponds to gzJoint. Keep track. *)
          update_joint id (set_mobod mobod) ;;
          update_joint id (set_isReversed isReversed) ;;
          ret mobod
      end in
  (* Link gzOutb has been mobilized; keep track for later. *)
  (if isSlave
   then update_link gzOutb (fun l => set_slaveMobods (slaveMobods l ++ [mobod]) l)
   else update_link gzOutb (set_masterMobod mobod)) ;;
  AddCollisionsToLink gzOutb mobod modelClique.

(** Weld the slaves of one link to its master. *)
Definition weld_slaves (lx : LinkId) : Sim unit :=
  let* link := deref_SimbodyLink lx in
  for_each (slaveMobods link) (fun slave =>
    call (new_Weld (masterMobod link) slave) ;;
    update_link lx (fun l =>
      set_slaveWelds (slaveWelds l ++ [(masterMobod link, slave)]) l)).

(** [SimbodyPhysics::AddDynamicModelToSimbodySystem(_mbgraph, _model)] *)
Definition AddDynamicModelToSimbodySystem (_mbgraph : MultibodyGraphMaker)
    (_model : Model) : Sim unit :=
  let* modelClique := new_clique in
  for_each (mobilizers _mbgraph) (AddMobilizer modelClique) ;;
  (* Weld the slaves to their masters. *)
  let* models := gets world_GetModels in
  for_each models (fun mi => for_each (GetLinks mi) weld_slaves).

(** *** InitModel *)

(** Modelled from the spec: [SimbodyJoint::SaveSimbodyState] and
    [SimbodyLink::SaveSimbodyState] are in SimbodyJoint.cc and
    SimbodyLink.cc, which are not among the sources. They capture the
    generalized position and velocity that the state holds for the joint
    or link, keyed by its identity; a joint or link for which the state
    holds nothing keeps what it had captured before. *)
Definition SaveSimbodyState_members (o : StateOwner) (state : State)
    (members : gmap StateOwner QU) : gmap StateOwner QU :=
  match getQU state !! o with
  | Some v => <[o := v]> members
  | None => members
  end.

(** Modelled from the spec: [SimbodyJoint::RestoreSimbodyState] and
    [SimbodyLink::RestoreSimbodyState], from the same files, write the
    values the joint or link has captured into the state they are given;
    for a joint or link that has captured nothing the state is left as
    it is. *)
Definition RestoreSimbodyState_state (o : StateOwner)
    (members : gmap StateOwner QU) (state : State) : State :=
  match members !! o with
  | Some v => setQU o v state
  | None => state
  end.

(** [simbodyJoint->SaveSimbodyState(currentState)] on the result of an
    unchecked dynamic cast, and its siblings. [RestoreSimbodyState]
    takes the state by reference: the result is the state as the call
    leaves it. *)
Definition save_joint (currentState : State) (jx : JointId) : Sim unit :=
  deref_SimbodyJoint jx ;;
  call (SaveSimbodyState (OfJoint jx) currentState) ;;
  modify (fun s =>
    set_simbodyQU
      (SaveSimbodyState_members (OfJoint jx) currentState (simbodyQU s)) s).

Definition save_link (currentState : State) (lx : LinkId) : Sim unit :=
  deref_SimbodyLink lx ;;
  call (SaveSimbodyState (OfLink lx) currentState) ;;
  modify (fun s =>
    set_simbodyQU
      (SaveSimbodyState_members (OfLink lx) currentState (simbodyQU s)) s).

Definition restore_joint (state : State) (jx : JointId) : Sim State :=
  deref_SimbodyJoint jx ;;
  call (RestoreSimbodyState (OfJoint jx) state) ;;
  let* members := gets simbodyQU in
  ret (RestoreSimbodyState_state (OfJoint jx) members state).

Definition restore_link (state : State) (lx : LinkId) : Sim State :=
  deref_SimbodyLink lx ;;
  call (RestoreSimbodyState (OfLink lx) state) ;;
  let* members := gets simbodyQU in
  ret (RestoreSimbodyState_state (OfLink lx) members state).

(** The first block of InitModel: returns [(stateTime, simbodyStateSaved)]. *)
Definition save_states (_model : Model) : Sim (double * bool) :=
  let* currentState := gets integ_getState in
  if negb (Stage_eqb (getSystemStage currentState) Empty) then
    let stateTime := getTime currentState in
    let* models := gets world_GetModels in
    for_each models (fun mi =>
      if negb (Nat.eqb (model_id mi) (model_id _model)) then
        for_each (GetJoints mi) (save_joint currentState) ;;
        for_each (GetLinks mi) (save_link currentState)
      else ret tt) ;;
    ret (stateTime, true)
  else ret (0%float, false).

(** The body of the first [try] block. *)
Definition build_system (_model : Model) : Sim unit :=
  if IsStatic _model then AddStaticModelToSimbodySystem _model
  else
    let* mbgraph := CreateMultibodyGraph new_MultibodyGraphMaker _model in
    AddDynamicModelToSimbodySystem mbgraph _model.

(** The block that restores the saved states into [state]: the result
    is [state] after the time has been set and every joint and link has
    written into it. *)
Definition restore_states (stateTime : double) (state : State) : Sim State :=
  call (State_setTime stateTime) ;;
  let state := setTime stateTime state in
  let* models := gets world_GetModels in
  fold_each models (fun state mi =>
    let* state := fold_each (GetJoints mi) restore_joint state in
    fold_each (GetLinks mi) restore_link state) state.

Definition mark_link_initialized (li : LinkId) : Sim unit :=
  let* l := deref_link li in
  match l with
  | Link_Simbody _ => update_link li (set_l_physicsInitialized true)
  | Link_Other name =>
      gzerr ("failed to cast link [" +:+ name +:+ "] as simbody link" +:+ nl)
  end.

Definition mark_joint_initialized (ji : JointId) : Sim unit :=
  let* j := deref_joint ji in
  match j with
  | Joint_Simbody _ => update_joint ji (set_j_physicsInitialized true)
  | Joint_Other name =>
      gzerr ("simbodyJoint [" +:+ name +:+ "]is not a SimbodyJointPtr" +:+ nl)
  end.

(** What follows the two [try] blocks. *)
Definition finish_init (_model : Model) (stateTime : double)
    (simbodyStateSaved : bool) : Sim unit :=
  call realizeTopology ;;
  let state := realizeTopology_result B in
  let* state :=
    if simbodyStateSaved then restore_states stateTime state else ret state in
  (* initialize integrator from state *)
  call (integ_initialize state) ;;
  modify (set_integ_getState (initialize_result B state)) ;;
  for_each (GetLinks _model) mark_link_initialized ;;
  for_each (GetJoints _model) mark_joint_initialized ;;
  modify (set_simbodyPhysicsInitialized true).

(** [SimbodyPhysics::InitModel(_model)] *)
Definition InitModel (_model : Model) : Sim unit :=
  let* saved := save_states _model in
  let stateTime := fst saved in
  let simbodyStateSaved := snd saved in
  try_catch (build_system _model)
    (fun what => gzthrow ("Simbody build EXCEPTION: " +:+ what)) ;;
  try_catch InitSimbodySystem
    (fun what => gzthrow ("Simbody init EXCEPTION: " +:+ what)) ;;
  finish_init _model stateTime simbodyStateSaved.

End Methods.

End SimbodyPhysics.

(** ** A small world used to run the methods

    The scenario of the specification: link A is attached to the world by
    a revolute joint about (0,0,1) with limits [-1,1], link B to A by a
    prismatic joint along (1,0,0). A second model holds a screw joint with
    thread pitch 0, and a static model holds the ground plane. *)

Module Example.

Import SimTK physics SimbodyPhysics.

Definition zero3 : ign.Vector3d := ign.mkVector3d 0 0 0.
Definition unitq : ign.Quaterniond := ign.mkQuaterniond 1 0 0 0.
Definition origin : ign.Pose3d := ign.mkPose3d zero3 unitq.
Definition at_x (x : double) : ign.Pose3d :=
  ign.mkPose3d (ign.mkVector3d x 0 0) unitq.

Definition link (name : string) (pose : ign.Pose3d) (selfCollide : bool)
    (shapes : list Collision) : SimbodyLink :=
  {| l_GetName := name; GetMass := 1; mustBeBaseLink := false;
     GetSelfCollide := selfCollide; GetCollisions := shapes;
     l_GetRelativePose := pose; GetParentModel_WorldPose := origin;
     masterMobod := EmptyHandle; slaveMobods := []; slaveWelds := [];
     l_physicsInitialized := false |}.

Definition joint (name : string) (type : Z) (parent child : option LinkId)
    (axis : ign.Vector3d) (low high : double)
    (pitch : option (nat -> double)) : SimbodyJoint :=
  {| j_GetName := name; GetType := type;
     GetParent := parent; GetChild := child; mustBreakLoopHere := false;
     xPA := Pose2Transform (at_x 1); xCB := Pose2Transform (at_x 2);
     defxAB := Transform_Identity;
     GetAxisFrameOffset := fun _ => unitq;
     GetLocalAxis := fun _ => axis;
     GetLowerLimit := fun _ => ign.mkAngle low;
     GetUpperLimit := fun _ => ign.mkAngle high;
     GetStopStiffness := fun _ => 1.0e8%float;
     GetStopDissipation := fun _ => 1%float;
     GetDamping := fun _ => 0%float;
     GetStiffness := fun _ => 0%float;
     GetSpringReferencePosition := fun _ => 0%float;
     GetThreadPitch := pitch;
     mobod := EmptyHandle; isReversed := false;
     limitForce := [EmptyForce; EmptyForce];
     damper := [EmptyForce; EmptyForce];
     spring := [EmptyForce; EmptyForce];
     j_physicsInitialized := false |}.

Definition K := gazebo_constants.

Definition box : Collision := mkCollision origin (BoxShape (ign.mkVector3d 2 2 2)).
Definition ball : Collision := mkCollision origin (SphereShape 0.5).
Definition plane : Collision := mkCollision origin (PlaneShape (ign.mkVector3d 0 0 1)).

Definition hinge : SimbodyJoint :=
  joint "hinge" (HINGE_JOINT K) None (Some 1%nat) (ign.mkVector3d 0 0 1) (-1) 1 None.
Definition slider : SimbodyJoint :=
  joint "slider" (SLIDER_JOINT K) (Some 1%nat) (Some 2%nat) (ign.mkVector3d 1 0 0) (-1) 1 None.
Definition screw : SimbodyJoint :=
  joint "screw" (SCREW_JOINT K) None (Some 3%nat) (ign.mkVector3d 0 0 1) (-1) 1
        (Some (fun _ => 0%float)).
Definition cardan : SimbodyJoint :=
  joint "cardan" (UNIVERSAL_JOINT K) (Some 3%nat) (Some 6%nat)
        (ign.mkVector3d 0 1 0) (-1) 1 None.
(** a joint whose child link is missing *)
Definition orphan : SimbodyJoint :=
  joint "orphan" (HINGE_JOINT K) (Some 1%nat) None (ign.mkVector3d 0 0 1) (-1) 1 None.

Definition link_A := link "A" (at_x 1) false [box].
Definition link_B := link "B" (at_x 2) false [ball].
Definition link_C := link "C" (at_x 3) false [].
Definition link_ground := link "ground" origin false [plane].
(** a link of a dynamic model that carries a plane and a box *)
Definition link_float := link "float" (at_x 5) false [plane; box].
(** a link with self-collision enabled *)
Definition link_D := link "D" (at_x 6) true [ball].

Definition the_links : gmap LinkId Link :=
  <[1%nat := Link_Simbody link_A]>
  (<[2%nat := Link_Simbody link_B]>
  (<[3%nat := Link_Simbody link_C]>
  (<[4%nat := Link_Simbody link_ground]>
  (<[5%nat := Link_Simbody link_float]>
  (<[6%nat := Link_Simbody link_D]> ∅))))).

Definition the_joints : gmap JointId Joint :=
  <[1%nat := Joint_Simbody hinge]>
  (<[2%nat := Joint_Simbody slider]>
  (<[3%nat := Joint_Simbody screw]>
  (<[4%nat := Joint_Simbody orphan]>
  (<[5%nat := Joint_Simbody cardan]> ∅)))).

Definition arm : Model := mkModel 1%nat false [1%nat; 2%nat] [1%nat; 2%nat].
Definition arm_with_orphan : Model :=
  mkModel 1%nat false [1%nat; 2%nat] [1%nat; 4%nat; 2%nat].
Definition press : Model := mkModel 2%nat false [3%nat; 6%nat] [3%nat; 5%nat].
Definition ground_model : Model := mkModel 3%nat true [4%nat] [].

Definition mob_hinge : Mobilizer :=
  mkMobilizer "revolute" false None 1%nat 1%nat false (Some 1%nat) false.
Definition mob_slider : Mobilizer :=
  mkMobilizer "prismatic" false (Some 1%nat) 2%nat 1%nat false (Some 2%nat) false.
Definition mob_slider_reversed : Mobilizer :=
  mkMobilizer "prismatic" false (Some 1%nat) 2%nat 1%nat false (Some 2%nat) true.
Definition mob_screw : Mobilizer :=
  mkMobilizer "screw" false None 3%nat 1%nat false (Some 3%nat) false.
Definition mob_cardan : Mobilizer :=
  mkMobilizer "universal" false (Some 3%nat) 6%nat 1%nat false (Some 5%nat) true.

(** A stand-in for the graph algorithm: one tree mobilizer per joint
    received, in the order received, never reversed. *)
Definition joint_of_name (n : string) : option (JointId * LinkId * option LinkId) :=
  if String.eqb n "hinge" then Some (1%nat, 1%nat, None)
  else if String.eqb n "slider" then Some (2%nat, 2%nat, Some 1%nat)
  else if String.eqb n "screw" then Some (3%nat, 3%nat, None)
  else if String.eqb n "cardan" then Some (5%nat, 6%nat, Some 3%nat)
  else None.

Fixpoint tree_of (calls : list GraphCall) : list Mobilizer :=
  match calls with
  | [] => []
  | addJoint n t _ _ _ (Some j) :: rest =>
      match joint_of_name n with
      | Some (_, outb, inb) =>
          mkMobilizer t false inb outb 1%nat false (Some j) false :: tree_of rest
      | None => tree_of rest
      end
  | _ :: rest => tree_of rest
  end.

(** A solver that never throws. *)
Definition quiet : Backend :=
  {| throws := fun _ => None;
     generateGraph_result := tree_of;
     realizeTopology_result := mkState Topology 0 ∅;
     initialize_result := fun st => mkState Instance (getTime st) (getQU st) |}.

(** A solver whose graph generation throws. *)
Definition failing_graph : Backend :=
  {| throws := fun c =>
       match c with
       | graph_call generateGraph => Some "no base body"
       | _ => None
       end;
     generateGraph_result := tree_of;
     realizeTopology_result := mkState Topology 0 ∅;
     initialize_result := fun st => mkState Instance (getTime st) (getQU st) |}.

(** A solver whose gravity setter throws. *)
Definition failing_gravity : Backend :=
  {| throws := fun c =>
       match c with
       | setDefaultGravityVector _ => Some "bad gravity"
       | _ => None
       end;
     generateGraph_result := tree_of;
     realizeTopology_result := mkState Topology 0 ∅;
     initialize_result := fun st => mkState Instance (getTime st) (getQU st) |}.

Definition rubber : ContactMaterial := mkContactMaterial 1.0e8 1000 0.9 0.9 0.

(** Before any model has been initialised: the integrator's state is
    still empty. *)
Definition world0 : SimbodyPhysics :=
  {| links := the_links; joints := the_joints;
     world_GetModels := [ground_model; arm; press];
     trace := []; console := [];
     numMobods := 1%nat; numForces := 0%nat; numCliques := 0%nat;
     integ_getState := mkState Empty 0 ∅;
     GetGravity := ign.mkVector3d 0 0 (-9.8);
     contactMaterial := rubber;
     simbodyPhysicsInitialized := false;
     simbodyQU := ∅ |}.

(** The coordinates and speeds a running simulation holds: for the
    hinge and link A of the model [arm], for the screw and link C of the
    model [press]; and what the hinge captured at an earlier rebuild. *)
Definition moving : gmap StateOwner QU :=
  <[OfJoint 1 := mkQU [0.5%float] [0.1%float]]>
  (<[OfLink 1 := mkQU [1%float] [0%float]]>
  (<[OfJoint 3 := mkQU [0.25%float] [2%float]]>
  (<[OfLink 3 := mkQU [3%float] [0%float]]> ∅))).

Definition stale : gmap StateOwner QU :=
  <[OfJoint 1 := mkQU [0.125%float] [0%float]]> ∅.

(** A running simulation at time 2.5. *)
Definition running : SimbodyPhysics :=
  {| links := the_links; joints := the_joints;
     world_GetModels := [ground_model; arm; press];
     trace := []; console := [];
     numMobods := 1%nat; numForces := 0%nat; numCliques := 0%nat;
     integ_getState := mkState Instance 2.5 moving;
     GetGravity := ign.mkVector3d 0 0 (-9.8);
     contactMaterial := rubber;
     simbodyPhysicsInitialized := true;
     simbodyQU := stale |}.

End Example.

(** ** Statements about contact surfaces *)

Module Surfaces.

Import SimTK physics SimbodyPhysics.

(** The half-space that the plane branch of AddCollisionsToLink attaches
    to the Ground body "to represent the ground". *)
Definition is_ground_halfspace (b : MobilizedBody) (X : Transform)
    (surface : ContactSurface) : Prop :=
  b = Ground /\
  X = Transform_R (Rotation_AngleAxis (Pi / 2)%float YAxis) /\
  geometry surface = HalfSpace.

(** What holds of every call AddCollisionsToLink makes: it attaches a
    contact surface, which is either the ground half-space, in no clique,
    or a surface on [_mobod] that is in the model clique exactly when
    [addModelClique] holds (and in no other clique). *)
Definition surface_rule (_mobod : MobilizedBody) (_modelClique : ContactCliqueId)
    (addModelClique : bool) (c : Call) : Prop :=
  match c with
  | addContactSurface b X surface =>
      (is_ground_halfspace b X surface /\ cliques surface = [])
      \/ (b = _mobod /\
          cliques surface = if addModelClique then [_modelClique] else [])
  | _ => False
  end.

(** The call attaches a surface that is in no clique. *)
Definition in_no_clique (c : Call) : Prop :=
  match c with
  | addContactSurface _ _ surface => cliques surface = []
  | _ => False
  end.

End Surfaces.

(** ** Statements

    The predicates and spec-side functions in which the properties below
    are stated. *)

Module Statements.

Import SimTK physics SimbodyPhysics.

(** *** Relations between the state before and after a step *)

(** Whatever the outcome, the state a method leaves is related by [R] to
    the state it started from. *)
Definition respects (R : relation SimbodyPhysics) {A} (m : Sim A) : Prop :=
  forall s o s', m s = (o, s') -> R s s'.

(** The step appends calls that all satisfy [P]. *)
Definition emits (P : Call -> Prop) : relation SimbodyPhysics :=
  fun s s' => exists evs, trace s' = trace s ++ evs /\ Forall P evs.

(** The step keeps a member. *)
Definition keeps {X} (f : SimbodyPhysics -> X) : relation SimbodyPhysics :=
  fun s s' => f s' = f s.

Definition both (R1 R2 : relation SimbodyPhysics) : relation SimbodyPhysics :=
  fun s s' => R1 s s' /\ R2 s s'.

(** What a step leaves alone while it appends [evs] to the trace. *)
Definition appends (evs : list Call) (s s' : SimbodyPhysics) : Prop :=
  trace s' = trace s ++ evs /\
  links s' = links s /\
  numMobods s' = numMobods s /\
  console s' = console s.

(** *** Calls *)

Definition is_new_MobilizedBody (c : Call) : Prop :=
  match c with new_MobilizedBody _ => True | _ => False end.

Definition is_addContactSurface (c : Call) : Prop :=
  match c with addContactSurface _ _ _ => True | _ => False end.

(** The calls made while the system is built: everything but the state
    transfer, [realizeTopology] and the initialisation of the integrator. *)
Definition is_build_call (c : Call) : Prop :=
  match c with
  | createNewContactClique | new_MobilizedBody _ | setDefaultTransform _ _
  | setDefaultRotation _ _ | new_Force _ | addContactSurface _ _ _
  | new_Weld _ _ | setDefaultGravityVector _ | setDefaultMagnitude _ => True
  | _ => False
  end.

Definition building : relation SimbodyPhysics :=
  both (keeps world_GetModels) (both (keeps integ_getState) (emits is_build_call)).

Definition marking : relation SimbodyPhysics :=
  both (keeps trace) (keeps integ_getState).

(** The [new_Force] calls of a trace, in order. *)
Fixpoint forces_of (tr : list Call) : list ForceCtor :=
  match tr with
  | [] => []
  | new_Force f :: tr' => f :: forces_of tr'
  | _ :: tr' => forces_of tr'
  end.

(** *** Graph construction *)

(** The calls of steps 2 and 3: bodies and joints. *)
Definition is_body_or_joint (c : GraphCall) : Prop :=
  match c with
  | addBody _ _ _ _ | addJoint _ _ _ _ _ _ => True
  | _ => False
  end.

Definition adds_bodies_and_joints (g g' : MultibodyGraphMaker) : Prop :=
  exists extra, received g' = received g ++ extra /\ Forall is_body_or_joint extra.

(** The joint a call on the graph maker has been made for. *)
Definition joint_of (c : GraphCall) : option JointId :=
  match c with
  | addJoint _ _ _ _ _ ref => ref
  | _ => None
  end.

(** The graph maker has received further calls, all of which satisfy [Q]. *)
Definition received_grows (Q : GraphCall -> Prop)
    (g g' : MultibodyGraphMaker) : Prop :=
  exists extra, received g' = received g ++ extra /\ Forall Q extra.

(** The method neither reads the console nor removes from it: started
    with another console, it does the same and appends the same lines. *)
Definition console_blind {A} (m : Sim A) : Prop :=
  forall s o s', m s = (o, s') ->
    exists added,
      console s' = console s ++ added /\
      forall c, m (set_console c s) = (o, set_console (c ++ added) s').

(** Two runs with the same outcome, whose final states differ at most by
    the line [line] on the console of the first; they are the same only
    when the runs have thrown. *)
Definition skipping (line : LogMsg) {A}
    (r r' : Outcome A * SimbodyPhysics) : Prop :=
  fst r = fst r' /\
  exists before after,
    console (snd r') = before ++ after /\
    (snd r = set_console (before ++ line :: after) (snd r') \/
     snd r = snd r' /\ exists e, fst r = Throw e).

(** The joint has a child link in the store [js]. *)
Definition with_child (js : gmap JointId Joint) (c : GraphCall) : Prop :=
  forall jx, joint_of c = Some jx ->
    exists jc child, js !! jx = Some (Joint_Simbody jc) /\ GetChild jc = Some child.

(** *** Mobilizer synthesis *)

Definition implemented_types : list string :=
  ["free"; "screw"; "universal"; "revolute"; "prismatic"; "ball"].

(** The axes of a joint type that carry a stop, a damper and a spring. *)
Definition controllable_axes (type : string) : list nat :=
  if String.eqb type "universal" then [0%nat; 1%nat]
  else if String.eqb type "screw" then [0%nat]
  else if String.eqb type "revolute" then [0%nat]
  else if String.eqb type "prismatic" then [0%nat]
  else [].

(** The rotation that aligns the joint axis (or axes) with the mobility
    axes of the Simbody mobilizer of each type. *)
Definition axis_alignment (K : Constants) (type : string) (gzJoint : SimbodyJoint)
    : option Rotation :=
  if String.eqb type "screw" then Some (Rotation_Axis (joint_axis gzJoint 0) ZAxis)
  else if String.eqb type "universal" then
    Some (Rotation_TwoAxes (joint_axis gzJoint (AXIS_PARENT K)) XAxis
                           (joint_axis gzJoint (AXIS_CHILD K)) YAxis)
  else if String.eqb type "revolute" then
    Some (Rotation_Axis (joint_axis gzJoint 0) ZAxis)
  else if String.eqb type "prismatic" then
    Some (Rotation_Axis (joint_axis gzJoint 0) XAxis)
  else None.

(** The frames of a mobilizer, written out. A frame turned by a
    rotation keeps its origin and has its rotation multiplied by it on
    the right; the axis [i] of a joint is its local axis rotated by the
    offset of the axis frame; [frame_alignment] is the rotation by which
    both frames of a single-axis or universal mobilizer are turned. *)
Definition turned (X : Transform) (R : Rotation) : Transform :=
  Transform_Rp (Rotation_Mul (R_of X) R) (p_of X).

Definition axis_in_frame (gzJoint : SimbodyJoint) (i : nat) : Direction3 :=
  UnitVec3_Rotated (GetAxisFrameOffset gzJoint 0) (GetLocalAxis gzJoint i).

Definition frame_alignment (K : Constants) (type : string) (gzJoint : SimbodyJoint)
    : option Rotation :=
  if String.eqb type "screw" then
    Some (Rotation_Axis (axis_in_frame gzJoint 0) ZAxis)
  else if String.eqb type "universal" then
    Some (Rotation_TwoAxes (axis_in_frame gzJoint (AXIS_PARENT K)) XAxis
                           (axis_in_frame gzJoint (AXIS_CHILD K)) YAxis)
  else if String.eqb type "revolute" then
    Some (Rotation_Axis (axis_in_frame gzJoint 0) ZAxis)
  else if String.eqb type "prismatic" then
    Some (Rotation_Axis (axis_in_frame gzJoint 0) XAxis)
  else None.

(** The three force elements of axis [nj], as the remaining claims state
    them. *)
Definition axis_forces (gzJoint : SimbodyJoint) (mobod : MobilizedBody) (nj : nat)
    : list ForceCtor :=
  [ MobilityLinearStop mobod nj (GetStopStiffness gzJoint nj)
      (GetStopDissipation gzJoint nj)
      (ign.Radian (GetLowerLimit gzJoint nj))
      (ign.Radian (GetUpperLimit gzJoint nj));
    MobilityLinearDamper mobod nj (GetDamping gzJoint nj);
    MobilityLinearSpring mobod nj (GetStiffness gzJoint nj)
      (GetSpringReferencePosition gzJoint nj) ].

(** *** State transfer *)

(** The state transfer as the specification words it: before the
    rebuild, the state of every joint and every link of every model
    other than the one being built is captured from the current state;
    after it, the state of every joint and link of every model is
    restored. *)
Definition captured (currentState : State) (_model : Model) (models : list Model)
    : list Call :=
  flat_map
    (fun mi =>
       if Nat.eqb (model_id mi) (model_id _model) then []
       else map (fun jx => SaveSimbodyState (OfJoint jx) currentState) (GetJoints mi)
            ++ map (fun lx => SaveSimbodyState (OfLink lx) currentState) (GetLinks mi))
    models.

(** The joints and links of a model, of all models, and of the models
    other than the one being built, in the order of the loops. *)
Definition owners_of (mi : Model) : list StateOwner :=
  map OfJoint (GetJoints mi) ++ map OfLink (GetLinks mi).

Definition all_owners (models : list Model) : list StateOwner :=
  flat_map owners_of models.

Definition other_owners (_model : Model) (models : list Model)
    : list StateOwner :=
  flat_map
    (fun mi =>
       if Nat.eqb (model_id mi) (model_id _model) then [] else owners_of mi)
    models.

(** What the joints and links hold once those of [owners] have captured
    from [currentState]. *)
Definition captured_members (currentState : State) (owners : list StateOwner)
    (members : gmap StateOwner QU) : gmap StateOwner QU :=
  fold_left (fun m o => SaveSimbodyState_members o currentState m) owners members.

(** The restore calls for [owners], each on the state its predecessors
    have left, and the state the last one leaves. *)
Fixpoint restored (members : gmap StateOwner QU) (owners : list StateOwner)
    (state : State) : list Call :=
  match owners with
  | [] => []
  | o :: owners =>
      RestoreSimbodyState o state
      :: restored members owners (RestoreSimbodyState_state o members state)
  end.

Definition restored_state (members : gmap StateOwner QU)
    (owners : list StateOwner) (state : State) : State :=
  fold_left (fun st o => RestoreSimbodyState_state o members st) owners state.

(** The state [s'] is [s] after the joints and links of [owners] have
    captured from [currentState], in that order. *)
Definition captures (currentState : State) (owners : list StateOwner)
    : relation SimbodyPhysics :=
  fun s s' =>
    trace s' = trace s ++ map (fun o => SaveSimbodyState o currentState) owners /\
    simbodyQU s' = captured_members currentState owners (simbodyQU s) /\
    world_GetModels s' = world_GetModels s /\
    integ_getState s' = integ_getState s.

End Statements.

(** ** Statements about the bookkeeping of the construction *)

Module Bookkeeping.

Import SimTK physics SimbodyPhysics.

(** The bodies constructed by a sequence of calls, in order. *)
Fixpoint bodies_of (tr : list Call) : list MobilizedBodyCtor :=
  match tr with
  | [] => []
  | new_MobilizedBody c :: rest => c :: bodies_of rest
  | _ :: rest => bodies_of rest
  end.

(** The handle a step of the loop ends with: that of the body it
    constructed, counted from [n], or the empty one. *)
Definition handle_after (n : nat) (new : list Call) : MobilizedBody :=
  match bodies_of new with
  | [] => EmptyHandle
  | _ :: _ => Mobod n
  end.

(** The mobilizers for which the loop body constructs a body: a base
    mobilizer of type free, and a mobilizer of an input joint of an
    implemented type. *)
Definition builds_body (mob : Mobilizer) : bool :=
  if isAddedBaseMobilizer mob then String.eqb (getJointTypeName mob) "free"
  else existsb (String.eqb (getJointTypeName mob)) Statements.implemented_types.

(** The call attaches a contact surface to one of [bodies]. *)
Definition attaches_to (bodies : list MobilizedBody) (c : Call) : Prop :=
  match c with
  | addContactSurface b _ _ => In b bodies
  | _ => False
  end.

(** The call is not the creation of a clique, and a surface it attaches
    is in no clique other than [clique]. *)
Definition within_clique (clique : ContactCliqueId) (c : Call) : Prop :=
  match c with
  | createNewContactClique => False
  | addContactSurface _ _ surface =>
      cliques surface = [] \/ cliques surface = [clique]
  | _ => True
  end.

(** The call constructs nothing that moves: no body, no force element,
    no constraint, no clique. *)
Definition constructs_nothing (c : Call) : Prop :=
  match c with
  | new_MobilizedBody _ | new_Force _ | new_Weld _ _
  | createNewContactClique => False
  | _ => True
  end.

(** Two solvers that differ in nothing but the graph maker: a call that
    is not made on a graph maker throws in the one exactly when it
    throws in the other, with the same message, and realizeTopology and
    the integrator give the same states. What a call on a graph maker
    does, and what generateGraph computes, is left open. *)
Definition same_but_graph_maker (B B' : Backend) : Prop :=
  (forall c, match c with
             | graph_call _ => True
             | _ => throws B' c = throws B c
             end) /\
  realizeTopology_result B' = realizeTopology_result B /\
  (forall st, initialize_result B' st = initialize_result B st).

(** Two methods with the same runs. *)
Definition agree {A} (m m' : Sim A) : Prop := forall s, m s = m' s.

(** The console only grows. *)
Definition console_grows : relation SimbodyPhysics :=
  fun s s' => exists msgs, console s' = console s ++ msgs.

(** The master and slave bodies recorded on the links do not change. *)
Definition mobods_of (l : Link) : option (MobilizedBody * list MobilizedBody) :=
  match l with
  | Link_Simbody l => Some (masterMobod l, slaveMobods l)
  | Link_Other _ => None
  end.

Definition keeps_mobods : relation SimbodyPhysics :=
  fun s s' => forall li, mobods_of <$> links s' !! li = mobods_of <$> links s !! li.

(** More mobilizers for the examples: one of a type the builder does not
    implement, a base mobilizer added by the graph maker, and a slave
    mobilizer that closes a loop on link 2. *)
Definition mob_hinge2 : Mobilizer :=
  mkMobilizer "revolute2" false None 1%nat 1%nat false (Some 1%nat) true.
Definition mob_slave : Mobilizer :=
  mkMobilizer "revolute" true (Some 1%nat) 2%nat 2%nat false (Some 1%nat) false.

(** A link as AddStaticModelToSimbodySystem leaves it: a Simbody link is
    recorded on the Ground body, any other link is not touched. *)
Definition on_ground (l : Link) : Link :=
  match l with
  | Link_Simbody l => Link_Simbody (set_masterMobod Ground l)
  | Link_Other name => Link_Other name
  end.

(** A link and a joint as InitModel leaves those of its model. *)
Definition link_initialized (l : Link) : Link :=
  match l with
  | Link_Simbody l => Link_Simbody (set_l_physicsInitialized true l)
  | Link_Other name => Link_Other name
  end.

Definition joint_initialized (j : Joint) : Joint :=
  match j with
  | Joint_Simbody j => Joint_Simbody (set_j_physicsInitialized true j)
  | Joint_Other name => Joint_Other name
  end.

(** The call is the attachment of a surface to Ground, in no clique. *)
Definition static_surface (c : Call) : Prop :=
  match c with
  | addContactSurface b _ surface => b = Ground /\ cliques surface = []
  | _ => False
  end.

(** A world in which link 6, of the model [press], already has a master
    body and a slave body. *)
Definition world_with_slave : SimbodyPhysics :=
  set_links
    (<[6%nat :=
         Link_Simbody
           (set_slaveMobods [Mobod 9]
              (set_masterMobod (Mobod 5) Example.link_D))]> Example.the_links)
    Example.world0.

(** A world with a link that is not a Simbody link, and a model of it. *)
Definition world_with_foreign : SimbodyPhysics :=
  set_links (<[7%nat := Link_Other "foreign"]> Example.the_links) Example.world0.

Definition scenery : Model := mkModel 4%nat true [4%nat; 7%nat; 4%nat] [].

End Bookkeeping.

(** * Reading the stops of the Bullet slider joint *)

Module BulletStops.

Import Bullet.

(** [BulletSliderJoint::GetHighStop(unsigned int)]: the result is a
    default-constructed angle (zero) unless the native constraint
    exists. *)
Definition GetHighStop (_index : nat) (this : BulletSliderJoint)
    : ign.Angle * BulletSliderJoint :=
  let result := ign.mkAngle 0%float in
  match bulletSlider this with
  | Some slider => (ign.mkAngle (upperLinLimit slider), this)
  | None =>
      (result,
       gzerr ("Joint must be created before getting high stop"
              +:+ nl) this)
  end.

(** [BulletSliderJoint::GetLowStop(unsigned int)] *)
Definition GetLowStop (_index : nat) (this : BulletSliderJoint)
    : ign.Angle * BulletSliderJoint :=
  let result := ign.mkAngle 0%float in
  match bulletSlider this with
  | Some slider => (ign.mkAngle (lowerLinLimit slider), this)
  | None =>
      (result,
       gzerr ("Joint must be created before getting low stop"
              +:+ nl) this)
  end.

End BulletStops.

(** * Engine parameters *)

Module Params.

Import SimTK physics SimbodyPhysics.

(** What a [boost::any] holds: the value together with its static
    type. *)
Inductive boost_any :=
  | any_empty
  | any_int (v : Z)
  | any_float (v : double)
  | any_double (v : double)
  | any_string (v : string)
  | any_cstring (v : string)
  | any_other (type_name : string).

(** [boost::any_cast<int>] and [boost::any_cast<double>]: they succeed
    only when the held type is exactly the requested one. *)
Definition any_cast_int (a : boost_any) : option Z :=
  match a with any_int v => Some v | _ => None end.

Definition any_cast_double (a : boost_any) : option double :=
  match a with any_double v => Some v | _ => None end.

Definition gzwarn := log gzwarn_level.

(** The members and solver objects [GetParam] reads. *)
Record ParamSources := mkParamSources {
  integratorType : string;
  (** [integ->getAccuracyInUse()], [None] while [integ] is NULL *)
  integ_getAccuracyInUse : option double;
  contact_getTransitionVelocity : double
}.

Section Formatting.

(** The text of [boost::bad_any_cast::what()] and the stream format of a
    double come from the libraries. *)
Context (bad_any_cast_what : string) (show_double : double -> string).

(** [SimbodyPhysics::GetParam(const std::string &)], for a key other
    than [type]. *)
Definition GetParam_key (src : ParamSources) (_key : string) : Sim boost_any :=
  if String.eqb _key "solver_type" then
    ret (any_cstring "Spatial Algebra and Elastic Foundation")
  else if String.eqb _key "integrator_type" then
    ret (any_string (integratorType src))
  else if String.eqb _key "accuracy" then
    match integ_getAccuracyInUse src with
    | Some a => ret (any_double a)
    | None => ret (any_float 0%float)
    end
  else if String.eqb _key "max_transient_velocity" then
    ret (any_double (contact_getTransitionVelocity src))
  else
    gzwarn ("key [" +:+ _key +:+ "] not supported, returning (int)0." +:+ nl) ;;
    ret (any_int 0).

(** [SimbodyPhysics::GetParam(const std::string &)] *)
Definition GetParam (src : ParamSources) (_key : string) : Sim boost_any :=
  if String.eqb _key "type" then
    gzwarn ("Please use keyword `solver_typ` in the future." +:+ nl) ;;
    GetParam_key src "solver_type"
  else GetParam_key src _key.

Definition not_yet_supported (_key value : string) : Sim bool :=
  gzerr ("Setting [" +:+ _key +:+ "] in Simbody to [" +:+ value
         +:+ "] not yet supported." +:+ nl) ;;
  ret false.

Definition cast_failed : Sim bool :=
  gzerr ("boost any_cast error:" +:+ bad_any_cast_what +:+ nl) ;;
  ret false.

(** [SimbodyPhysics::SetParam(const std::string &, const boost::any &)] *)
Definition SetParam (_key : string) (_value : boost_any) : Sim bool :=
  if String.eqb _key "accuracy" then
    match any_cast_int _value with
    | None => cast_failed
    | Some value => not_yet_supported _key (pretty value)
    end
  else if String.eqb _key "max_transient_velocity" then
    match any_cast_double _value with
    | None => cast_failed
    | Some value => not_yet_supported _key (show_double value)
    end
  else if String.eqb _key "max_step_size" then
    match any_cast_double _value with
    | None => cast_failed
    | Some value => not_yet_supported _key (show_double value)
    end
  else
    gzwarn (_key +:+ " is not supported in Simbody" +:+ nl) ;;
    ret false.

End Formatting.

End Params.

(** * Factories *)

Module Creation.

Import SimTK physics SimbodyPhysics.

(** The class of the shape object [CreateShape] constructs; a ray shape
    is constructed on the collision or, without one, on the engine. *)
Inductive ShapeClass :=
  | SimbodyPlaneShape
  | SimbodySphereShape
  | SimbodyBoxShape
  | SimbodyCylinderShape
  | SimbodyMeshShape
  | SimbodyHeightmapShape
  | SimbodyMultiRayShape
  | SimbodyRayShape (on_collision : bool).

(** A freshly constructed [SimbodyCollision]: its parent link and its
    shape pointer, [None] for NULL. *)
Record SimbodyCollision := mkSimbodyCollision {
  col_parent : option LinkId;
  col_shape : option ShapeClass
}.

(** The class of the joint object [CreateJoint] constructs. *)
Inductive JointClass :=
  | SimbodyHingeJoint
  | SimbodyUniversalJoint
  | SimbodyBallJoint
  | SimbodySliderJoint
  | SimbodyHinge2Joint
  | SimbodyScrewJoint.

(** [SimbodyPhysics::CreateShape(_type, _collision)]: the result is the
    shape pointer, NULL when the type is not known. *)
Definition CreateShape (_type : string) (_collision : option SimbodyCollision)
    : Sim (option ShapeClass) :=
  if String.eqb _type "plane" then ret (Some SimbodyPlaneShape)
  else if String.eqb _type "sphere" then ret (Some SimbodySphereShape)
  else if String.eqb _type "box" then ret (Some SimbodyBoxShape)
  else if String.eqb _type "cylinder" then ret (Some SimbodyCylinderShape)
  else if String.eqb _type "mesh" || String.eqb _type "trimesh" then
    ret (Some SimbodyMeshShape)
  else if String.eqb _type "heightmap" then ret (Some SimbodyHeightmapShape)
  else if String.eqb _type "multiray" then ret (Some SimbodyMultiRayShape)
  else if String.eqb _type "ray" then
    match _collision with
    | Some _ => ret (Some (SimbodyRayShape true))
    | None => ret (Some (SimbodyRayShape false))
    end
  else
    gzerr ("Unable to create collision of type[" +:+ _type +:+ "]" +:+ nl) ;;
    ret None.

(** [SimbodyPhysics::CreateCollision(_type, _parent)]: the shape pointer
    and the parent pointer are dereferenced without a check in
    [shape->SetWorld(_parent->GetWorld())]. *)
Definition CreateCollision (_type : string) (_parent : option LinkId)
    : Sim SimbodyCollision :=
  let collision := mkSimbodyCollision _parent None in
  let* shape := CreateShape _type (Some collision) in
  let collision := mkSimbodyCollision (col_parent collision) shape in
  match shape, _parent with
  | Some _, Some _ => ret collision
  | _, _ => throw (undefined_behaviour "null pointer in shape->SetWorld")
  end.

(** [SimbodyPhysics::CreateJoint(_type, _parent)] *)
Definition CreateJoint (_type : string) : Sim JointClass :=
  if String.eqb _type "revolute" then ret SimbodyHingeJoint
  else if String.eqb _type "universal" then ret SimbodyUniversalJoint
  else if String.eqb _type "ball" then ret SimbodyBallJoint
  else if String.eqb _type "prismatic" then ret SimbodySliderJoint
  else if String.eqb _type "revolute2" then ret SimbodyHinge2Joint
  else if String.eqb _type "screw" then ret SimbodyScrewJoint
  else gzthrow ("Unable to create joint of type[" +:+ _type +:+ "]").

(** The shape type names [CreateShape] knows. *)
Definition shape_types : list string :=
  ["plane"; "sphere"; "box"; "cylinder"; "mesh"; "trimesh"; "heightmap";
   "multiray"; "ray"].

End Creation.

(** * Loading the engine *)

Module Loading.

Import SimTK.

(** The contact members of the engine. *)
Record ContactMembers := mkContactMembers {
  contactMaterialStiffness : double;
  contactMaterialDissipation : double;
  contactMaterialPlasticCoefRestitution : double;
  contactMaterialPlasticImpactVelocity : double;
  contactMaterialStaticFriction : double;
  contactMaterialDynamicFriction : double;
  contactMaterialViscousFriction : double;
  contactImpactCaptureVelocity : double;
  contactStictionTransitionVelocity : double
}.

Inductive Integrator :=
  | RungeKuttaMersonIntegrator
  | RungeKutta3Integrator
  | RungeKutta2Integrator
  | SemiExplicitEuler2Integrator.

(** The calls [Load] makes on the base class, the integrator and the
    contact subsystem. *)
Inductive LoadCall :=
  | PhysicsEngine_Load
  | integ_setAccuracy (accuracy : double)
  | contact_setTransitionVelocity (v : double).

(** The part of the engine that [Load] writes. *)
Record Engine := mkEngine {
  members : ContactMembers;
  solverType : string;
  integratorType : string;
  integ : option Integrator;
  stepTimeDouble : double;
  calls : list LoadCall;
  errors : list LogMsg
}.

(** The engine as the constructor leaves it. *)
Definition constructed : Engine :=
  {| members := mkContactMembers 0 0 0 0 0 0 0 0 0;
     solverType := ""; integratorType := ""; integ := None;
     stepTimeDouble := 0; calls := []; errors := [] |}.

Definition call (c : LoadCall) (e : Engine) : Engine :=
  {| members := members e; solverType := solverType e;
     integratorType := integratorType e; integ := integ e;
     stepTimeDouble := stepTimeDouble e; calls := calls e ++ [c];
     errors := errors e |}.

Definition gzerr (msg : string) (e : Engine) : Engine :=
  {| members := members e; solverType := solverType e;
     integratorType := integratorType e; integ := integ e;
     stepTimeDouble := stepTimeDouble e; calls := calls e;
     errors := errors e ++ [mkLog gzerr_level msg] |}.

Definition set_solverType (v : string) (e : Engine) : Engine :=
  {| members := members e; solverType := v;
     integratorType := integratorType e; integ := integ e;
     stepTimeDouble := stepTimeDouble e; calls := calls e;
     errors := errors e |}.

Definition set_integratorType (v : string) (e : Engine) : Engine :=
  {| members := members e; solverType := solverType e;
     integratorType := v; integ := integ e;
     stepTimeDouble := stepTimeDouble e; calls := calls e;
     errors := errors e |}.

Definition set_integ (v : Integrator) (e : Engine) : Engine :=
  {| members := members e; solverType := solverType e;
     integratorType := integratorType e; integ := Some v;
     stepTimeDouble := stepTimeDouble e; calls := calls e;
     errors := errors e |}.

Definition set_stepTimeDouble (v : double) (e : Engine) : Engine :=
  {| members := members e; solverType := solverType e;
     integratorType := integratorType e; integ := integ e;
     stepTimeDouble := v; calls := calls e;
     errors := errors e |}.

Definition set_members (f : ContactMembers -> ContactMembers) (e : Engine)
    : Engine :=
  {| members := f (members e); solverType := solverType e;
     integratorType := integratorType e; integ := integ e;
     stepTimeDouble := stepTimeDouble e; calls := calls e;
     errors := errors e |}.

Definition set_Stiffness (v : double) (m : ContactMembers) :=
  mkContactMembers v (contactMaterialDissipation m)
    (contactMaterialPlasticCoefRestitution m)
    (contactMaterialPlasticImpactVelocity m)
    (contactMaterialStaticFriction m) (contactMaterialDynamicFriction m)
    (contactMaterialViscousFriction m) (contactImpactCaptureVelocity m)
    (contactStictionTransitionVelocity m).

Definition set_Dissipation (v : double) (m : ContactMembers) :=
  mkContactMembers (contactMaterialStiffness m) v
    (contactMaterialPlasticCoefRestitution m)
    (contactMaterialPlasticImpactVelocity m)
    (contactMaterialStaticFriction m) (contactMaterialDynamicFriction m)
    (contactMaterialViscousFriction m) (contactImpactCaptureVelocity m)
    (contactStictionTransitionVelocity m).

Definition set_PlasticCoefRestitution (v : double) (m : ContactMembers) :=
  mkContactMembers (contactMaterialStiffness m) (contactMaterialDissipation m)
    v (contactMaterialPlasticImpactVelocity m)
    (contactMaterialStaticFriction m) (contactMaterialDynamicFriction m)
    (contactMaterialViscousFriction m) (contactImpactCaptureVelocity m)
    (contactStictionTransitionVelocity m).

Definition set_PlasticImpactVelocity (v : double) (m : ContactMembers) :=
  mkContactMembers (contactMaterialStiffness m) (contactMaterialDissipation m)
    (contactMaterialPlasticCoefRestitution m) v
    (contactMaterialStaticFriction m) (contactMaterialDynamicFriction m)
    (contactMaterialViscousFriction m) (contactImpactCaptureVelocity m)
    (contactStictionTransitionVelocity m).

Definition set_StaticFriction (v : double) (m : ContactMembers) :=
  mkContactMembers (contactMaterialStiffness m) (contactMaterialDissipation m)
    (contactMaterialPlasticCoefRestitution m)
    (contactMaterialPlasticImpactVelocity m)
    v (contactMaterialDynamicFriction m)
    (contactMaterialViscousFriction m) (contactImpactCaptureVelocity m)
    (contactStictionTransitionVelocity m).

Definition set_DynamicFriction (v : double) (m : ContactMembers) :=
  mkContactMembers (contactMaterialStiffness m) (contactMaterialDissipation m)
    (contactMaterialPlasticCoefRestitution m)
    (contactMaterialPlasticImpactVelocity m)
    (contactMaterialStaticFriction m) v
    (contactMaterialViscousFriction m) (contactImpactCaptureVelocity m)
    (contactStictionTransitionVelocity m).

Definition set_ViscousFriction (v : double) (m : ContactMembers) :=
  mkContactMembers (contactMaterialStiffness m) (contactMaterialDissipation m)
    (contactMaterialPlasticCoefRestitution m)
    (contactMaterialPlasticImpactVelocity m)
    (contactMaterialStaticFriction m) (contactMaterialDynamicFriction m)
    v (contactImpactCaptureVelocity m)
    (contactStictionTransitionVelocity m).

Definition set_ImpactCaptureVelocity (v : double) (m : ContactMembers) :=
  mkContactMembers (contactMaterialStiffness m) (contactMaterialDissipation m)
    (contactMaterialPlasticCoefRestitution m)
    (contactMaterialPlasticImpactVelocity m)
    (contactMaterialStaticFriction m) (contactMaterialDynamicFriction m)
    (contactMaterialViscousFriction m) v
    (contactStictionTransitionVelocity m).

(** [SimbodyPhysics::Load(_sdf)]. [GetMaxStepSize] is the value of the
    base class getter after [PhysicsEngine::Load]; [simbodyElem] and
    [simbodyContactElem] read a double from the [simbody] element and
    from its [contact] element. *)
Definition Load (GetMaxStepSize : double)
    (simbodyElem simbodyContactElem : string -> double) (this : Engine)
    : Engine :=
  let this := call PhysicsEngine_Load this in
  let this := set_solverType "elastic_foundation" this in
  let this := set_integratorType "semi_explicit_euler" this in
  let this :=
    if String.eqb (integratorType this) "rk_merson" then
      set_integ RungeKuttaMersonIntegrator this
    else if String.eqb (integratorType this) "rk3" then
      set_integ RungeKutta3Integrator this
    else if String.eqb (integratorType this) "rk2" then
      set_integ RungeKutta2Integrator this
    else if String.eqb (integratorType this) "semi_explicit_euler" then
      set_integ SemiExplicitEuler2Integrator this
    else
      set_integ SemiExplicitEuler2Integrator
        (gzerr ("type not specified, using SemiExplicitEuler2Integrator."
                +:+ SimbodyPhysics.nl) this) in
  let this := set_stepTimeDouble GetMaxStepSize this in
  let this := call (integ_setAccuracy (simbodyElem "accuracy")) this in
  let this :=
    call (contact_setTransitionVelocity (simbodyElem "max_transient_velocity"))
         this in
  (* system wide contact properties, assigned in AddCollisionsToLink() *)
  let this := set_members (set_Stiffness (simbodyContactElem "stiffness")) this in
  let this :=
    set_members (set_Dissipation (simbodyContactElem "dissipation")) this in
  let this :=
    set_members (set_StaticFriction (simbodyContactElem "static_friction")) this in
  let this :=
    set_members (set_DynamicFriction (simbodyContactElem "dynamic_friction"))
                this in
  let this :=
    set_members (set_ViscousFriction (simbodyContactElem "viscous_friction"))
                this in
  (* below are not used yet, but should work it into the system *)
  let this :=
    set_members
      (set_ViscousFriction (simbodyContactElem "plastic_coef_restitution")) this in
  let this :=
    set_members
      (set_PlasticCoefRestitution (simbodyContactElem "plastic_impact_velocity"))
      this in
  let this :=
    set_members
      (set_PlasticImpactVelocity
         (simbodyContactElem "override_impact_capture_velocity")) this in
  set_members
    (set_ImpactCaptureVelocity
       (simbodyContactElem "override_stiction_transition_velocity")) this.

(** The material AddCollisionsToLink constructs from the members. *)
Definition material_of (m : ContactMembers) : ContactMaterial :=
  mkContactMaterial (contactMaterialStiffness m) (contactMaterialDissipation m)
    (contactMaterialStaticFriction m) (contactMaterialDynamicFriction m)
    (contactMaterialViscousFriction m).

(** Two sdf contact elements for the examples: they differ in
    [viscous_friction] only. *)
Definition contact_sdf (viscous : double) (key : string) : double :=
  if String.eqb key "viscous_friction" then viscous
  else if String.eqb key "plastic_coef_restitution" then 0.5%float
  else if String.eqb key "stiffness" then 1.0e8%float
  else 1%float.

End Loading.

(** * Stepping the simulation *)

Module Stepping.

Import SimTK physics SimbodyPhysics.

(** The calls UpdatePhysics makes on the integrator, the bodies, the
    links and the joints. *)
Inductive StepCall :=
  | integ_stepTo (reportTime scheduledEventTime : double)
  | getBodyTransform (b : MobilizedBody) (s : State)
  | SetDirtyPose (l : LinkId) (of_body : MobilizedBody)
  | CacheForceTorque (j : JointId)
  | clearAllForces.

(** What a call of [stepTo] does: it returns, or it throws a
    [std::exception]; either way the integrator is left in some state,
    the one [integ->getState()] gives afterwards. *)
Inductive StepOutcome :=
  | stepTo_returns (state : State)
  | stepTo_throws (what : string) (state : State).

(** The integrator: the outcome of [stepTo] from a state, towards a
    time. *)
Record Stepper := mkStepper {
  stepTo_result : State -> double -> StepOutcome
}.

(** The engine together with what UpdatePhysics reads and writes around
    it: [world->GetSimTime().Double()], the calls made,
    [world->dirtyPoses] and [simbodyPhysicsStepped]. *)
Record World := mkWorld {
  engine : SimbodyPhysics;
  GetSimTime : double;
  step_calls : list StepCall;
  dirtyPoses : list LinkId;
  simbodyPhysicsStepped : bool
}.

Inductive Run :=
  | Done (w : World)
  | Undefined (why : string)
  | Unfinished.

Definition with_engine (f : SimbodyPhysics -> SimbodyPhysics) (w : World) : World :=
  {| engine := f (engine w); GetSimTime := GetSimTime w;
     step_calls := step_calls w; dirtyPoses := dirtyPoses w;
     simbodyPhysicsStepped := simbodyPhysicsStepped w |}.

Definition called (cs : list StepCall) (w : World) : World :=
  {| engine := engine w; GetSimTime := GetSimTime w;
     step_calls := step_calls w ++ cs; dirtyPoses := dirtyPoses w;
     simbodyPhysicsStepped := simbodyPhysicsStepped w |}.

Definition push_dirtyPose (l : LinkId) (w : World) : World :=
  {| engine := engine w; GetSimTime := GetSimTime w;
     step_calls := step_calls w; dirtyPoses := dirtyPoses w ++ [l];
     simbodyPhysicsStepped := simbodyPhysicsStepped w |}.

Definition set_simbodyPhysicsStepped (v : bool) (w : World) : World :=
  {| engine := engine w; GetSimTime := GetSimTime w;
     step_calls := step_calls w; dirtyPoses := dirtyPoses w;
     simbodyPhysicsStepped := v |}.

Definition stepTo_failed (what : string) : LogMsg :=
  mkLog gzerr_level
    ("simbody stepTo() failed with message:" +:+ nl +:+ what +:+ nl
     +:+ "Will stop trying now." +:+ nl).

Section Update.

Context (I : Stepper).

(** The [while (trying && integ->getTime() < simTime)] loop; [fuel]
    bounds the number of iterations. *)
Fixpoint step_loop (fuel : nat) (w : World) : Run :=
  if PrimFloat.ltb (getTime (integ_getState (engine w))) (GetSimTime w) then
    match fuel with
    | O => Unfinished
    | S fuel =>
        let w := called [integ_stepTo (GetSimTime w) (GetSimTime w)] w in
        match stepTo_result I (integ_getState (engine w)) (GetSimTime w) with
        | stepTo_throws what state =>
            (* trying = false *)
            Done (with_engine
                    (fun s => set_console (console s ++ [stepTo_failed what]) s)
                    (with_engine (set_integ_getState state) w))
        | stepTo_returns state =>
            step_loop fuel (with_engine (set_integ_getState state) w)
        end
    end
  else Done w.

(** Pushing the pose of the links of one model, read from the state
    [s] of the integrator, on the result of an unchecked cast. *)
Fixpoint push_links (ls : list LinkId) (w : World) : Run :=
  match ls with
  | [] => Done w
  | lx :: ls =>
      match links (engine w) !! lx with
      | Some (Link_Simbody simbodyLink) =>
          let s := integ_getState (engine w) in
          push_links ls
            (push_dirtyPose lx
               (called [getBodyTransform (masterMobod simbodyLink) s;
                        SetDirtyPose lx (masterMobod simbodyLink)] w))
      | _ => Undefined "not a SimbodyLink"
      end
  end.

Fixpoint cache_joints (js : list JointId) (w : World) : Run :=
  match js with
  | [] => Done w
  | jx :: js =>
      match joints (engine w) !! jx with
      | Some (Joint_Simbody _) => cache_joints js (called [CacheForceTorque jx] w)
      | _ => Undefined "not a SimbodyJoint"
      end
  end.

Fixpoint push_models (ms : list Model) (w : World) : Run :=
  match ms with
  | [] => Done w
  | mi :: ms =>
      match push_links (GetLinks mi) w with
      | Done w =>
          match cache_joints (GetJoints mi) w with
          | Done w => push_models ms w
          | r => r
          end
      | r => r
      end
  end.

(** [SimbodyPhysics::UpdatePhysics()] *)
Definition UpdatePhysics (fuel : nat) (w : World) : Run :=
  match step_loop fuel w with
  | Done w =>
      let w := set_simbodyPhysicsStepped true w in
      match push_models (world_GetModels (engine w)) w with
      | Done w => Done (called [clearAllForces] w)
      | r => r
      end
  | r => r
  end.

End Update.

(** The calls that push the poses of the links, read from the state
    the integrator holds, and cache the joint forces of the models, in
    order. *)
Definition pose_calls (s : SimbodyPhysics) (ms : list Model) : list StepCall :=
  flat_map
    (fun mi =>
       flat_map
         (fun lx =>
            match links s !! lx with
            | Some (Link_Simbody l) =>
                [getBodyTransform (masterMobod l) (integ_getState s);
                 SetDirtyPose lx (masterMobod l)]
            | _ => []
            end) (GetLinks mi)
       ++ map CacheForceTorque (GetJoints mi)) ms.

(** Every link and joint of the models is a Simbody one. *)
Definition all_simbody (s : SimbodyPhysics) (ms : list Model) : Prop :=
  forall mi, In mi ms ->
    (forall lx, In lx (GetLinks mi) ->
       exists l, links s !! lx = Some (Link_Simbody l)) /\
    (forall jx, In jx (GetJoints mi) ->
       exists j, joints s !! jx = Some (Joint_Simbody j)).

Definition is_stepTo (c : StepCall) : Prop :=
  match c with integ_stepTo _ _ => True | _ => False end.

(** Integrators for the examples: one that throws after it has advanced
    by a quarter of a second, one that reaches the requested time, one
    that returns without progress. *)
Definition failing : Stepper :=
  mkStepper (fun st _ =>
               stepTo_throws "step failed" (setTime (getTime st + 0.25) st)).
Definition reaching : Stepper :=
  mkStepper (fun st t => stepTo_returns (setTime t st)).
Definition stalled : Stepper := mkStepper (fun st _ => stepTo_returns st).

Definition world_at (t : double) : World :=
  mkWorld Example.running t [] [] false.

End Stepping.

(** * Properties *)

Import SimTK physics SimbodyPhysics Surfaces Statements.

(** ** Stops of the Bullet slider joint *)

(** C10: SetHighStop and SetLowStop store the stop value in the generic
    joint before they look at the native constraint; when the constraint
    has not been created they return false, log an error, and the stored
    limit of axis 0 has nevertheless been overwritten with the requested
    angle. *)
Theorem Bullet_stop_stored_even_on_failure
    (index : nat) (angle : ign.Angle) (j : Bullet.BulletSliderJoint) :
  Bullet.bulletSlider j = None ->
  (0 < length (Bullet.upperLimit j))%nat ->
  (0 < length (Bullet.lowerLimit j))%nat ->
  let high := Bullet.SetHighStop index angle j in
  let low := Bullet.SetLowStop index angle j in
  fst high = false /\
  Bullet.upperLimit (snd high) !! 0%nat = Some angle /\
  Bullet.upperLimit (snd high) = <[0%nat := angle]> (Bullet.upperLimit j) /\
  Bullet.bulletSlider (snd high) = None /\
  fst low = false /\
  Bullet.lowerLimit (snd low) !! 0%nat = Some angle /\
  Bullet.lowerLimit (snd low) = <[0%nat := angle]> (Bullet.lowerLimit j) /\
  Bullet.bulletSlider (snd low) = None.
Proof.
  intros Hnull Hup Hlow high low.
  subst high low. unfold Bullet.SetHighStop, Bullet.SetLowStop.
  cbn. rewrite Hnull. cbn.
  repeat split; try reflexivity.
  - apply list_lookup_insert_eq, Hup.
  - apply list_lookup_insert_eq, Hlow.
Qed.

Lemma Bullet_stop_stored_even_on_failure_witness :
  let a := ign.mkAngle 1.5%float in
  fst (Bullet.SetHighStop 0 a Bullet.fresh_joint) = false /\
  Bullet.upperLimit Bullet.fresh_joint !! 0%nat = Some (ign.mkAngle 0%float) /\
  Bullet.upperLimit (snd (Bullet.SetHighStop 0 a Bullet.fresh_joint)) !! 0%nat
    = Some a.
Proof.
  intros a.
  pose proof (Bullet_stop_stored_even_on_failure 0 a Bullet.fresh_joint
                eq_refl (le_n 1) (le_n 1)) as H.
  cbv zeta in H. destruct H as (H1 & H2 & _).
  split; [exact H1 | split; [reflexivity | exact H2]].
Defined.

(** ** Reasoning about the monad *)

Section MonadFacts.

Context {A B' : Type}.

Lemma bind_Ret_inv (m : Sim A) (k : A -> Sim B') s b s' :
  bind m k s = (Ret b, s') ->
  exists a s1, m s = (Ret a, s1) /\ k a s1 = (Ret b, s').
Proof.
  unfold bind. destruct (m s) as [[a|e] s1]; intros H.
  - eauto.
  - discriminate.
Qed.

Lemma bind_Ret_eq (m : Sim A) (k : A -> Sim B') s a s1 :
  m s = (Ret a, s1) -> bind m k s = k a s1.
Proof. unfold bind. intros ->. reflexivity. Qed.

End MonadFacts.

Lemma call_Ret_inv B c s u s' :
  call B c s = (Ret u, s') ->
  throws B c = None /\ s' = set_trace (trace s ++ [c]) s.
Proof.
  unfold call. destruct (throws B c); intros H; inversion H; auto.
Qed.

Lemma graph_Ret_inv B c g s g' s' :
  graph B c g s = (Ret g', s') ->
  throws B (graph_call c) = None /\ s' = s /\
  received g' = received g ++ [c] /\
  mobilizers g' = match c with
                  | generateGraph => generateGraph_result B (received g)
                  | _ => mobilizers g
                  end.
Proof.
  unfold graph. destruct (throws B (graph_call c)); intros H; inversion H; auto.
Qed.

Lemma deref_link_inv id s l s' :
  deref_link id s = (Ret l, s') -> links s !! id = Some l /\ s' = s.
Proof.
  unfold deref_link. destruct (links s !! id); intros H; inversion H; auto.
Qed.

Lemma deref_joint_inv id s j s' :
  deref_joint id s = (Ret j, s') -> joints s !! id = Some j /\ s' = s.
Proof.
  unfold deref_joint. destruct (joints s !! id); intros H; inversion H; auto.
Qed.

Lemma deref_SimbodyLink_inv id s l s' :
  deref_SimbodyLink id s = (Ret l, s') ->
  links s !! id = Some (Link_Simbody l) /\ s' = s.
Proof.
  unfold deref_SimbodyLink. intros H.
  apply bind_Ret_inv in H as (x & s1 & H1 & H2).
  apply deref_link_inv in H1 as [H1 ->].
  destruct x; inversion H2; subst; auto.
Qed.

Lemma deref_SimbodyJoint_inv id s j s' :
  deref_SimbodyJoint id s = (Ret j, s') ->
  joints s !! id = Some (Joint_Simbody j) /\ s' = s.
Proof.
  unfold deref_SimbodyJoint. intros H.
  apply bind_Ret_inv in H as (x & s1 & H1 & H2).
  apply deref_joint_inv in H1 as [H1 ->].
  destruct x; inversion H2; subst; auto.
Qed.

(** ** Relations that every step of a method respects *)

Section Respects.

Context (R : relation SimbodyPhysics) `{!PreOrder R}.

Lemma respects_ret {A} (a : A) : respects R (ret a).
Proof. intros s o s' H. inversion H. reflexivity. Qed.

Lemma respects_throw {A} e : respects R (@throw A e).
Proof. intros s o s' H. inversion H. reflexivity. Qed.

Lemma respects_gets {A} (f : SimbodyPhysics -> A) : respects R (gets f).
Proof. intros s o s' H. inversion H. reflexivity. Qed.

Lemma respects_deref_link id : respects R (deref_link id).
Proof.
  intros s o s'. unfold deref_link.
  destruct (links s !! id); intros H; inversion H; reflexivity.
Qed.

Lemma respects_deref_joint id : respects R (deref_joint id).
Proof.
  intros s o s'. unfold deref_joint.
  destruct (joints s !! id); intros H; inversion H; reflexivity.
Qed.

Lemma respects_graph B c g : respects R (graph B c g).
Proof.
  intros s o s'. unfold graph.
  destruct (throws B (graph_call c)); intros H; inversion H; reflexivity.
Qed.

Lemma respects_modify f : (forall s, R s (f s)) -> respects R (modify f).
Proof. intros Hf s o s' H. inversion H. apply Hf. Qed.

Lemma respects_call B c :
  (forall s, R s (set_trace (trace s ++ [c]) s)) -> respects R (call B c).
Proof.
  intros Hc s o s'. unfold call.
  destruct (throws B c); intros H; inversion H; [reflexivity | apply Hc].
Qed.

Lemma respects_bind {A C} (m : Sim A) (k : A -> Sim C) :
  respects R m -> (forall a, respects R (k a)) -> respects R (bind m k).
Proof.
  intros Hm Hk s o s'. unfold bind.
  destruct (m s) as [[a|e] s1] eqn:E; intros H.
  - etransitivity; [eapply Hm, E | eapply Hk, H].
  - inversion H; subst. eapply Hm, E.
Qed.

Lemma respects_try_catch {A} (m : Sim A) (h : string -> Sim A) :
  respects R m -> (forall w, respects R (h w)) -> respects R (try_catch m h).
Proof.
  intros Hm Hh s o s'. unfold try_catch.
  destruct (m s) as [[a|[w|w|w]] s1] eqn:E; intros H;
    try (inversion H; subst; eapply Hm, E).
  etransitivity; [eapply Hm, E | eapply Hh, H].
Qed.

Lemma respects_for_each {A} (l : list A) (body : A -> Sim unit) :
  (forall x, respects R (body x)) -> respects R (for_each l body).
Proof.
  intros Hb. induction l as [|x l IH]; cbn [for_each].
  - apply respects_ret.
  - apply respects_bind; auto.
Qed.

Lemma respects_fold_each {A G} (l : list A) (body : G -> A -> Sim G) g :
  (forall g x, respects R (body g x)) -> respects R (fold_each l body g).
Proof.
  intros Hb. revert g. induction l as [|x l IH]; intros g; cbn [fold_each].
  - apply respects_ret.
  - apply respects_bind; auto.
Qed.

End Respects.

Ltac head_of t :=
  lazymatch t with
  | ?f _ => head_of f
  | _ => t
  end.

(** Decompose a [respects] goal along the structure of the method; calls
    and member updates are left to [tac]. *)
Ltac respects_with tac :=
  repeat
    (intros;
     lazymatch goal with
     | |- PreOrder _ => typeclasses eauto
     | |- respects _ (bind _ _) => apply respects_bind
     | |- respects _ (ret _) => apply respects_ret
     | |- respects _ (throw _) => apply respects_throw
     | |- respects _ (gets _) => apply respects_gets
     | |- respects _ (deref_link _) => apply respects_deref_link
     | |- respects _ (deref_joint _) => apply respects_deref_joint
     | |- respects _ (graph _ _ _) => apply respects_graph
     | |- respects _ (for_each _ _) => apply respects_for_each
     | |- respects _ (fold_each _ _ _) => apply respects_fold_each
     | |- respects _ (try_catch _ _) => apply respects_try_catch
     | |- respects _ (modify _) =>
         apply respects_modify;
         [ typeclasses eauto .. | intros; tac ]
     | |- respects _ (call _ _) =>
         apply respects_call;
         [ typeclasses eauto .. | intros; tac ]
     | |- respects _ (match ?x with _ => _ end) => destruct x
     | |- respects _ (let _ := _ in _) => cbv zeta
     | |- respects _ ?m => let h := head_of m in unfold h
     end).

#[local] Instance emits_PreOrder P : PreOrder (emits P).
Proof.
  split.
  - intros s. exists []. split; [symmetry; apply app_nil_r | constructor].
  - intros a b c (e1 & H1 & F1) (e2 & H2 & F2).
    exists (e1 ++ e2). split.
    + rewrite H2, H1. symmetry. apply app_assoc.
    + apply Forall_app; auto.
Qed.

Lemma emits_call (P : Call -> Prop) c s :
  P c -> emits P s (set_trace (trace s ++ [c]) s).
Proof. intros H. exists [c]. split; [reflexivity | repeat constructor; exact H]. Qed.

Lemma emits_same_trace (P : Call -> Prop) s s' :
  trace s' = trace s -> emits P s s'.
Proof. intros H. exists []. split; [rewrite H; symmetry; apply app_nil_r | constructor]. Qed.

(** ** Collision attachment *)

Lemma AddCollisionsToLink_shape_emits K B material join _mobod _modelClique ci :
  respects (emits (surface_rule _mobod _modelClique join))
    (AddCollisionsToLink_shape K B material join _mobod _modelClique ci).
Proof.
  unfold AddCollisionsToLink_shape.
  respects_with ltac:(first
    [ apply emits_same_trace; reflexivity
    | apply emits_call; cbn; left; unfold is_ground_halfspace; tauto
    | apply emits_call; cbn; right; destruct join; cbn; tauto ]).
Qed.

Lemma surface_rule_no_clique _mobod _modelClique evs :
  Forall (surface_rule _mobod _modelClique false) evs ->
  Forall in_no_clique evs.
Proof.
  intros HF. eapply Forall_impl; [exact HF|].
  intros [] H; cbn in *; try contradiction.
  destruct H as [[_ H]|[_ H]]; exact H.
Qed.

(** C8 (as amended): every call AddCollisionsToLink makes attaches a
    contact surface; a surface it attaches to the link's mobilized body
    is in the model clique if and only if the clique id is valid and the
    link has self-collision disabled, while the extra half-space that the
    plane branch attaches to Ground is in no clique. In particular, with
    an invalid clique id (static models) or a self-colliding link, no
    surface is in any clique. *)
Theorem AddCollisionsToLink_clique K B _link link _mobod _modelClique s o s' :
  links s !! _link = Some (Link_Simbody link) ->
  AddCollisionsToLink K B _link _mobod _modelClique s = (o, s') ->
  exists evs,
    trace s' = trace s ++ evs /\
    Forall (surface_rule _mobod _modelClique
              (isValid _modelClique && negb (GetSelfCollide link))) evs /\
    (isValid _modelClique = false \/ GetSelfCollide link = true ->
     Forall in_no_clique evs).
Proof.
  intros Hl H. unfold AddCollisionsToLink in H.
  unfold bind at 1 in H. cbn [gets] in H.
  unfold bind at 1 in H. unfold deref_SimbodyLink, bind, deref_link in H.
  rewrite Hl in H. cbn [ret] in H.
  apply (respects_for_each
           (emits (surface_rule _mobod _modelClique
                     (isValid _modelClique && negb (GetSelfCollide link))))) in H.
  - destruct H as (evs & Ht & Hf). exists evs. repeat split; auto.
    intros Hno. apply surface_rule_no_clique with _mobod _modelClique.
    replace (isValid _modelClique && negb (GetSelfCollide link)) with false in Hf;
      [exact Hf|].
    destruct Hno as [-> | ->]; [reflexivity|].
    symmetry. apply andb_false_r.
  - intros ci. apply AddCollisionsToLink_shape_emits.
Qed.

Lemma AddCollisionsToLink_clique_witness :
  let r := AddCollisionsToLink Example.K Example.quiet 5%nat (Mobod 1)
             (CliqueId 0) Example.running in
  exists evs,
    trace (snd r) = trace Example.running ++ evs /\
    Forall (surface_rule (Mobod 1) (CliqueId 0) true) evs /\
    (isValid (CliqueId 0) = false \/ GetSelfCollide Example.link_float = true ->
     Forall in_no_clique evs).
Proof.
  intros r.
  apply (AddCollisionsToLink_clique Example.K Example.quiet 5%nat
           Example.link_float (Mobod 1) (CliqueId 0) Example.running
           (fst r) (snd r)).
  - vm_compute. reflexivity.
  - apply surjective_pairing.
Defined.

(** C8 as stated fails on the plane branch: for a link of a dynamic
    model (valid clique id) with self-collision disabled, the half-space
    attached to Ground for its plane shape is a contact surface created
    for that shape, and it is not in the model clique. *)
Lemma AddCollisionsToLink_plane_counterexample :
  let r := AddCollisionsToLink Example.K Example.quiet 5%nat (Mobod 1)
             (CliqueId 0) Example.running in
  fst r = Ret tt /\
  isValid (CliqueId 0) && negb (GetSelfCollide Example.link_float) = true /\
  exists X surface,
    In (addContactSurface Ground X surface) (trace (snd r)) /\
    ~ In (CliqueId 0) (cliques surface).
Proof.
  intros r. split; [vm_compute; reflexivity|]. split; [reflexivity|].
  exists (Transform_R (Rotation_AngleAxis (Pi / 2)%float YAxis)),
         (mkContactSurface HalfSpace Example.rubber None []).
  split.
  - vm_compute. left. reflexivity.
  - cbn. tauto.
Qed.

(** ** Multibody graph construction *)

Lemma GetTypeString_flags K :
  joint_flags_ok K = true ->
  GetTypeString K (HINGE_JOINT K) = ret "revolute" /\
  GetTypeString K (HINGE2_JOINT K) = ret "revolute2" /\
  GetTypeString K (SLIDER_JOINT K) = ret "prismatic" /\
  GetTypeString K (UNIVERSAL_JOINT K) = ret "universal" /\
  GetTypeString K (SCREW_JOINT K) = ret "screw" /\
  GetTypeString K (BALL_JOINT K) = ret "ball".
Proof.
  unfold joint_flags_ok, joint_flags. cbn [pairwise_disjoint disjoint_from].
  intros H.
  repeat match goal with
         | H : _ && _ = true |- _ => apply andb_true_iff in H as [? ?]
         | H : negb _ = true |- _ => apply negb_true_iff in H
         | H : true = true |- _ => clear H
         end.
  unfold GetTypeString.
  repeat match goal with
         | H : (Z.land ?a ?b =? 0)%Z = true |- context [Z.land ?b ?a] =>
             rewrite (Z.land_comm b a)
         end.
  rewrite !Z.land_diag.
  repeat match goal with
         | H : (_ =? 0)%Z = _ |- _ => rewrite H
         end.
  cbn. repeat split; reflexivity.
Qed.

Lemma registerJointType_inv K B t dofs name g s g' s' :
  GetTypeString K t = ret name ->
  registerJointType K B t dofs g s = (Ret g', s') ->
  s' = s /\ mobilizers g' = mobilizers g /\
  received g' = received g ++ [addJointType name dofs false].
Proof.
  intros Hn H. unfold registerJointType in H. rewrite Hn in H.
  cbn [bind ret] in H. apply graph_Ret_inv in H as (_ & -> & Hr & Hm). auto.
Qed.

Lemma adds_refl g : adds_bodies_and_joints g g.
Proof. exists []. split; [symmetry; apply app_nil_r | constructor]. Qed.

Lemma adds_trans a b c :
  adds_bodies_and_joints a b -> adds_bodies_and_joints b c ->
  adds_bodies_and_joints a c.
Proof.
  intros (e1 & H1 & F1) (e2 & H2 & F2). exists (e1 ++ e2). split.
  - rewrite H2, H1. symmetry. apply app_assoc.
  - apply Forall_app; auto.
Qed.

Lemma adds_one g g' c :
  received g' = received g ++ [c] -> is_body_or_joint c ->
  adds_bodies_and_joints g g'.
Proof. intros H Hc. exists [c]. split; [exact H | repeat constructor; exact Hc]. Qed.

Lemma fold_each_adds {A} (body : MultibodyGraphMaker -> A -> Sim MultibodyGraphMaker) :
  (forall g x s g' s', body g x s = (Ret g', s') -> adds_bodies_and_joints g g') ->
  forall l g s g' s',
    fold_each l body g s = (Ret g', s') -> adds_bodies_and_joints g g'.
Proof.
  intros Hb l. induction l as [|x l IH]; intros g s g' s' H; cbn [fold_each] in H.
  - inversion H; subst. apply adds_refl.
  - apply bind_Ret_inv in H as (g1 & s1 & H1 & H2).
    eapply adds_trans; [eapply Hb, H1 | eapply IH, H2].
Qed.

Lemma CreateMultibodyGraph_link_adds B g li s g' s' :
  CreateMultibodyGraph_link B g li s = (Ret g', s') ->
  adds_bodies_and_joints g g'.
Proof.
  unfold CreateMultibodyGraph_link. intros H.
  apply bind_Ret_inv in H as (l & s1 & H1 & H2).
  destruct l.
  - apply graph_Ret_inv in H2 as (_ & _ & Hr & _).
    eapply adds_one; [exact Hr | exact I].
  - apply bind_Ret_inv in H2 as (u & s2 & _ & H2). inversion H2; subst.
    apply adds_refl.
Qed.

Lemma CreateMultibodyGraph_joint_adds K B g ji s g' s' :
  CreateMultibodyGraph_joint K B g ji s = (Ret g', s') ->
  adds_bodies_and_joints g g'.
Proof.
  unfold CreateMultibodyGraph_joint. intros H.
  apply bind_Ret_inv in H as (j & s1 & H1 & H2).
  destruct j as [j|n].
  - destruct (GetParent j), (GetChild j);
      repeat match goal with
             | H : bind _ _ _ = (Ret _, _) |- _ =>
                 apply bind_Ret_inv in H as (? & ? & ? & H)
             end;
      try (apply graph_Ret_inv in H2 as (_ & _ & Hr & _);
           eapply adds_one; [exact Hr | exact I]);
      inversion H2; subst; apply adds_refl.
  - apply bind_Ret_inv in H2 as (u & s2 & _ & H2). inversion H2; subst.
    apply adds_refl.
Qed.

(** C6: when CreateMultibodyGraph returns, the first six calls the graph
    maker received register revolute = 1, revolute2 = 2, prismatic = 1,
    universal = 2, screw = 1 and ball = 3 mobilities; only addBody and
    addJoint calls follow, and generateGraph is the last call. With weld
    and free predefined, the mobilities known to the graph maker are
    weld = 0, free = 6 and the six registered ones. *)
Theorem CreateMultibodyGraph_registers_joint_types K B _model s g s' :
  joint_flags_ok K = true ->
  CreateMultibodyGraph K B new_MultibodyGraphMaker _model s = (Ret g, s') ->
  (exists bodies_and_joints,
     received g =
       [addJointType "revolute" 1 false; addJointType "revolute2" 2 false;
        addJointType "prismatic" 1 false; addJointType "universal" 2 false;
        addJointType "screw" 1 false; addJointType "ball" 3 false]
       ++ bodies_and_joints ++ [generateGraph] /\
     Forall is_body_or_joint bodies_and_joints) /\
  numMobilities_of g "weld" = Some 0%nat /\
  numMobilities_of g "free" = Some 6%nat /\
  numMobilities_of g "revolute" = Some 1%nat /\
  numMobilities_of g "revolute2" = Some 2%nat /\
  numMobilities_of g "prismatic" = Some 1%nat /\
  numMobilities_of g "universal" = Some 2%nat /\
  numMobilities_of g "screw" = Some 1%nat /\
  numMobilities_of g "ball" = Some 3%nat.
Proof.
  intros HK H.
  destruct (GetTypeString_flags K HK) as (T1 & T2 & T3 & T4 & T5 & T6).
  unfold CreateMultibodyGraph in H.
  apply bind_Ret_inv in H as (g1 & s1 & H1 & H).
  apply (registerJointType_inv _ _ _ _ _ _ _ _ _ T1) in H1 as (-> & _ & R1).
  apply bind_Ret_inv in H as (g2 & s2 & H2 & H).
  apply (registerJointType_inv _ _ _ _ _ _ _ _ _ T2) in H2 as (-> & _ & R2).
  apply bind_Ret_inv in H as (g3 & s3 & H3 & H).
  apply (registerJointType_inv _ _ _ _ _ _ _ _ _ T3) in H3 as (-> & _ & R3).
  apply bind_Ret_inv in H as (g4 & s4 & H4 & H).
  apply (registerJointType_inv _ _ _ _ _ _ _ _ _ T4) in H4 as (-> & _ & R4).
  apply bind_Ret_inv in H as (g5 & s5 & H5 & H).
  apply (registerJointType_inv _ _ _ _ _ _ _ _ _ T5) in H5 as (-> & _ & R5).
  apply bind_Ret_inv in H as (g6 & s6 & H6 & H).
  apply (registerJointType_inv _ _ _ _ _ _ _ _ _ T6) in H6 as (-> & _ & R6).
  apply bind_Ret_inv in H as (g7 & s7 & H7 & H).
  apply graph_Ret_inv in H7 as (_ & -> & R7 & _).
  apply bind_Ret_inv in H as (g8 & s8 & H8 & H).
  apply (fold_each_adds _ (CreateMultibodyGraph_link_adds B)) in H8
    as (e8 & R8 & F8).
  apply bind_Ret_inv in H as (g9 & s9 & H9 & H).
  apply (fold_each_adds _ (CreateMultibodyGraph_joint_adds K B)) in H9
    as (e9 & R9 & F9).
  apply graph_Ret_inv in H as (_ & _ & R10 & _).
  assert (Hrec : received g =
            [addJointType "revolute" 1 false; addJointType "revolute2" 2 false;
             addJointType "prismatic" 1 false; addJointType "universal" 2 false;
             addJointType "screw" 1 false; addJointType "ball" 3 false]
            ++ (addBody "world" infinity false None :: e8 ++ e9)
            ++ [generateGraph]).
  { rewrite R10, R9, R8, R7, R6, R5, R4, R3, R2, R1. cbn.
    rewrite <- !app_assoc. reflexivity. }
  split.
  - eexists. split; [exact Hrec|].
    constructor; [exact I | apply Forall_app; auto].
  - unfold numMobilities_of. rewrite Hrec. cbn. repeat split; reflexivity.
Qed.

Lemma CreateMultibodyGraph_registers_joint_types_witness :
  let r := CreateMultibodyGraph Example.K Example.quiet new_MultibodyGraphMaker
             Example.arm Example.world0 in
  exists g,
    fst r = Ret g /\
    numMobilities_of g "revolute" = Some 1%nat /\
    numMobilities_of g "ball" = Some 3%nat /\
    numMobilities_of g "free" = Some 6%nat.
Proof.
  intros r.
  destruct (fst r) as [g|e] eqn:E; [|vm_compute in E; discriminate E].
  exists g. split; [reflexivity|].
  pose proof (CreateMultibodyGraph_registers_joint_types Example.K Example.quiet
                Example.arm Example.world0 g (snd r) eq_refl) as H.
  destruct H as (_ & _ & F & R1 & _ & _ & _ & _ & B3).
  - rewrite <- E. apply surjective_pairing.
  - auto.
Defined.

(** ** Inversion of the construction steps *)

Lemma ret_inv {A} (a b : A) s s' : ret a s = (Ret b, s') -> b = a /\ s' = s.
Proof. intros H. inversion H. auto. Qed.

Lemma gets_inv {A} (f : SimbodyPhysics -> A) s b s' :
  gets f s = (Ret b, s') -> b = f s /\ s' = s.
Proof. intros H. inversion H. auto. Qed.

Lemma modify_inv f s u s' : modify f s = (Ret u, s') -> s' = f s.
Proof. intros H. inversion H. auto. Qed.

Lemma log_inv lv msg s u s' :
  log lv msg s = (Ret u, s') ->
  s' = set_console (console s ++ [mkLog lv msg]) s.
Proof. intros H. inversion H. auto. Qed.

Lemma new_body_inv B c s h s' :
  new_body B c s = (Ret h, s') ->
  h = Mobod (numMobods s) /\
  s' = set_numMobods (S (numMobods s))
         (set_trace (trace s ++ [new_MobilizedBody c]) s).
Proof.
  unfold new_body. intros H.
  apply bind_Ret_inv in H as (u & s1 & H1 & H).
  apply call_Ret_inv in H1 as [_ ->].
  inversion H. auto.
Qed.

Lemma new_force_inv B f s h s' :
  new_force B f s = (Ret h, s') ->
  h = ForceIndex (numForces s) /\
  s' = set_numForces (S (numForces s))
         (set_trace (trace s ++ [new_Force f]) s).
Proof.
  unfold new_force. intros H.
  apply bind_Ret_inv in H as (u & s1 & H1 & H).
  apply call_Ret_inv in H1 as [_ ->].
  inversion H. auto.
Qed.

Lemma update_joint_inv id f s u s' :
  update_joint id f s = (Ret u, s') ->
  exists j, joints s !! id = Some (Joint_Simbody j) /\
            s' = set_joints (<[id := Joint_Simbody (f j)]> (joints s)) s.
Proof.
  unfold update_joint. intros H.
  apply bind_Ret_inv in H as (j & s1 & H1 & H).
  apply deref_SimbodyJoint_inv in H1 as [H1 ->].
  inversion H. eauto.
Qed.

Lemma update_link_inv id f s u s' :
  update_link id f s = (Ret u, s') ->
  exists l, links s !! id = Some (Link_Simbody l) /\
            s' = set_links (<[id := Link_Simbody (f l)]> (links s)) s.
Proof.
  unfold update_link. intros H.
  apply bind_Ret_inv in H as (l & s1 & H1 & H).
  apply deref_SimbodyLink_inv in H1 as [H1 ->].
  inversion H. eauto.
Qed.

(** Invert every step of a run that returned. *)
Ltac sim_inv :=
  repeat
    match goal with
    | H : bind _ _ _ = (Ret _, _) |- _ =>
        apply bind_Ret_inv in H as (? & ? & ? & H)
    | H : ret _ _ = (Ret _, _) |- _ => apply ret_inv in H as [? ?]; subst
    | H : gets _ _ = (Ret _, _) |- _ => apply gets_inv in H as [? ?]; subst
    | H : modify _ _ = (Ret _, _) |- _ => apply modify_inv in H; subst
    | H : log _ _ _ = (Ret _, _) |- _ => apply log_inv in H; subst
    | H : gzerr _ _ = (Ret _, _) |- _ => apply log_inv in H; subst
    | H : gzdbg _ _ = (Ret _, _) |- _ => apply log_inv in H; subst
    | H : call _ _ _ = (Ret _, _) |- _ => apply call_Ret_inv in H as [_ ?]; subst
    | H : new_body _ _ _ = (Ret _, _) |- _ =>
        apply new_body_inv in H as [? ?]; subst
    | H : new_force _ _ _ = (Ret _, _) |- _ =>
        apply new_force_inv in H as [? ?]; subst
    | H : update_joint _ _ _ = (Ret _, _) |- _ =>
        apply update_joint_inv in H as (? & ? & ?); subst
    | H : update_link _ _ _ = (Ret _, _) |- _ =>
        apply update_link_inv in H as (? & ? & ?); subst
    | H : deref_SimbodyJoint _ _ = (Ret _, _) |- _ =>
        apply deref_SimbodyJoint_inv in H as [? ?]; subst
    | H : deref_SimbodyLink _ _ = (Ret _, _) |- _ =>
        apply deref_SimbodyLink_inv in H as [? ?]; subst
    | H : throw _ _ = (Ret _, _) |- _ => discriminate H
    end.

Lemma attach_axis_forces_inv B id gzJoint mobod nj s u s' :
  attach_axis_forces B id gzJoint mobod nj s = (Ret u, s') ->
  appends (map new_Force (axis_forces gzJoint mobod nj)) s s'.
Proof.
  unfold attach_axis_forces. intros H. sim_inv.
  unfold appends. cbn. rewrite <- !app_assoc. cbn. auto.
Qed.

Lemma forces_of_app a b : forces_of (a ++ b) = forces_of a ++ forces_of b.
Proof.
  induction a as [|c a IH]; [reflexivity|].
  destruct c; cbn; rewrite ?IH; reflexivity.
Qed.

(** Closes the part of [mobilize_joint_inv] shared by the implemented
    types, up to the clause on the screw pitch. *)
Ltac mobilized :=
  split; [cbn; tauto|];
  split; [reflexivity|];
  split; [reflexivity|];
  eexists _, _;
  split; [rewrite <- ?app_assoc; reflexivity|];
  cbn;
  split; [repeat constructor; cbn; tauto|];
  split; [reflexivity|];
  split; [reflexivity|];
  split; [reflexivity|];
  split; [reflexivity|];
  split; [cbn; split; reflexivity|].

(** What the branch on [type] does when it returns: for an implemented
    type, one mobilized body is constructed from the chosen frames and
    direction, followed by calls that construct no body, among them the
    force elements of the controllable axes and nothing else that is a
    force; for any other type nothing is called and the handle is empty. *)
Lemma mobilize_joint_inv K B type id gzJoint rev parent mp s h s' :
  mobilize_joint K B type id gzJoint rev parent mp s = (Ret h, s') ->
  links s' = links s /\
  ((In type implemented_types /\
    h = Mobod (numMobods s) /\ numMobods s' = S (numMobods s) /\
    exists c rest,
      trace s' = trace s ++ new_MobilizedBody c :: rest /\
      Forall (fun e => ~ is_new_MobilizedBody e) rest /\
      forces_of rest =
        flat_map (axis_forces gzJoint h) (controllable_axes type) /\
      parentMobod c = parent /\ massProps c = mp /\
      direction c = direction_of rev /\
      match axis_alignment K type gzJoint with
      | Some R => X_IF c = align (X_IF0_of rev gzJoint) R /\
                  X_OM c = align (X_OM0_of rev gzJoint) R
      | None => X_IF c = X_IF0_of rev gzJoint /\ X_OM c = X_OM0_of rev gzJoint
      end /\
      (type = "screw" ->
       exists pitch p,
         GetThreadPitch gzJoint = Some pitch /\
         p = (if ign.equal (pitch 0%nat) 0 then 1.0e6%float else pitch 0%nat) /\
         kind c = Screw (-1.0 / p)%float))
   \/ (~ In type implemented_types /\ h = EmptyHandle /\
       trace s' = trace s /\ numMobods s' = numMobods s)).
Proof.
  unfold mobilize_joint. intros H.
  destruct (String.eqb type "free") eqn:E1;
    [apply String.eqb_eq in E1; subst type|].
  { sim_inv. cbn. split; [reflexivity|]. left. mobilized. discriminate. }
  destruct (String.eqb type "screw") eqn:E2;
    [apply String.eqb_eq in E2; subst type|].
  { unfold attach_axis_forces in H.
    apply bind_Ret_inv in H as (p0 & s0 & Hp & H).
    destruct (GetThreadPitch gzJoint) as [pitch|] eqn:EP; [|discriminate Hp].
    apply ret_inv in Hp as [-> ->].
    apply bind_Ret_inv in H as (p1 & s1 & Hq & H).
    destruct (ign.equal (pitch 0%nat) 0) eqn:EQ; sim_inv;
      (cbn; split; [reflexivity|]; left; mobilized;
       intros _; exists pitch; eexists; split; [reflexivity|];
       split; [reflexivity|]; rewrite EQ; reflexivity). }
  destruct (String.eqb type "universal") eqn:E3;
    [apply String.eqb_eq in E3; subst type|].
  { cbn [for_each] in H. sim_inv.
    repeat match goal with
           | Ha : attach_axis_forces _ _ _ _ _ _ = (Ret _, _) |- _ =>
               apply attach_axis_forces_inv in Ha as (? & ? & ? & _)
           end.
    match goal with
    | T2 : trace ?sf = trace ?s1 ++ _, L2 : links ?sf = _, N2 : numMobods ?sf = _,
      T1 : trace ?s1 = _, L1 : links ?s1 = _, N1 : numMobods ?s1 = _
      |- links ?sf = _ /\ _ =>
        split; [rewrite L2, L1; reflexivity|]; left;
        split; [cbn; tauto|];
        split; [reflexivity|];
        split; [rewrite N2, N1; reflexivity|];
        eexists _, _;
        split; [rewrite T2, T1; cbn; rewrite <- !app_assoc; reflexivity|]
    end.
    cbn.
    split; [repeat constructor; cbn; tauto|].
    repeat (split; [reflexivity|]).
    split; [split; reflexivity | discriminate]. }
  destruct (String.eqb type "revolute") eqn:E4;
    [apply String.eqb_eq in E4; subst type|].
  { unfold attach_axis_forces in H. sim_inv.
    cbn. split; [reflexivity|]. left. mobilized. discriminate. }
  destruct (String.eqb type "prismatic") eqn:E5;
    [apply String.eqb_eq in E5; subst type|].
  { unfold attach_axis_forces in H. sim_inv.
    cbn. split; [reflexivity|]. left. mobilized. discriminate. }
  destruct (String.eqb type "ball") eqn:E6;
    [apply String.eqb_eq in E6; subst type|].
  { sim_inv. cbn. split; [reflexivity|]. left. mobilized. discriminate. }
  sim_inv. cbn. split; [reflexivity|]. right.
  apply String.eqb_neq in E1, E2, E3, E4, E5, E6.
  split; [cbn; intuition congruence|]. auto.
Qed.

#[local] Instance keeps_PreOrder {X} (f : SimbodyPhysics -> X) : PreOrder (keeps f).
Proof.
  split.
  - intros s. reflexivity.
  - intros a b c H1 H2. unfold keeps in *. congruence.
Qed.

#[local] Instance both_PreOrder R1 R2 `{!PreOrder R1} `{!PreOrder R2} :
  PreOrder (both R1 R2).
Proof.
  split.
  - intros s. split; reflexivity.
  - intros a b c [H1 H2] [H3 H4]. split; etransitivity; eassumption.
Qed.

Lemma AddCollisionsToLink_frame K B _link _mobod _modelClique :
  respects (both (keeps joints) (emits is_addContactSurface))
    (AddCollisionsToLink K B _link _mobod _modelClique).
Proof.
  respects_with ltac:(split;
    [ reflexivity
    | first [ apply emits_same_trace; reflexivity
            | apply emits_call; exact I ] ]).
Qed.

(** The loop body for a mobilizer of an input joint, when it returns. *)
Lemma AddMobilizer_inv K B modelClique mob id gzJoint s s' :
  AddMobilizer K B modelClique mob s = (Ret tt, s') ->
  isAddedBaseMobilizer mob = false ->
  getJointRef mob = Some id ->
  joints s !! id = Some (Joint_Simbody gzJoint) ->
  exists parent h s1 j' surfaces,
    mobilize_joint K B (getJointTypeName mob) id gzJoint
      (isReversedFromJoint mob) parent
      (GetEffectiveMassProps (getOutboardMasterBodyRef mob) (getNumFragments mob))
      s = (Ret h, s1) /\
    joints s' !! id = Some (Joint_Simbody j') /\
    mobod j' = h /\
    isReversed j' = isReversedFromJoint mob /\
    trace s' = trace s1 ++ surfaces /\
    Forall is_addContactSurface surfaces.
Proof.
  unfold AddMobilizer. intros H Hbase Hid Hj.
  rewrite Hbase, Hid in H.
  apply bind_Ret_inv in H as (outb & s0 & H0 & H).
  apply deref_SimbodyLink_inv in H0 as [Houtb ->].
  apply bind_Ret_inv in H as (parent & s0 & H0 & H).
  assert (s0 = s) as ->.
  { destruct (getInboardBodyRef mob); sim_inv; reflexivity. }
  clear H0.
  apply bind_Ret_inv in H as (h & s2 & Hm & H).
  apply bind_Ret_inv in Hm as (gz & s0 & H0 & Hm).
  apply deref_SimbodyJoint_inv in H0 as [H0 ->].
  rewrite Hj in H0. injection H0 as <-.
  apply bind_Ret_inv in Hm as (h' & s1 & Hmj & Hm).
  apply bind_Ret_inv in Hm as (u1 & s3 & Hu1 & Hm).
  apply update_joint_inv in Hu1 as (j1 & Hj1 & ->).
  apply bind_Ret_inv in Hm as (u2 & s4 & Hu2 & Hm).
  apply update_joint_inv in Hu2 as (j2 & Hj2 & ->).
  apply ret_inv in Hm as [-> ->].
  cbn in Hj2. rewrite lookup_insert_eq in Hj2. injection Hj2 as <-.
  apply bind_Ret_inv in H as (u3 & s5 & Hl & H).
  assert (Hs5 : joints s5 = <[id := Joint_Simbody (set_isReversed (isReversedFromJoint mob) (set_mobod h' j1))]>
                              (<[id := Joint_Simbody (set_mobod h' j1)]> (joints s1))
                /\ trace s5 = trace s1).
  { destruct (isSlaveMobilizer mob);
      apply update_link_inv in Hl as (l & _ & ->); cbn; auto. }
  destruct Hs5 as [Hjs Htr].
  apply AddCollisionsToLink_frame in H as [Hk (surfaces & Hs & Hf)].
  unfold keeps in Hk.
  exists parent, h', s1, (set_isReversed (isReversedFromJoint mob) (set_mobod h' j1)), surfaces.
  split; [exact Hmj|].
  split; [rewrite Hk, Hjs; apply lookup_insert_eq|].
  split; [reflexivity|]. split; [reflexivity|].
  split; [rewrite Hs, Htr; reflexivity | exact Hf].
Qed.

(** A run is the pair of its outcome and its final state. *)
Lemma run_outcome {A} (m : Sim A) s o :
  fst (m s) = o -> m s = (o, snd (m s)).
Proof. destruct (m s) as [o' s']. cbn. intros ->. reflexivity. Qed.

(** ** A joint without a child link *)

Lemma fold_each_app {A G} (a b : list A) (body : G -> A -> Sim G) g s :
  fold_each (a ++ b) body g s = bind (fold_each a body g) (fold_each b body) s.
Proof.
  revert g s. induction a as [|x a IH]; intros g s; [reflexivity|].
  cbn [fold_each app]. unfold bind.
  destruct (body g x s) as [[g1|e] s1]; [apply IH | reflexivity].
Qed.

Lemma bind_fold_each_app {A G C} (a b : list A) (body : G -> A -> Sim G)
    (k : G -> Sim C) g s :
  bind (fold_each (a ++ b) body g) k s
  = bind (fold_each a body g) (fun g' => bind (fold_each b body g') k) s.
Proof.
  unfold bind at 1 2. rewrite fold_each_app. unfold bind.
  destruct (fold_each a body g s) as [[g1|e] s1]; reflexivity.
Qed.

(** *** Methods that do not look at the console *)

Lemma blind_ret {A} (a : A) : console_blind (ret a).
Proof.
  intros s o s' H. inversion H; subst. exists []. split.
  - symmetry. apply app_nil_r.
  - intros c. rewrite app_nil_r. reflexivity.
Qed.

Lemma blind_throw {A} e : console_blind (@throw A e).
Proof.
  intros s o s' H. inversion H; subst. exists []. split.
  - symmetry. apply app_nil_r.
  - intros c. rewrite app_nil_r. reflexivity.
Qed.

Lemma blind_bind {A C} (m : Sim A) (k : A -> Sim C) :
  console_blind m -> (forall a, console_blind (k a)) -> console_blind (bind m k).
Proof.
  intros Hm Hk s o s' H. unfold bind in H.
  destruct (m s) as [[a|e] s1] eqn:E.
  - destruct (Hm _ _ _ E) as (e1 & C1 & R1).
    destruct (Hk a _ _ _ H) as (e2 & C2 & R2).
    exists (e1 ++ e2). split.
    + rewrite C2, C1. symmetry. apply app_assoc.
    + intros c. unfold bind. rewrite R1, R2, app_assoc. reflexivity.
  - inversion H; subst. destruct (Hm _ _ _ E) as (e1 & C1 & R1).
    exists e1. split; [exact C1|].
    intros c. unfold bind. rewrite R1. reflexivity.
Qed.

Lemma blind_fold_each {A G} (l : list A) (body : G -> A -> Sim G) :
  (forall g x, console_blind (body g x)) ->
  forall g, console_blind (fold_each l body g).
Proof.
  intros Hb. induction l as [|x l IH]; intros g; cbn [fold_each].
  - apply blind_ret.
  - apply blind_bind; [apply Hb | exact IH].
Qed.

Lemma blind_graph B c g : console_blind (graph B c g).
Proof.
  intros s o s' H. unfold graph in *. exists [].
  destruct (throws B (graph_call c)); inversion H; subst;
    (split; [symmetry; apply app_nil_r | intros c0; rewrite app_nil_r; reflexivity]).
Qed.

Lemma blind_deref_link id : console_blind (deref_link id).
Proof.
  intros s o s' H. unfold deref_link in *. exists []. cbn [links set_console].
  destruct (links s !! id); inversion H; subst;
    (split; [symmetry; apply app_nil_r | intros c0; rewrite app_nil_r; reflexivity]).
Qed.

Lemma blind_deref_joint id : console_blind (deref_joint id).
Proof.
  intros s o s' H. unfold deref_joint in *. exists []. cbn [joints set_console].
  destruct (joints s !! id); inversion H; subst;
    (split; [symmetry; apply app_nil_r | intros c0; rewrite app_nil_r; reflexivity]).
Qed.

Lemma blind_log lv msg : console_blind (log lv msg).
Proof.
  intros s o s' H. inversion H; subst. exists [mkLog lv msg].
  split; reflexivity.
Qed.

Ltac blind :=
  repeat
    (intros;
     lazymatch goal with
     | |- console_blind (bind _ _) => apply blind_bind
     | |- console_blind (ret _) => apply blind_ret
     | |- console_blind (throw _) => apply blind_throw
     | |- console_blind (log _ _) => apply blind_log
     | |- console_blind (deref_link _) => apply blind_deref_link
     | |- console_blind (deref_joint _) => apply blind_deref_joint
     | |- console_blind (graph _ _ _) => apply blind_graph
     | |- console_blind (fold_each _ _ _) => apply blind_fold_each
     | |- console_blind (match ?x with _ => _ end) => destruct x
     | |- console_blind (let _ := _ in _) => cbv zeta
     | |- console_blind ?m => let h := head_of m in unfold h
     end).

Lemma CreateMultibodyGraph_joint_blind K B g ji :
  console_blind (CreateMultibodyGraph_joint K B g ji).
Proof. blind. Qed.

Lemma skipping_bind {A C} line (m : Sim A) (k k' : A -> Sim C) s :
  (forall a s1, m s = (Ret a, s1) -> skipping line (k a s1) (k' a s1)) ->
  skipping line (bind m k s) (bind m k' s).
Proof.
  intros H. unfold bind. destruct (m s) as [[a|e] s1].
  - apply H. reflexivity.
  - split; [reflexivity|]. exists (console s1), []. split.
    + symmetry. apply app_nil_r.
    + right. split; [reflexivity | exists e; reflexivity].
Qed.

(** *** What the graph maker receives *)

Lemma received_grows_refl Q g : received_grows Q g g.
Proof. exists []. split; [symmetry; apply app_nil_r | constructor]. Qed.

Lemma received_grows_trans Q a b c :
  received_grows Q a b -> received_grows Q b c -> received_grows Q a c.
Proof.
  intros (e1 & H1 & F1) (e2 & H2 & F2). exists (e1 ++ e2). split.
  - rewrite H2, H1. symmetry. apply app_assoc.
  - apply Forall_app; auto.
Qed.

Lemma received_grows_one (Q : GraphCall -> Prop) g g' c :
  received g' = received g ++ [c] -> Q c -> received_grows Q g g'.
Proof. intros H HQ. exists [c]. split; [exact H | repeat constructor; exact HQ]. Qed.

Lemma registerJointType_joints K B t dofs g :
  respects (keeps joints) (registerJointType K B t dofs g).
Proof. respects_with ltac:(reflexivity). Qed.

Lemma CreateMultibodyGraph_link_joints B g li :
  respects (keeps joints) (CreateMultibodyGraph_link B g li).
Proof. respects_with ltac:(reflexivity). Qed.

Lemma CreateMultibodyGraph_joint_joints K B g ji :
  respects (keeps joints) (CreateMultibodyGraph_joint K B g ji).
Proof. respects_with ltac:(reflexivity). Qed.

Lemma registerJointType_received K B t dofs g s g' s' :
  registerJointType K B t dofs g s = (Ret g', s') ->
  exists name, received g' = received g ++ [addJointType name dofs false].
Proof.
  unfold registerJointType. intros H.
  apply bind_Ret_inv in H as (name & s1 & _ & H).
  apply graph_Ret_inv in H as (_ & _ & Hr & _). eauto.
Qed.

Lemma CreateMultibodyGraph_link_received B g li s g' s' :
  CreateMultibodyGraph_link B g li s = (Ret g', s') ->
  received_grows (fun c => joint_of c = None) g g'.
Proof.
  unfold CreateMultibodyGraph_link. intros H.
  apply bind_Ret_inv in H as (l & s1 & _ & H). destruct l.
  - apply graph_Ret_inv in H as (_ & _ & Hr & _).
    eapply received_grows_one; [exact Hr | reflexivity].
  - apply bind_Ret_inv in H as (u & s2 & _ & H). apply ret_inv in H as [-> _].
    apply received_grows_refl.
Qed.

(** What the step for one joint does to the graph maker. *)
Lemma CreateMultibodyGraph_joint_inv K B g jx s g' s' :
  CreateMultibodyGraph_joint K B g jx s = (Ret g', s') ->
  exists jt,
    joints s !! jx = Some jt /\
    match jt with
    | Joint_Simbody jc =>
        match GetChild jc with
        | Some _ =>
            exists type p c,
              received g' =
                received g ++ [addJoint (j_GetName jc) type p c
                                        (mustBreakLoopHere jc) (Some jx)]
        | None => g' = g
        end
    | Joint_Other _ => g' = g
    end.
Proof.
  unfold CreateMultibodyGraph_joint. intros H.
  apply bind_Ret_inv in H as (jt & s1 & Hj & H).
  apply deref_joint_inv in Hj as [Hj ->]. exists jt. split; [exact Hj|].
  destruct jt as [jc|name].
  - destruct (GetParent jc), (GetChild jc);
      repeat match goal with
             | H : bind _ _ _ = (Ret _, _) |- _ =>
                 apply bind_Ret_inv in H as (? & ? & ? & H)
             end;
      try (apply graph_Ret_inv in H as (_ & _ & Hr & _); eauto);
      apply ret_inv in H as [-> _]; reflexivity.
  - apply bind_Ret_inv in H as (u & s2 & _ & H). apply ret_inv in H as [-> _].
    reflexivity.
Qed.

Lemma fold_links_received B js l : forall g s g' s',
  joints s = js ->
  fold_each l (CreateMultibodyGraph_link B) g s = (Ret g', s') ->
  joints s' = js /\ received_grows (with_child js) g g'.
Proof.
  induction l as [|x l IH]; intros g s g' s' Hs H; cbn [fold_each] in H.
  - apply ret_inv in H as [-> ->]. split; [exact Hs | apply received_grows_refl].
  - apply bind_Ret_inv in H as (g1 & s1 & H1 & H).
    pose proof (CreateMultibodyGraph_link_joints _ _ _ _ _ _ H1) as Hk.
    unfold keeps in Hk. rewrite Hs in Hk.
    apply CreateMultibodyGraph_link_received in H1 as (e1 & R1 & F1).
    destruct (IH _ _ _ _ Hk H) as (Hj & G2). split; [exact Hj|].
    eapply received_grows_trans; [|exact G2].
    exists e1. split; [exact R1|].
    eapply List.Forall_impl; [|exact F1]. intros c Hc jx E. congruence.
Qed.

Lemma fold_joints_received K B js l : forall g s g' s',
  joints s = js ->
  fold_each l (CreateMultibodyGraph_joint K B) g s = (Ret g', s') ->
  joints s' = js /\ received_grows (with_child js) g g' /\
  forall jx jc child,
    In jx l -> js !! jx = Some (Joint_Simbody jc) -> GetChild jc = Some child ->
    exists type p c,
      In (addJoint (j_GetName jc) type p c (mustBreakLoopHere jc) (Some jx))
         (received g').
Proof.
  induction l as [|x l IH]; intros g s g' s' Hs H; cbn [fold_each] in H.
  - apply ret_inv in H as [-> ->].
    split; [exact Hs | split; [apply received_grows_refl | intros ? ? ? []]].
  - apply bind_Ret_inv in H as (g1 & s1 & H1 & H).
    pose proof (CreateMultibodyGraph_joint_joints _ _ _ _ _ _ _ H1) as Hk.
    unfold keeps in Hk. rewrite Hs in Hk.
    apply CreateMultibodyGraph_joint_inv in H1 as (jt & Hjt & Hstep).
    rewrite Hs in Hjt.
    destruct (IH _ _ _ _ Hk H) as (Hj & (e2 & R2 & F2) & Hin).
    split; [exact Hj|].
    assert (G1 : received_grows (with_child js) g g1).
    { destruct jt as [jc|name]; [|subst g1; apply received_grows_refl].
      destruct (GetChild jc) as [child|] eqn:Ec;
        [|subst g1; apply received_grows_refl].
      destruct Hstep as (type & p & c & Hr).
      eapply received_grows_one; [exact Hr|].
      intros jx E. cbn in E. injection E as <-. eauto. }
    split; [eapply received_grows_trans; [exact G1 | exists e2; auto]|].
    intros jx jc child [<-|Hl] Hjx Hc; [|eapply Hin; eauto].
    rewrite Hjx in Hjt. injection Hjt as <-. rewrite Hc in Hstep.
    destruct Hstep as (type & p & c & Hr). exists type, p, c.
    rewrite R2, Hr. apply in_or_app. left. apply in_or_app. right. left.
    reflexivity.
Qed.

(** What the graph maker has received when CreateMultibodyGraph returns,
    as far as the joints go. *)
Lemma CreateMultibodyGraph_joints_received K B _model s g s' :
  CreateMultibodyGraph K B new_MultibodyGraphMaker _model s = (Ret g, s') ->
  last (received g) = Some generateGraph /\
  Forall (with_child (joints s)) (received g) /\
  forall jx jc child,
    In jx (GetJoints _model) -> joints s !! jx = Some (Joint_Simbody jc) ->
    GetChild jc = Some child ->
    exists type p c,
      In (addJoint (j_GetName jc) type p c (mustBreakLoopHere jc) (Some jx))
         (received g).
Proof.
  intros H. unfold CreateMultibodyGraph in H.
  assert (Hnone : forall c, joint_of c = None -> with_child (joints s) c)
    by (intros c Hc jx E; congruence).
  apply bind_Ret_inv in H as (g1 & s1 & H1 & H).
  pose proof (registerJointType_joints _ _ _ _ _ _ _ _ H1) as K1.
  apply registerJointType_received in H1 as (n1 & R1).
  apply bind_Ret_inv in H as (g2 & s2 & H2 & H).
  pose proof (registerJointType_joints _ _ _ _ _ _ _ _ H2) as K2.
  apply registerJointType_received in H2 as (n2 & R2).
  apply bind_Ret_inv in H as (g3 & s3 & H3 & H).
  pose proof (registerJointType_joints _ _ _ _ _ _ _ _ H3) as K3.
  apply registerJointType_received in H3 as (n3 & R3).
  apply bind_Ret_inv in H as (g4 & s4 & H4 & H).
  pose proof (registerJointType_joints _ _ _ _ _ _ _ _ H4) as K4.
  apply registerJointType_received in H4 as (n4 & R4).
  apply bind_Ret_inv in H as (g5 & s5 & H5 & H).
  pose proof (registerJointType_joints _ _ _ _ _ _ _ _ H5) as K5.
  apply registerJointType_received in H5 as (n5 & R5).
  apply bind_Ret_inv in H as (g6 & s6 & H6 & H).
  pose proof (registerJointType_joints _ _ _ _ _ _ _ _ H6) as K6.
  apply registerJointType_received in H6 as (n6 & R6).
  apply bind_Ret_inv in H as (g7 & s7 & H7 & H).
  apply graph_Ret_inv in H7 as (_ & -> & R7 & _).
  unfold keeps in *.
  assert (K7 : joints s6 = joints s) by congruence.
  apply bind_Ret_inv in H as (g8 & s8 & H8 & H).
  apply (fold_links_received B (joints s) _ _ _ _ _ K7) in H8
    as (K8 & e8 & R8 & F8).
  apply bind_Ret_inv in H as (g9 & s9 & H9 & H).
  apply (fold_joints_received K B (joints s) _ _ _ _ _ K8) in H9
    as (K9 & (e9 & R9 & F9) & Hin).
  apply graph_Ret_inv in H as (_ & _ & R10 & _).
  split; [rewrite R10; apply last_snoc|]. split.
  - rewrite R10, R9, R8, R7, R6, R5, R4, R3, R2, R1. cbn [received new_MultibodyGraphMaker].
    repeat first [apply Forall_app; split | apply Forall_cons; split
                 | apply Forall_nil; exact I | assumption
                 | apply Hnone; reflexivity].
  - intros jx jc child Hjx Hj Hc.
    destruct (Hin jx jc child Hjx Hj Hc) as (type & p & c & Hi).
    exists type, p, c. rewrite R10. apply in_or_app. left. exact Hi.
Qed.

(** C3 as stated fails: for a model one of whose joints has no child
    link, CreateMultibodyGraph does not abort. It returns normally, the
    joint declared after the childless one has still been added, and
    generateGraph has been called; the only trace of the childless joint
    is a line on the error console. *)
Lemma CreateMultibodyGraph_orphan_counterexample :
  let r := CreateMultibodyGraph Example.K Example.quiet new_MultibodyGraphMaker
             Example.arm_with_orphan Example.world0 in
  (In 4%nat (GetJoints Example.arm_with_orphan) /\
   joints Example.world0 !! 4%nat = Some (Joint_Simbody Example.orphan) /\
   GetChild Example.orphan = None) /\
  exists g,
    fst r = Ret g /\
    In (addJoint "slider" "prismatic" "A" "B" false (Some 2%nat)) (received g) /\
    last (received g) = Some generateGraph /\
    console (snd r) =
      [mkLog gzerr_level
         ("simbodyJoint [orphan] does not have a valid child link, which is required"
          +:+ nl)].
Proof.
  intros r. split.
  - split; [cbn; auto | split; [vm_compute; reflexivity | reflexivity]].
  - destruct (fst r) as [g|e] eqn:E; [|vm_compute in E; discriminate E].
    exists g. split; [reflexivity|].
    assert (Hg : Ret g = fst r) by (symmetry; exact E).
    vm_compute in Hg. injection Hg as ->.
    split; [cbn; tauto|]. split; vm_compute; reflexivity.
Qed.

(** C3 (as amended): a joint without a valid child link is reported on
    the error console and skipped. Let the model have the joint [ji]
    among its joints, and let [ji] have no child link. The step for that
    joint returns normally, leaves the graph maker as it was and changes
    nothing but the console, to which it adds the line that reports the
    joint. CreateMultibodyGraph then has the outcome it has for the
    model without that joint: the same graph maker is returned, or the
    same exception thrown, so that nothing is raised to the caller on
    account of the joint; and it leaves the same state, but for the line
    on the console (a run that has thrown before it came to the joint
    leaves the very same state). When CreateMultibodyGraph returns, the
    line is on the console, the last call the graph maker has received is
    generateGraph, no addJoint call has been made for [ji], and one has
    been made for every other joint of the model that has a child
    link. *)
Theorem CreateMultibodyGraph_skips_joint_without_child
    K B _model pre ji post j s :
  GetJoints _model = pre ++ ji :: post ->
  joints s !! ji = Some (Joint_Simbody j) ->
  GetChild j = None ->
  let line :=
    mkLog gzerr_level
      ("simbodyJoint [" +:+ j_GetName j
       +:+ "] does not have a valid child link, which is required" +:+ nl) in
  let without :=
    mkModel (model_id _model) (IsStatic _model) (GetLinks _model) (pre ++ post) in
  let r := CreateMultibodyGraph K B new_MultibodyGraphMaker _model s in
  let r' := CreateMultibodyGraph K B new_MultibodyGraphMaker without s in
  (forall g,
     CreateMultibodyGraph_joint K B g ji s
     = (Ret g, set_console (console s ++ [line]) s)) /\
  fst r = fst r' /\
  (exists before after,
     console (snd r') = before ++ after /\
     (snd r = set_console (before ++ line :: after) (snd r') \/
      snd r = snd r' /\ exists e, fst r = Throw e)) /\
  (forall g, fst r = Ret g ->
     In line (console (snd r)) /\
     last (received g) = Some generateGraph /\
     Forall (fun c => joint_of c <> Some ji) (received g) /\
     (forall jx jc child,
        In jx (pre ++ post) ->
        joints s !! jx = Some (Joint_Simbody jc) -> GetChild jc = Some child ->
        exists type p c,
          In (addJoint (j_GetName jc) type p c (mustBreakLoopHere jc) (Some jx))
             (received g))).
Proof.
  intros Hsplit Hj Hc line without r r'.
  assert (Hstep : forall g t, joints t = joints s ->
            CreateMultibodyGraph_joint K B g ji t
            = (Ret g, set_console (console t ++ [line]) t)).
  { intros g t Ht. unfold CreateMultibodyGraph_joint, bind, deref_joint.
    rewrite Ht, Hj, Hc. destruct (GetParent j); reflexivity. }
  assert (Hskip : skipping line r r').
  { subst r r'. unfold CreateMultibodyGraph.
    cbn [GetLinks GetJoints without]. rewrite Hsplit.
    apply skipping_bind. intros g1 s1 H1.
    apply registerJointType_joints in H1 as K1.
    apply skipping_bind. intros g2 s2 H2.
    apply registerJointType_joints in H2 as K2.
    apply skipping_bind. intros g3 s3 H3.
    apply registerJointType_joints in H3 as K3.
    apply skipping_bind. intros g4 s4 H4.
    apply registerJointType_joints in H4 as K4.
    apply skipping_bind. intros g5 s5 H5.
    apply registerJointType_joints in H5 as K5.
    apply skipping_bind. intros g6 s6 H6.
    apply registerJointType_joints in H6 as K6.
    apply skipping_bind. intros g7 s7 H7.
    apply graph_Ret_inv in H7 as (_ & -> & _ & _).
    apply skipping_bind. intros g8 s8 H8.
    unfold keeps in *.
    assert (K7 : joints s6 = joints s) by congruence.
    apply (fold_links_received B (joints s) _ _ _ _ _ K7) in H8 as (K8 & _).
    rewrite !bind_fold_each_app.
    apply skipping_bind. intros g9 s9 H9.
    apply (fold_joints_received K B (joints s) _ _ _ _ _ K8) in H9 as (K9 & _).
    set (tail := bind (fold_each post (CreateMultibodyGraph_joint K B) g9)
                      (fun g => graph B generateGraph g)).
    assert (E : bind (fold_each (ji :: post) (CreateMultibodyGraph_joint K B) g9)
                     (fun g => graph B generateGraph g) s9
                = tail (set_console (console s9 ++ [line]) s9)).
    { cbn [fold_each]. unfold tail, bind. rewrite (Hstep g9 s9 K9). reflexivity. }
    rewrite E.
    assert (Hblind : console_blind tail).
    { unfold tail. apply blind_bind.
      - apply blind_fold_each. intros. apply CreateMultibodyGraph_joint_blind.
      - intros. apply blind_graph. }
    destruct (tail s9) as [o s10] eqn:Et.
    destruct (Hblind _ _ _ Et) as (added & Hcon & Hset).
    rewrite (Hset (console s9 ++ [line])). split; [reflexivity|].
    exists (console s9), added. split; [exact Hcon|]. left.
    cbn [snd]. rewrite <- app_assoc. reflexivity. }
  split; [intros g; apply Hstep; reflexivity|].
  destruct Hskip as (Hfst & before & after & Hcon & Hsnd).
  split; [exact Hfst|]. split; [exists before, after; auto|].
  intros g Hg.
  assert (Hrun : CreateMultibodyGraph K B new_MultibodyGraphMaker _model s
                 = (Ret g, snd r)).
  { rewrite <- Hg. apply surjective_pairing. }
  apply CreateMultibodyGraph_joints_received in Hrun as (Hlast & Hall & Hin).
  split.
  { destruct Hsnd as [->|[_ [e He]]]; [|congruence].
    cbn [console set_console]. apply in_or_app. right. left. reflexivity. }
  split; [exact Hlast|]. split.
  - eapply List.Forall_impl; [|exact Hall]. intros c Hw E.
    destruct (Hw _ E) as (jc & child & Hjc & Hchild). congruence.
  - intros jx jc child Hjx. apply Hin. rewrite Hsplit.
    apply in_app_or in Hjx as [Hp|Hp]; apply in_or_app; [left | right; right];
      exact Hp.
Qed.

Lemma CreateMultibodyGraph_skips_joint_without_child_witness :
  let r := CreateMultibodyGraph Example.K Example.quiet new_MultibodyGraphMaker
             Example.arm_with_orphan Example.world0 in
  let line :=
    mkLog gzerr_level
      ("simbodyJoint [orphan] does not have a valid child link, which is required"
       +:+ nl) in
  CreateMultibodyGraph_joint Example.K Example.quiet new_MultibodyGraphMaker
    4%nat Example.world0
  = (Ret new_MultibodyGraphMaker, set_console [line] Example.world0) /\
  fst r = fst (CreateMultibodyGraph Example.K Example.quiet
                 new_MultibodyGraphMaker Example.arm Example.world0) /\
  exists g,
    fst r = Ret g /\
    In line (console (snd r)) /\
    last (received g) = Some generateGraph /\
    Forall (fun c => joint_of c <> Some 4%nat) (received g) /\
    exists type p c,
      In (addJoint "slider" type p c false (Some 2%nat)) (received g).
Proof.
  intros r line.
  destruct (CreateMultibodyGraph_skips_joint_without_child Example.K
              Example.quiet Example.arm_with_orphan [1%nat] 4%nat [2%nat]
              Example.orphan Example.world0)
    as (Hstep & Hfst & _ & Hret).
  - reflexivity.
  - vm_compute. reflexivity.
  - reflexivity.
  - split; [apply Hstep|]. split; [exact Hfst|].
    destruct (fst r) as [g|e] eqn:E; [|vm_compute in E; discriminate E].
    exists g. split; [reflexivity|].
    destruct (Hret g) as (Hline & Hlast & Hnone & Hothers); [exact E|].
    split; [exact Hline|]. split; [exact Hlast|]. split; [exact Hnone|].
    apply (Hothers 2%nat Example.slider 2%nat).
    + right. left. reflexivity.
    + vm_compute. reflexivity.
    + reflexivity.
Defined.

(** ** Mobilizer synthesis *)

(** C4: for a mobilizer of an input joint of an implemented type, the
    body constructed takes the joint's child-side frame xCB as inboard
    frame and the parent-side frame xPA as outboard frame, with direction
    Reverse, when the graph marked the joint reversed, and xPA inboard,
    xCB outboard, direction Forward otherwise. For the screw, revolute,
    prismatic and universal types the frame that reaches the constructor
    is that frame with its rotation multiplied on the right by the
    rotation that aligns the joint axis (or axes) with the mobility axis,
    the same for both frames, and with its origin unchanged; for the free
    and ball types it is the frame itself. Exactly one body is
    constructed, and afterwards the joint holds the handle of that body
    and the reversed flag. *)
Theorem AddMobilizer_frames_follow_reversal K B modelClique mob id gzJoint s s' :
  AddMobilizer K B modelClique mob s = (Ret tt, s') ->
  isAddedBaseMobilizer mob = false ->
  getJointRef mob = Some id ->
  joints s !! id = Some (Joint_Simbody gzJoint) ->
  In (getJointTypeName mob) implemented_types ->
  let reversed := isReversedFromJoint mob in
  let inboard := if reversed then xCB gzJoint else xPA gzJoint in
  let outboard := if reversed then xPA gzJoint else xCB gzJoint in
  exists c rest j',
    trace s' = trace s ++ new_MobilizedBody c :: rest /\
    Forall (fun e => ~ is_new_MobilizedBody e) rest /\
    direction c = (if reversed then Reverse else Forward) /\
    match frame_alignment K (getJointTypeName mob) gzJoint with
    | Some R => X_IF c = turned inboard R /\ X_OM c = turned outboard R
    | None => X_IF c = inboard /\ X_OM c = outboard
    end /\
    joints s' !! id = Some (Joint_Simbody j') /\
    mobod j' = Mobod (numMobods s) /\
    isReversed j' = reversed.
Proof.
  intros H Hbase Hid Hj Hty reversed inboard outboard.
  destruct (AddMobilizer_inv _ _ _ _ _ _ _ _ H Hbase Hid Hj)
    as (parent & h & s1 & j' & surfaces & Hm & Hj' & Hh & Hr & Htr & Hsurf).
  apply mobilize_joint_inv in Hm as [_ [Hok | [Hno _]]]; [|contradiction].
  destruct Hok as (_ & -> & _ & c & rest & Ht1 & Hrest & _ & _ & _ & Hdir & Hfr & _).
  exists c, (rest ++ surfaces), j'.
  split; [rewrite Htr, Ht1, <- app_assoc; reflexivity|].
  split.
  { apply Forall_app. split; [exact Hrest|].
    eapply Forall_impl; [exact Hsurf|]. intros [] He; cbn in *; tauto. }
  split; [exact Hdir|].
  split; [|auto].
  unfold reversed, inboard, outboard.
  unfold axis_alignment, align, joint_axis, X_IF0_of, X_OM0_of in Hfr.
  unfold frame_alignment, turned, axis_in_frame.
  exact Hfr.
Qed.

Lemma AddMobilizer_frames_follow_reversal_witness :
  let r := AddMobilizer Example.K Example.quiet (CliqueId 0)
             Example.mob_slider_reversed Example.running in
  exists c rest j',
    trace (snd r) = trace Example.running ++ new_MobilizedBody c :: rest /\
    Forall (fun e => ~ is_new_MobilizedBody e) rest /\
    direction c = Reverse /\
    (let R :=
       Rotation_Axis
         (UnitVec3_Rotated Example.unitq (ign.mkVector3d 1 0 0)) XAxis in
     X_IF c = Transform_Rp (Rotation_Mul (R_of (xCB Example.slider)) R)
                           (p_of (xCB Example.slider)) /\
     X_OM c = Transform_Rp (Rotation_Mul (R_of (xPA Example.slider)) R)
                           (p_of (xPA Example.slider))) /\
    joints (snd r) !! 2%nat = Some (Joint_Simbody j') /\
    mobod j' = Mobod 1 /\
    isReversed j' = true.
Proof.
  intros r.
  apply (AddMobilizer_frames_follow_reversal Example.K Example.quiet (CliqueId 0)
           Example.mob_slider_reversed 2%nat Example.slider Example.running (snd r)).
  - apply (run_outcome (AddMobilizer Example.K Example.quiet (CliqueId 0)
                          Example.mob_slider_reversed)).
    vm_compute. reflexivity.
  - reflexivity.
  - reflexivity.
  - vm_compute. reflexivity.
  - cbn. tauto.
Defined.

(** C5: when the branch for a revolute, prismatic, screw or universal
    joint returns, the force elements it has constructed are, for each
    controllable axis in turn (axis 0, and axis 1 as well for a universal
    joint), exactly one stop with the joint's stop stiffness, stop
    dissipation, lower and upper limit, then one damper with the joint's
    damping, whatever its value, then one spring with the joint's
    stiffness and spring reference position, all on the body just
    constructed. *)
Theorem mobilize_joint_axis_forces K B type id gzJoint rev parent mp s h s' :
  In type ["revolute"; "prismatic"; "screw"; "universal"] ->
  mobilize_joint K B type id gzJoint rev parent mp s = (Ret h, s') ->
  h = Mobod (numMobods s) /\
  forces_of (trace s') =
    forces_of (trace s) ++
    flat_map
      (fun nj =>
         [ MobilityLinearStop h nj (GetStopStiffness gzJoint nj)
             (GetStopDissipation gzJoint nj)
             (ign.Radian (GetLowerLimit gzJoint nj))
             (ign.Radian (GetUpperLimit gzJoint nj));
           MobilityLinearDamper h nj (GetDamping gzJoint nj);
           MobilityLinearSpring h nj (GetStiffness gzJoint nj)
             (GetSpringReferencePosition gzJoint nj) ])
      (if String.eqb type "universal" then [0%nat; 1%nat] else [0%nat]).
Proof.
  intros Hty H.
  apply mobilize_joint_inv in H as [_ [Hok | [Hno _]]].
  - destruct Hok as (_ & -> & _ & c & rest & Ht & _ & Hf & _).
    split; [reflexivity|].
    rewrite Ht, forces_of_app. cbn [forces_of]. rewrite Hf.
    f_equal. unfold controllable_axes, axis_forces.
    cbn in Hty. destruct Hty as [<-|[<-|[<-|[<-|[]]]]]; reflexivity.
  - exfalso. apply Hno. cbn in *. tauto.
Qed.

Lemma mobilize_joint_axis_forces_witness :
  let r := mobilize_joint Example.K Example.quiet "universal" 5%nat Example.cardan
             true (Mobod 1) (GetEffectiveMassProps 6%nat 1) Example.running in
  forces_of (trace (snd r)) =
    [ MobilityLinearStop (Mobod 1) 0 1.0e8 1 (-1) 1;
      MobilityLinearDamper (Mobod 1) 0 0;
      MobilityLinearSpring (Mobod 1) 0 0 0;
      MobilityLinearStop (Mobod 1) 1 1.0e8 1 (-1) 1;
      MobilityLinearDamper (Mobod 1) 1 0;
      MobilityLinearSpring (Mobod 1) 1 0 0 ].
Proof.
  intros r.
  destruct (mobilize_joint_axis_forces Example.K Example.quiet "universal" 5%nat
              Example.cardan true (Mobod 1) (GetEffectiveMassProps 6%nat 1)
              Example.running (Mobod 1) (snd r)) as [_ H].
  - cbn. tauto.
  - apply (run_outcome
             (mobilize_joint Example.K Example.quiet "universal" 5%nat Example.cardan
                true (Mobod 1) (GetEffectiveMassProps 6%nat 1))).
    vm_compute. reflexivity.
  - exact H.
Defined.

(** *** Running the steps on a solver that does not throw *)

Lemma call_ok B c s :
  throws B c = None -> call B c s = (Ret tt, set_trace (trace s ++ [c]) s).
Proof. unfold call. intros ->. reflexivity. Qed.

Lemma new_body_ok B c s :
  throws B (new_MobilizedBody c) = None ->
  new_body B c s =
    (Ret (Mobod (numMobods s)),
     set_numMobods (S (numMobods s))
       (set_trace (trace s ++ [new_MobilizedBody c]) s)).
Proof.
  intros Hc. unfold new_body.
  rewrite (bind_Ret_eq _ _ _ _ _ (call_ok _ _ _ Hc)). reflexivity.
Qed.

Lemma new_force_ok B f s :
  throws B (new_Force f) = None ->
  new_force B f s =
    (Ret (ForceIndex (numForces s)),
     set_numForces (S (numForces s))
       (set_trace (trace s ++ [new_Force f]) s)).
Proof.
  intros Hc. unfold new_force.
  rewrite (bind_Ret_eq _ _ _ _ _ (call_ok _ _ _ Hc)). reflexivity.
Qed.

Lemma update_joint_ok id f j s :
  joints s !! id = Some (Joint_Simbody j) ->
  update_joint id f s =
    (Ret tt, set_joints (<[id := Joint_Simbody (f j)]> (joints s)) s).
Proof.
  intros Hj. unfold update_joint, deref_SimbodyJoint, deref_joint, bind.
  rewrite Hj. reflexivity.
Qed.

Lemma attach_axis_forces_ok B id gzJoint h nj j s :
  (forall c, throws B c = None) ->
  joints s !! id = Some (Joint_Simbody j) ->
  exists s' j',
    attach_axis_forces B id gzJoint h nj s = (Ret tt, s') /\
    joints s' !! id = Some (Joint_Simbody j') /\
    trace s' = trace s ++ map new_Force (axis_forces gzJoint h nj) /\
    console s' = console s.
Proof.
  intros HB Hj. unfold attach_axis_forces.
  rewrite (bind_Ret_eq _ _ _ _ _ (new_force_ok _ _ _ (HB _))).
  erewrite (bind_Ret_eq (update_joint _ _));
    [|apply update_joint_ok; cbn; exact Hj].
  rewrite (bind_Ret_eq _ _ _ _ _ (new_force_ok _ _ _ (HB _))).
  erewrite (bind_Ret_eq (update_joint _ _));
    [|apply update_joint_ok; cbn; apply lookup_insert_eq].
  rewrite (bind_Ret_eq _ _ _ _ _ (new_force_ok _ _ _ (HB _))).
  erewrite update_joint_ok; [|cbn; apply lookup_insert_eq].
  eexists _, _. split; [reflexivity|]. cbn.
  split; [apply lookup_insert_eq|].
  split; [rewrite <- !app_assoc; reflexivity | reflexivity].
Qed.

(** C2: for a screw joint whose thread pitch is zero (more generally,
    which [ignition::math::equal] does not tell from zero), synthesis
    does not fail on a solver that does not throw. It writes the warning
    "thread pitch should not be zero" to the console (through gzerr),
    substitutes the pitch 1.0e6, and constructs a Screw mobilizer whose
    translation ratio is -1.0 / 1.0e6, a finite number and not NaN. *)
Theorem screw_zero_pitch_substituted
    K B id gzJoint pitch rev parent mp s :
  (forall c, throws B c = None) ->
  joints s !! id = Some (Joint_Simbody gzJoint) ->
  GetThreadPitch gzJoint = Some pitch ->
  ign.equal (pitch 0%nat) 0 = true ->
  exists s' rest,
    mobilize_joint K B "screw" id gzJoint rev parent mp s
      = (Ret (Mobod (numMobods s)), s') /\
    console s' =
      console s ++
      [ mkLog gzerr_level
          ("thread pitch should not be zero (joint is a slider?)"
           +:+ " using pitch = 1.0e6" +:+ nl);
        mkLog gzdbg_level
          ("Setting limitForce[0] for [" +:+ j_GetName gzJoint +:+ "]" +:+ nl) ] /\
    trace s' =
      trace s ++
      new_MobilizedBody
        (mkMobilizedBody (Screw (-1.0 / 1.0e6)%float) parent
           (align (X_IF0_of rev gzJoint) (Rotation_Axis (joint_axis gzJoint 0) ZAxis))
           mp
           (align (X_OM0_of rev gzJoint) (Rotation_Axis (joint_axis gzJoint 0) ZAxis))
           (direction_of rev))
      :: rest /\
    Forall (fun e => ~ is_new_MobilizedBody e) rest /\
    PrimFloat.is_finite (-1.0 / 1.0e6)%float = true /\
    PrimFloat.is_nan (-1.0 / 1.0e6)%float = false.
Proof.
  intros HB Hj HP EQ.
  unfold mobilize_joint. cbn [String.eqb Ascii.eqb Bool.eqb].
  rewrite HP. unfold bind at 1. cbn [ret].
  unfold bind at 1. rewrite EQ.
  unfold bind at 1. unfold gzerr at 1, log at 1, modify at 1. cbn [ret].
  rewrite (bind_Ret_eq _ _ _ _ _ (new_body_ok _ _ _ (HB _))).
  unfold bind at 1. unfold gzdbg at 1, log at 1, modify at 1.
  match goal with
  | |- context [bind (attach_axis_forces B id gzJoint ?h ?nj) _ ?st] =>
      destruct (attach_axis_forces_ok B id gzJoint h nj gzJoint st HB)
        as (s' & j' & Hrun & _ & Htr & Hco); [cbn; exact Hj|]
  end.
  rewrite (bind_Ret_eq _ _ _ _ _ Hrun). cbn [ret].
  exists s'. eexists. split; [reflexivity|].
  rewrite Hco, Htr. cbn -[PrimFloat.div String.append].
  split; [rewrite <- app_assoc; reflexivity|].
  split; [rewrite <- app_assoc; reflexivity|].
  split; [repeat constructor; cbn; tauto|].
  split; vm_compute; reflexivity.
Qed.

Lemma screw_zero_pitch_substituted_witness :
  ign.equal 0 0 = true /\
  exists s' rest,
    mobilize_joint Example.K Example.quiet "screw" 3%nat Example.screw false Ground
      (GetEffectiveMassProps 3%nat 1) Example.world0
      = (Ret (Mobod 1), s') /\
    trace s' =
      new_MobilizedBody
        (mkMobilizedBody (Screw (-1.0 / 1.0e6)%float) Ground
           (align (xPA Example.screw)
                  (Rotation_Axis (joint_axis Example.screw 0) ZAxis))
           (GetEffectiveMassProps 3%nat 1)
           (align (xCB Example.screw)
                  (Rotation_Axis (joint_axis Example.screw 0) ZAxis))
           Forward)
      :: rest /\
    PrimFloat.is_finite (-1.0 / 1.0e6)%float = true /\
    PrimFloat.is_nan (-1.0 / 1.0e6)%float = false.
Proof.
  split; [vm_compute; reflexivity|].
  destruct (screw_zero_pitch_substituted Example.K Example.quiet 3%nat
              Example.screw (fun _ => 0%float) false Ground
              (GetEffectiveMassProps 3%nat 1) Example.world0)
    as (s' & rest & Hrun & _ & Htr & _ & Hfin & Hnan).
  - reflexivity.
  - vm_compute. reflexivity.
  - reflexivity.
  - vm_compute. reflexivity.
  - exists s', rest. split; [exact Hrun|]. split; [exact Htr|]. split; assumption.
Defined.

(** ** InitModel *)

Ltac building_tac :=
  split; [reflexivity | split;
    [ reflexivity
    | first [ apply emits_same_trace; reflexivity
            | apply emits_call; exact I ] ]].

Lemma build_system_building K B _model :
  respects building (build_system K B _model).
Proof. unfold building. respects_with building_tac. Qed.

Lemma InitSimbodySystem_building B :
  respects building (InitSimbodySystem B).
Proof. unfold building. respects_with building_tac. Qed.

Lemma try_catch_gzthrow_Ret {A} (m : Sim A) (f : string -> string) s a s' :
  try_catch m (fun what => gzthrow (f what)) s = (Ret a, s') ->
  m s = (Ret a, s').
Proof.
  unfold try_catch. destruct (m s) as [[a'|[w|w|w]] s1]; intros H;
    first [exact H | discriminate H].
Qed.

(** C7: a [std::exception] thrown while the system is built (graph
    construction or model addition), or by InitSimbodySystem, leaves
    InitModel as a gazebo exception whose message is that of the original
    exception after the prefix "Simbody build EXCEPTION: " or "Simbody
    init EXCEPTION: ". The rebuild stops there: the state is the one at
    the throw, the integrator still holds its old state, and nothing but
    build calls has been made since the states were saved. *)
Theorem InitModel_rethrows_solver_exceptions K B _model s saved s1 :
  save_states B _model s = (Ret saved, s1) ->
  (forall what s2,
     build_system K B _model s1 = (Throw (std_exception what), s2) ->
     InitModel K B _model s =
       (Throw (common_Exception ("Simbody build EXCEPTION: " +:+ what)), s2) /\
     integ_getState s2 = integ_getState s1 /\
     exists evs, trace s2 = trace s1 ++ evs /\ Forall is_build_call evs) /\
  (forall what s2 s3,
     build_system K B _model s1 = (Ret tt, s2) ->
     InitSimbodySystem B s2 = (Throw (std_exception what), s3) ->
     InitModel K B _model s =
       (Throw (common_Exception ("Simbody init EXCEPTION: " +:+ what)), s3) /\
     integ_getState s3 = integ_getState s1 /\
     exists evs, trace s3 = trace s1 ++ evs /\ Forall is_build_call evs).
Proof.
  intros Hsave. split.
  - intros what s2 Hb. split.
    + unfold InitModel. rewrite (bind_Ret_eq _ _ _ _ _ Hsave).
      unfold bind at 1. unfold try_catch at 1. rewrite Hb. reflexivity.
    + apply build_system_building in Hb as (_ & Hi & He). auto.
  - intros what s2 s3 Hb Hi. split.
    + unfold InitModel. rewrite (bind_Ret_eq _ _ _ _ _ Hsave).
      unfold bind at 1. unfold try_catch at 1. rewrite Hb.
      unfold bind at 1. unfold try_catch at 1. rewrite Hi. reflexivity.
    + pose proof (PreOrder_Transitive (R := building) _ _ _
                    (build_system_building _ _ _ _ _ _ Hb)
                    (InitSimbodySystem_building _ _ _ _ Hi)) as (_ & Hk & He).
      auto.
Qed.

Lemma InitModel_rethrows_solver_exceptions_witness :
  fst (InitModel Example.K Example.failing_graph Example.arm Example.running)
    = Throw (common_Exception ("Simbody build EXCEPTION: " +:+ "no base body")) /\
  fst (InitModel Example.K Example.failing_gravity Example.arm Example.running)
    = Throw (common_Exception ("Simbody init EXCEPTION: " +:+ "bad gravity")).
Proof.
  split.
  - pose (s1 := snd (save_states Example.failing_graph Example.arm Example.running)).
    assert (Hsave : save_states Example.failing_graph Example.arm Example.running
                    = (Ret (2.5%float, true), s1))
      by (apply (run_outcome (save_states Example.failing_graph Example.arm));
          vm_compute; reflexivity).
    pose (s2 := snd (build_system Example.K Example.failing_graph Example.arm s1)).
    assert (Hbuild : build_system Example.K Example.failing_graph Example.arm s1
                     = (Throw (std_exception "no base body"), s2))
      by (apply (run_outcome (build_system Example.K Example.failing_graph Example.arm));
          vm_compute; reflexivity).
    pose proof (InitModel_rethrows_solver_exceptions Example.K Example.failing_graph
                  Example.arm Example.running _ s1 Hsave) as [H _].
    pose proof (H "no base body" s2 Hbuild) as [H1 _].
    exact (f_equal fst H1).
  - pose (s1 := snd (save_states Example.failing_gravity Example.arm Example.running)).
    assert (Hsave : save_states Example.failing_gravity Example.arm Example.running
                    = (Ret (2.5%float, true), s1))
      by (apply (run_outcome (save_states Example.failing_gravity Example.arm));
          vm_compute; reflexivity).
    pose (s2 := snd (build_system Example.K Example.failing_gravity Example.arm s1)).
    assert (Hbuild : build_system Example.K Example.failing_gravity Example.arm s1
                     = (Ret tt, s2))
      by (apply (run_outcome (build_system Example.K Example.failing_gravity Example.arm));
          vm_compute; reflexivity).
    pose (s3 := snd (InitSimbodySystem Example.failing_gravity s2)).
    assert (Hinit : InitSimbodySystem Example.failing_gravity s2
                    = (Throw (std_exception "bad gravity"), s3))
      by (apply (run_outcome (InitSimbodySystem Example.failing_gravity));
          vm_compute; reflexivity).
    pose proof (InitModel_rethrows_solver_exceptions Example.K Example.failing_gravity
                  Example.arm Example.running _ s1 Hsave) as [_ H].
    pose proof (H "bad gravity" s2 s3 Hbuild Hinit) as [H1 _].
    exact (f_equal fst H1).
Defined.

(** *** State transfer *)

Lemma set_trace_same s : set_trace (trace s ++ []) s = s.
Proof. destruct s. unfold set_trace. cbn. rewrite app_nil_r. reflexivity. Qed.

Lemma set_trace_twice a b s :
  set_trace (trace (set_trace (trace s ++ a) s) ++ b) (set_trace (trace s ++ a) s)
  = set_trace (trace s ++ a ++ b) s.
Proof. unfold set_trace. cbn. rewrite app_assoc. reflexivity. Qed.

Lemma for_each_appends {A} (body : A -> Sim unit) (ev : A -> list Call) :
  (forall x s u s', body x s = (Ret u, s') -> s' = set_trace (trace s ++ ev x) s) ->
  forall l s u s',
    for_each l body s = (Ret u, s') ->
    s' = set_trace (trace s ++ flat_map ev l) s.
Proof.
  intros Hb l. induction l as [|x l IH]; intros s u s' H; cbn [for_each] in H.
  - apply ret_inv in H as [_ ->]. cbn. symmetry. apply set_trace_same.
  - apply bind_Ret_inv in H as (u1 & s1 & H1 & H).
    apply Hb in H1. apply IH in H. subst. cbn [flat_map].
    apply set_trace_twice.
Qed.

Lemma flat_map_singleton {A C} (f : A -> C) l :
  flat_map (fun x => [f x]) l = map f l.
Proof. induction l as [|x l IH]; cbn; rewrite ?IH; reflexivity. Qed.

Lemma for_each_calls {A} (body : A -> Sim unit) (ev : A -> Call) :
  (forall x s u s', body x s = (Ret u, s') -> s' = set_trace (trace s ++ [ev x]) s) ->
  forall l s u s',
    for_each l body s = (Ret u, s') ->
    s' = set_trace (trace s ++ map ev l) s.
Proof.
  intros Hb l s u s' H.
  apply (for_each_appends body (fun x => [ev x]) Hb) in H.
  rewrite flat_map_singleton in H. exact H.
Qed.

Lemma Stage_eqb_Empty st : Stage_eqb st Empty = true <-> st = Empty.
Proof. destruct st; cbn; split; intros H; congruence. Qed.

(** *** Capturing *)

Lemma captured_members_app cur a b m :
  captured_members cur (a ++ b) m = captured_members cur b (captured_members cur a m).
Proof. apply fold_left_app. Qed.

Lemma captures_refl cur s : captures cur [] s s.
Proof. unfold captures. cbn. rewrite app_nil_r. auto. Qed.

Lemma captures_app cur a b s1 s2 s3 :
  captures cur a s1 s2 -> captures cur b s2 s3 -> captures cur (a ++ b) s1 s3.
Proof.
  intros (T1 & Q1 & M1 & I1) (T2 & Q2 & M2 & I2). unfold captures.
  rewrite T2, T1, Q2, Q1, M2, M1, I2, I1, map_app, captured_members_app, app_assoc.
  auto.
Qed.

Lemma for_each_captures {A} cur (body : A -> Sim unit) (own : A -> list StateOwner) :
  (forall x s u s', body x s = (Ret u, s') -> captures cur (own x) s s') ->
  forall l s u s',
    for_each l body s = (Ret u, s') -> captures cur (flat_map own l) s s'.
Proof.
  intros Hb l. induction l as [|x l IH]; intros s u s' H; cbn [for_each] in H.
  - apply ret_inv in H as [_ ->]. apply captures_refl.
  - apply bind_Ret_inv in H as (u1 & s1 & H1 & H). cbn [flat_map].
    eapply captures_app; [eapply Hb, H1 | eapply IH, H].
Qed.

Lemma flat_map_map_singleton {A C} (f : A -> C) l :
  flat_map (fun x => [f x]) l = map f l.
Proof. induction l as [|x l IH]; cbn; rewrite ?IH; reflexivity. Qed.

Lemma captured_other_owners cur _model models :
  captured cur _model models
  = map (fun o => SaveSimbodyState o cur) (other_owners _model models).
Proof.
  unfold captured, other_owners.
  induction models as [|mi models IH]; [reflexivity|].
  cbn [flat_map]. rewrite map_app, IH. f_equal.
  destruct (Nat.eqb (model_id mi) (model_id _model)); [reflexivity|].
  unfold owners_of. rewrite map_app, !map_map. reflexivity.
Qed.

Lemma save_states_inv B _model s saved s1 :
  save_states B _model s = (Ret saved, s1) ->
  let cur := integ_getState s in
  (getSystemStage cur <> Empty /\ saved = (getTime cur, true) /\
   captures cur (other_owners _model (world_GetModels s)) s s1)
  \/ (getSystemStage cur = Empty /\ saved = (0%float, false) /\ s1 = s).
Proof.
  intros H cur. unfold save_states in H.
  apply bind_Ret_inv in H as (c & s0 & H0 & H).
  apply gets_inv in H0 as [-> ->]. fold cur in H.
  destruct (Stage_eqb (getSystemStage cur) Empty) eqn:E; cbn [negb] in H.
  - right. apply Stage_eqb_Empty in E. apply ret_inv in H as [-> ->]. auto.
  - left. split.
    { intros Hc. apply Stage_eqb_Empty in Hc. congruence. }
    apply bind_Ret_inv in H as (ms & s0 & H0 & H).
    apply gets_inv in H0 as [-> ->].
    apply bind_Ret_inv in H as (u & s2 & Hloop & H).
    apply ret_inv in H as [-> ->]. split; [reflexivity|].
    revert Hloop. unfold other_owners. apply for_each_captures.
    intros mi t u' t' Hmi.
    destruct (Nat.eqb (model_id mi) (model_id _model)); cbn [negb] in Hmi.
    + apply ret_inv in Hmi as [_ ->]. apply captures_refl.
    + apply bind_Ret_inv in Hmi as (u1 & t1 & Hj & Hl).
      unfold owners_of. rewrite <- !flat_map_map_singleton.
      eapply captures_app; [eapply for_each_captures, Hj | eapply for_each_captures, Hl].
      * intros jx a b c' Hs. unfold save_joint in Hs. sim_inv.
        unfold captures. cbn. auto.
      * intros lx a b c' Hs. unfold save_link in Hs. sim_inv.
        unfold captures. cbn. auto.
Qed.

Lemma captured_members_cons cur x owners m :
  captured_members cur (x :: owners) m
  = captured_members cur owners (SaveSimbodyState_members x cur m).
Proof. reflexivity. Qed.

Lemma restored_state_cons members x owners st :
  restored_state members (x :: owners) st
  = restored_state members owners (RestoreSimbodyState_state x members st).
Proof. reflexivity. Qed.

Lemma captured_members_other cur owners o : forall m,
  ~ In o owners -> captured_members cur owners m !! o = m !! o.
Proof.
  induction owners as [|x owners IH]; intros m Hn; [reflexivity|].
  rewrite captured_members_cons, IH by (intros Hin; apply Hn; right; exact Hin).
  unfold SaveSimbodyState_members. destruct (getQU cur !! x); [|reflexivity].
  apply lookup_insert_ne. intros ->. apply Hn. left. reflexivity.
Qed.

Lemma captured_members_captured cur owners o v : forall m,
  In o owners -> getQU cur !! o = Some v ->
  captured_members cur owners m !! o = Some v.
Proof.
  induction owners as [|x owners IH]; intros m Hin Hv; [destruct Hin|].
  rewrite captured_members_cons. destruct (in_dec (decide_rel eq) o owners) as [Hr|Hr].
  - apply IH; assumption.
  - destruct Hin as [->|Hin]; [|contradiction].
    rewrite captured_members_other by exact Hr.
    unfold SaveSimbodyState_members. rewrite Hv. apply lookup_insert_eq.
Qed.

(** *** Restoring *)

Lemma restored_app members a b st :
  restored members (a ++ b) st
  = restored members a st ++ restored members b (restored_state members a st).
Proof.
  revert st. induction a as [|o a IH]; intros st; [reflexivity|].
  cbn. rewrite IH. reflexivity.
Qed.

Lemma restored_state_app members a b st :
  restored_state members (a ++ b) st
  = restored_state members b (restored_state members a st).
Proof. apply fold_left_app. Qed.

Lemma fold_each_restores {A} members (body : State -> A -> Sim State)
    (own : A -> list StateOwner) :
  (forall st x s st' s',
     simbodyQU s = members -> body st x s = (Ret st', s') ->
     st' = restored_state members (own x) st /\
     s' = set_trace (trace s ++ restored members (own x) st) s) ->
  forall l st s st' s',
    simbodyQU s = members -> fold_each l body st s = (Ret st', s') ->
    st' = restored_state members (flat_map own l) st /\
    s' = set_trace (trace s ++ restored members (flat_map own l) st) s.
Proof.
  intros Hb l. induction l as [|x l IH]; intros st s st' s' Hm H;
    cbn [fold_each] in H.
  - apply ret_inv in H as [-> ->]. cbn. split; [reflexivity|].
    symmetry. apply set_trace_same.
  - apply bind_Ret_inv in H as (st1 & s1 & H1 & H).
    apply (Hb _ _ _ _ _ Hm) in H1 as [-> ->].
    apply IH in H as [-> ->]; [|exact Hm].
    cbn [flat_map]. rewrite restored_state_app, restored_app.
    split; [reflexivity | apply set_trace_twice].
Qed.

Lemma restore_states_inv B stateTime state s state' s' :
  restore_states B stateTime state s = (Ret state', s') ->
  let owners := all_owners (world_GetModels s) in
  let timed := setTime stateTime state in
  state' = restored_state (simbodyQU s) owners timed /\
  s' = set_trace
         (trace s ++ State_setTime stateTime
                     :: restored (simbodyQU s) owners timed) s.
Proof.
  intros H owners timed. unfold restore_states in H.
  apply bind_Ret_inv in H as (u0 & s0 & H0 & H).
  apply call_Ret_inv in H0 as [_ ->].
  apply bind_Ret_inv in H as (ms & s1 & H1 & H).
  apply gets_inv in H1 as [-> ->].
  apply (fold_each_restores (simbodyQU s) _ owners_of) in H.
  - destruct H as [-> ->]. split; [reflexivity|].
    apply (set_trace_twice [State_setTime stateTime]).
  - intros st mi t st' t' Hm Hmi.
    apply bind_Ret_inv in Hmi as (st1 & t1 & Hj & Hl).
    apply (fold_each_restores (simbodyQU s) _ (fun jx => [OfJoint jx]))
      in Hj; [|clear; intros st0 jx a st0' a' Hm Hs|exact Hm].
    2:{ unfold restore_joint in Hs. sim_inv. cbn. rewrite Hm. auto. }
    destruct Hj as [-> ->].
    apply (fold_each_restores (simbodyQU s) _ (fun lx => [OfLink lx]))
      in Hl; [|clear; intros st0 lx a st0' a' Hm Hs|exact Hm].
    2:{ unfold restore_link in Hs. sim_inv. cbn. rewrite Hm. auto. }
    destruct Hl as [-> ->].
    unfold owners_of. rewrite <- !flat_map_map_singleton.
    rewrite restored_state_app, restored_app.
    split; [reflexivity | apply set_trace_twice].
  - reflexivity.
Qed.

Lemma restored_state_time members owners : forall st,
  getTime (restored_state members owners st) = getTime st /\
  getSystemStage (restored_state members owners st) = getSystemStage st.
Proof.
  induction owners as [|o owners IH]; intros st; [auto|].
  rewrite restored_state_cons. destruct (IH (RestoreSimbodyState_state o members st)) as [-> ->].
  unfold RestoreSimbodyState_state. destruct (members !! o); auto.
Qed.

Lemma restored_state_untouched members owners o : forall st,
  ~ In o owners \/ members !! o = None ->
  getQU (restored_state members owners st) !! o = getQU st !! o.
Proof.
  induction owners as [|x owners IH]; intros st Hn; [reflexivity|].
  rewrite restored_state_cons, IH.
  - unfold RestoreSimbodyState_state. destruct (members !! x) eqn:E; [|reflexivity].
    cbn. apply lookup_insert_ne. intros ->.
    destruct Hn as [Hn|Hn]; [apply Hn; left; reflexivity | congruence].
  - destruct Hn as [Hn|Hn]; [left; intros Hin; apply Hn; right; exact Hin|].
    right. exact Hn.
Qed.

Lemma restored_state_restored members owners o v : forall st,
  In o owners -> members !! o = Some v ->
  getQU (restored_state members owners st) !! o = Some v.
Proof.
  induction owners as [|x owners IH]; intros st Hin Hv; [destruct Hin|].
  rewrite restored_state_cons. destruct (in_dec (decide_rel eq) o owners) as [Hr|Hr].
  - apply IH; assumption.
  - destruct Hin as [->|Hin]; [|contradiction].
    rewrite restored_state_untouched by (left; exact Hr).
    unfold RestoreSimbodyState_state. rewrite Hv. cbn. apply lookup_insert_eq.
Qed.

Lemma other_owners_all _model models o :
  In o (other_owners _model models) -> In o (all_owners models).
Proof.
  unfold other_owners, all_owners. rewrite !in_flat_map.
  intros (mi & Hmi & Ho). exists mi. split; [exact Hmi|].
  destruct (Nat.eqb (model_id mi) (model_id _model)); [destruct Ho | exact Ho].
Qed.

(** *** The flags and the captured values are left alone *)

Lemma mark_links_marking l :
  respects marking (for_each l mark_link_initialized).
Proof. unfold marking. respects_with ltac:(split; reflexivity). Qed.

Lemma mark_joints_marking l :
  respects marking (for_each l mark_joint_initialized).
Proof. unfold marking. respects_with ltac:(split; reflexivity). Qed.

Lemma mark_links_members l :
  respects (keeps simbodyQU) (for_each l mark_link_initialized).
Proof. respects_with ltac:(reflexivity). Qed.

Lemma mark_joints_members l :
  respects (keeps simbodyQU) (for_each l mark_joint_initialized).
Proof. respects_with ltac:(reflexivity). Qed.

Lemma build_system_members K B _model :
  respects (keeps simbodyQU) (build_system K B _model).
Proof. respects_with ltac:(reflexivity). Qed.

Lemma InitSimbodySystem_members B :
  respects (keeps simbodyQU) (InitSimbodySystem B).
Proof. respects_with ltac:(reflexivity). Qed.

Lemma captured_covers cur _model models mi :
  In mi models -> model_id mi <> model_id _model ->
  (forall jx, In jx (GetJoints mi) ->
     In (SaveSimbodyState (OfJoint jx) cur) (captured cur _model models)) /\
  (forall lx, In lx (GetLinks mi) ->
     In (SaveSimbodyState (OfLink lx) cur) (captured cur _model models)).
Proof.
  intros Hmi Hne. unfold captured.
  split; intros x Hx; apply in_flat_map; exists mi; (split; [exact Hmi|]);
    (destruct (Nat.eqb_spec (model_id mi) (model_id _model)) as [E|_];
     [contradiction|]);
    apply in_or_app; [left | right].
  - exact (in_map (fun y => SaveSimbodyState (OfJoint y) cur) _ _ Hx).
  - exact (in_map (fun y => SaveSimbodyState (OfLink y) cur) _ _ Hx).
Qed.

(** C1: when InitModel returns and the integrator held a state (its
    stage is not Empty), the calls it has made are, in this order: the
    capture of the state of every joint and every link of every model
    other than the one being built, from the state the integrator held;
    then the calls that build the system; then realizeTopology; then the
    saved time written into the new state and the restore of every joint
    and link of every model, each into the state its predecessors have
    left; and last the initialisation of the integrator with the state
    the last restore has left. That state has the saved time, and for
    every joint and link of another model it holds the coordinates and
    speeds the old state held for it; where nothing has been captured it
    is as realizeTopology returned it. (A joint or link of the model
    being built is restored as well, from what it captured at an earlier
    rebuild, if anything.) When the stage is Empty there is no capture
    and no restore: after the build calls come realizeTopology and the
    initialisation with the default state it returned, and nothing has
    been captured. *)
Theorem InitModel_transfers_state K B _model s s' :
  InitModel K B _model s = (Ret tt, s') ->
  let cur := integ_getState s in
  let models := world_GetModels s in
  let default := realizeTopology_result B in
  let others := other_owners _model models in
  let members := captured_members cur others (simbodyQU s) in
  let timed := setTime (getTime cur) default in
  let new := restored_state members (all_owners models) timed in
  exists build,
    Forall is_build_call build /\
    (getSystemStage cur <> Empty ->
     trace s' =
       trace s ++ captured cur _model models ++ build
       ++ [realizeTopology; State_setTime (getTime cur)]
       ++ restored members (all_owners models) timed
       ++ [integ_initialize new] /\
     integ_getState s' = initialize_result B new /\
     simbodyQU s' = members /\
     getTime new = getTime cur /\
     (forall o v, In o others -> getQU cur !! o = Some v ->
                  getQU new !! o = Some v) /\
     (forall o, members !! o = None -> getQU new !! o = getQU default !! o) /\
     (forall o, ~ In o others -> members !! o = simbodyQU s !! o)) /\
    (getSystemStage cur = Empty ->
     trace s' = trace s ++ build ++ [realizeTopology; integ_initialize default] /\
     integ_getState s' = initialize_result B default /\
     simbodyQU s' = simbodyQU s) /\
    (forall mi, In mi models -> model_id mi <> model_id _model ->
       (forall jx, In jx (GetJoints mi) ->
          In (SaveSimbodyState (OfJoint jx) cur) (captured cur _model models)) /\
       (forall lx, In lx (GetLinks mi) ->
          In (SaveSimbodyState (OfLink lx) cur) (captured cur _model models))).
Proof.
  intros H cur models default others members timed new. unfold InitModel in H.
  apply bind_Ret_inv in H as (saved & s1 & Hsave & H).
  apply bind_Ret_inv in H as (u1 & s2 & Hb & H).
  apply (try_catch_gzthrow_Ret _ (fun w => "Simbody build EXCEPTION: " +:+ w)) in Hb.
  apply bind_Ret_inv in H as (u2 & s3 & Hi & H).
  apply (try_catch_gzthrow_Ret _ (fun w => "Simbody init EXCEPTION: " +:+ w)) in Hi.
  pose proof (build_system_members _ _ _ _ _ _ Hb) as Hq2.
  pose proof (InitSimbodySystem_members _ _ _ _ Hi) as Hq3.
  apply build_system_building in Hb as (Hm2 & Hg2 & e2 & Ht2 & Hf2).
  apply InitSimbodySystem_building in Hi as (Hm3 & Hg3 & e3 & Ht3 & Hf3).
  unfold keeps in *.
  unfold finish_init in H.
  apply bind_Ret_inv in H as (u3 & s4 & Hr & H). apply call_Ret_inv in Hr as [_ ->].
  apply bind_Ret_inv in H as (state & s5 & Hrs & H).
  apply bind_Ret_inv in H as (u4 & s6 & Hc & H). apply call_Ret_inv in Hc as [_ ->].
  apply bind_Ret_inv in H as (u5 & s7 & Hmod & H). apply modify_inv in Hmod as ->.
  apply bind_Ret_inv in H as (u6 & s8 & Hml & H).
  pose proof (mark_links_members _ _ _ _ Hml) as Hq8.
  apply mark_links_marking in Hml as [Hk1 Hk2].
  apply bind_Ret_inv in H as (u7 & s9 & Hmj & H).
  pose proof (mark_joints_members _ _ _ _ Hmj) as Hq9.
  apply mark_joints_marking in Hmj as [Hk3 Hk4].
  apply modify_inv in H as ->. unfold keeps in *.
  cbn [trace integ_getState simbodyQU set_simbodyPhysicsInitialized].
  rewrite Hk3, Hk1, Hk4, Hk2, Hq9, Hq8.
  cbn [trace integ_getState simbodyQU set_integ_getState set_trace].
  exists (e2 ++ e3). split; [apply Forall_app; auto|].
  apply save_states_inv in Hsave as [(Hne & -> & Hcap) | (He & -> & ->)];
    fold cur in Hne || fold cur in He; cbn [fst snd] in Hrs.
  - destruct Hcap as (Ht1 & Hq1 & Hm1 & _). fold cur models others members in Hq1.
    apply restore_states_inv in Hrs. cbv zeta in Hrs.
    cbn [trace set_trace world_GetModels simbodyQU] in Hrs.
    rewrite Hq3, Hq2, Hq1, Hm3, Hm2, Hm1 in Hrs. fold models default timed new in Hrs.
    destruct Hrs as [-> ->].
    cbn [trace set_trace simbodyQU].
    split; [|split; [intros He; contradiction | apply captured_covers]].
    intros _.
    split.
    { rewrite Ht3, Ht2, Ht1, captured_other_owners. fold models others.
      rewrite <- !app_assoc. reflexivity. }
    split; [reflexivity|].
    split; [rewrite Hq3, Hq2; exact Hq1|].
    split; [unfold new; rewrite (proj1 (restored_state_time _ _ _)); reflexivity|].
    split; [|split].
    + intros o v Ho Hv. apply restored_state_restored.
      * eapply other_owners_all, Ho.
      * apply captured_members_captured; assumption.
    + intros o Hnone. unfold new. rewrite restored_state_untouched by (right; exact Hnone).
      reflexivity.
    + intros o Hn. apply captured_members_other, Hn.
  - apply ret_inv in Hrs as [-> ->].
    cbn [trace set_trace simbodyQU] in *.
    split; [intros Hne; contradiction|].
    split; [|apply captured_covers].
    intros _. rewrite Ht3, Ht2. fold default.
    split; [rewrite <- !app_assoc; reflexivity|].
    split; [reflexivity | rewrite Hq3, Hq2; reflexivity].
Qed.

Lemma InitModel_transfers_state_witness :
  let r := InitModel Example.K Example.quiet Example.arm Example.running in
  let cur := integ_getState Example.running in
  let new := mkState Topology 2.5
               (<[OfJoint 1 := mkQU [0.125%float] [0%float]]>
                (<[OfJoint 3 := mkQU [0.25%float] [2%float]]>
                 (<[OfLink 3 := mkQU [3%float] [0%float]]> ∅))) in
  getSystemStage cur <> Empty /\
  In (SaveSimbodyState (OfJoint 3) cur) (trace (snd r)) /\
  In (RestoreSimbodyState (OfJoint 3)
        (mkState Topology 2.5 (<[OfJoint 1 := mkQU [0.125%float] [0%float]]> ∅)))
     (trace (snd r)) /\
  List.last (trace (snd r)) realizeTopology = integ_initialize new /\
  integ_getState (snd r) = mkState Instance 2.5 (getQU new) /\
  getQU new !! OfJoint 3 = getQU cur !! OfJoint 3 /\
  getQU new !! OfLink 3 = getQU cur !! OfLink 3 /\
  getQU new !! OfLink 6 = None.
Proof.
  intros r cur new. subst cur.
  destruct (InitModel_transfers_state Example.K Example.quiet Example.arm
              Example.running (snd r)) as (build & HF & Hne & _).
  - apply (run_outcome (InitModel Example.K Example.quiet Example.arm)).
    vm_compute. reflexivity.
  - assert (Hstage : getSystemStage (integ_getState Example.running) <> Empty)
      by discriminate.
    destruct (Hne Hstage) as (Ht & Hi & _ & _ & Hcap & Hdef & _).
    split; [exact Hstage|].
    assert (Hnew : restored_state
                     (captured_members (integ_getState Example.running)
                        (other_owners Example.arm (world_GetModels Example.running))
                        (simbodyQU Example.running))
                     (all_owners (world_GetModels Example.running))
                     (setTime (getTime (integ_getState Example.running))
                        (realizeTopology_result Example.quiet))
                   = new) by (vm_compute; reflexivity).
    rewrite Hnew in Ht, Hi, Hcap, Hdef.
    split; [rewrite Ht; vm_compute; tauto|].
    split.
    { rewrite Ht. do 4 (apply List.in_or_app; right). apply List.in_or_app; left.
      vm_compute. tauto. }
    split; [rewrite Ht, !app_assoc; apply last_last|].
    split; [rewrite Hi; reflexivity|].
    split; [symmetry; apply (Hcap (OfJoint 3)); [vm_compute; tauto | reflexivity]|].
    split; [symmetry; apply (Hcap (OfLink 3)); [vm_compute; tauto | reflexivity]|].
    rewrite (Hdef (OfLink 6)); [reflexivity | vm_compute; reflexivity].
Defined.

(** * Further properties of the construction *)

Import Bookkeeping.

(** ** The loop body of AddDynamicModelToSimbodySystem, step by step *)

Lemma AddCollisionsToLink_keeps K B _link _mobod _modelClique :
  respects (both (keeps links) (both (keeps joints) (emits is_addContactSurface)))
    (AddCollisionsToLink K B _link _mobod _modelClique).
Proof.
  respects_with ltac:(split; [reflexivity | split;
    [ reflexivity
    | first [ apply emits_same_trace; reflexivity
            | apply emits_call; exact I ] ]]).
Qed.

Lemma mobilize_added_base_inv B type gzInb outb parent mp s h s' :
  mobilize_added_base B type gzInb outb parent mp s = (Ret h, s') ->
  links s' = links s /\ joints s' = joints s /\ console s' = console s /\
  ((type = "free" /\ h = Mobod (numMobods s) /\
    numMobods s' = S (numMobods s) /\
    exists X_inb,
      trace s' =
        trace s ++
        [ new_MobilizedBody
            (mkMobilizedBody Free parent Transform_Identity mp
                             Transform_Identity Forward);
          setDefaultTransform h
            (Transform_Mul (Transform_Inv X_inb)
                           (Pose2Transform (l_GetRelativePose outb))) ] /\
      match gzInb with
      | None =>
          X_inb = Transform_Inv (Pose2Transform (GetParentModel_WorldPose outb))
      | Some inb =>
          exists l, links s !! inb = Some (Link_Simbody l) /\
                    X_inb = Pose2Transform (l_GetRelativePose l)
      end)
   \/ (type <> "free" /\ h = EmptyHandle /\ s' = s)).
Proof.
  unfold mobilize_added_base. intros H.
  destruct (String.eqb type "free") eqn:E.
  - apply String.eqb_eq in E. subst type.
    apply bind_Ret_inv in H as (f & s1 & Hb & H).
    apply new_body_inv in Hb as [-> ->].
    apply bind_Ret_inv in H as (X & s2 & HX & H).
    assert (s2 = set_numMobods (S (numMobods s))
                   (set_trace (trace s ++
                      [new_MobilizedBody
                         (mkMobilizedBody Free parent Transform_Identity mp
                                          Transform_Identity Forward)]) s)
            /\ match gzInb with
               | None =>
                   X = Transform_Inv (Pose2Transform (GetParentModel_WorldPose outb))
               | Some inb =>
                   exists l, links s !! inb = Some (Link_Simbody l) /\
                             X = Pose2Transform (l_GetRelativePose l)
               end) as [-> HXv].
    { destruct gzInb; sim_inv; cbn in *; eauto. }
    sim_inv. cbn. repeat split. left. repeat split.
    exists X. split; [rewrite <- app_assoc; reflexivity | exact HXv].
  - apply String.eqb_neq in E. apply ret_inv in H as [-> ->].
    repeat split. right. auto.
Qed.

Lemma AddCollisionsToLink_counters K B _link _mobod _modelClique :
  respects (both (keeps numMobods) (both (keeps numForces) (keeps numCliques)))
    (AddCollisionsToLink K B _link _mobod _modelClique).
Proof.
  respects_with ltac:(split; [reflexivity | split; reflexivity]).
Qed.

(** The loop body in full, when it returns: the outboard link and the
    parent body are looked up, the body is synthesised (for an input
    joint the handle and the reversed flag are then written to the
    joint), the handle is recorded on the outboard link, and the link's
    collisions are attached to it. *)
Lemma AddMobilizer_steps K B modelClique mob s s' :
  AddMobilizer K B modelClique mob s = (Ret tt, s') ->
  let type := getJointTypeName mob in
  let gzOutb := getOutboardMasterBodyRef mob in
  let mp := GetEffectiveMassProps gzOutb (getNumFragments mob) in
  let rev := isReversedFromJoint mob in
  exists outb parent h s1,
    links s !! gzOutb = Some (Link_Simbody outb) /\
    match getInboardBodyRef mob with
    | None => parent = Ground
    | Some inb =>
        exists l, links s !! inb = Some (Link_Simbody l) /\ parent = masterMobod l
    end /\
    (if isAddedBaseMobilizer mob then
       mobilize_added_base B type (getInboardBodyRef mob) outb parent mp s
       = (Ret h, s1)
     else
       exists id gzJoint s0 j0,
         getJointRef mob = Some id /\
         joints s !! id = Some (Joint_Simbody gzJoint) /\
         mobilize_joint K B type id gzJoint rev parent mp s = (Ret h, s0) /\
         joints s0 !! id = Some (Joint_Simbody j0) /\
         s1 = set_joints
                (<[id := Joint_Simbody (set_isReversed rev (set_mobod h j0))]>
                   (joints s0)) s0) /\
    links s1 = links s /\
    AddCollisionsToLink K B gzOutb h modelClique
      (set_links
         (<[gzOutb :=
              Link_Simbody
                (if isSlaveMobilizer mob
                 then set_slaveMobods (slaveMobods outb ++ [h]) outb
                 else set_masterMobod h outb)]> (links s)) s1)
    = (Ret tt, s').
Proof.
  intros H type gzOutb mp rev. unfold AddMobilizer in H.
  apply bind_Ret_inv in H as (outb & s0 & H0 & H).
  apply deref_SimbodyLink_inv in H0 as [Houtb ->].
  apply bind_Ret_inv in H as (parent & s0 & H0 & H).
  assert (s0 = s /\
          match getInboardBodyRef mob with
          | None => parent = Ground
          | Some inb =>
              exists l, links s !! inb = Some (Link_Simbody l) /\
                        parent = masterMobod l
          end) as [-> Hparent].
  { destruct (getInboardBodyRef mob); sim_inv; eauto. }
  clear H0.
  apply bind_Ret_inv in H as (h & s1 & Hm & H).
  apply bind_Ret_inv in H as (u & s2 & Hl & H).
  exists outb, parent, h, s1.
  split; [exact Houtb|]. split; [exact Hparent|].
  assert (Hsyn :
    (if isAddedBaseMobilizer mob then
       mobilize_added_base B type (getInboardBodyRef mob) outb parent mp s
       = (Ret h, s1)
     else
       exists id gzJoint s0 j0,
         getJointRef mob = Some id /\
         joints s !! id = Some (Joint_Simbody gzJoint) /\
         mobilize_joint K B type id gzJoint rev parent mp s = (Ret h, s0) /\
         joints s0 !! id = Some (Joint_Simbody j0) /\
         s1 = set_joints
                (<[id := Joint_Simbody (set_isReversed rev (set_mobod h j0))]>
                   (joints s0)) s0) /\
    links s1 = links s).
  { destruct (isAddedBaseMobilizer mob).
    - split; [exact Hm|].
      apply mobilize_added_base_inv in Hm as (Hk & _). exact Hk.
    - destruct (getJointRef mob) as [id|]; [|discriminate Hm].
      apply bind_Ret_inv in Hm as (gz & s0 & H0 & Hm).
      apply deref_SimbodyJoint_inv in H0 as [H0 ->].
      apply bind_Ret_inv in Hm as (h' & s3 & Hmj & Hm).
      apply bind_Ret_inv in Hm as (u1 & s4 & Hu1 & Hm).
      apply update_joint_inv in Hu1 as (j1 & Hj1 & ->).
      apply bind_Ret_inv in Hm as (u2 & s5 & Hu2 & Hm).
      apply update_joint_inv in Hu2 as (j2 & Hj2 & ->).
      apply ret_inv in Hm as [-> ->].
      cbn in Hj2. rewrite lookup_insert_eq in Hj2. injection Hj2 as <-.
      split.
      + exists id, gz, s3, j1. repeat split; auto.
        cbn. rewrite insert_insert_eq. destruct s3; reflexivity.
      + cbn. apply mobilize_joint_inv in Hmj as [Hk _]. exact Hk. }
  destruct Hsyn as [Hsyn Hlinks].
  split; [exact Hsyn|]. split; [exact Hlinks|].
  rewrite <- H. f_equal.
  destruct (isSlaveMobilizer mob);
    apply update_link_inv in Hl as (l & Hl1 & ->);
    rewrite Hlinks in Hl1 |- *; unfold gzOutb in *;
    rewrite Houtb in Hl1; injection Hl1 as <-; reflexivity.
Qed.

#[local] Instance console_grows_PreOrder : PreOrder console_grows.
Proof.
  split.
  - intros s. exists []. symmetry. apply app_nil_r.
  - intros a b c [m1 H1] [m2 H2]. exists (m1 ++ m2).
    rewrite H2, H1. symmetry. apply app_assoc.
Qed.

Lemma console_grows_same s s' : console s' = console s -> console_grows s s'.
Proof. intros H. exists []. rewrite H. symmetry. apply app_nil_r. Qed.

Lemma console_grows_In msg s s' :
  console_grows s s' -> In msg (console s) -> In msg (console s').
Proof. intros [m ->] H. apply in_or_app. left. exact H. Qed.

Lemma AddCollisionsToLink_console K B _link _mobod _modelClique :
  respects console_grows (AddCollisionsToLink K B _link _mobod _modelClique).
Proof.
  respects_with ltac:(first
    [ apply console_grows_same; reflexivity
    | eexists; reflexivity ]).
Qed.

(** The calls of AddCollisionsToLink on a link that is there. *)
Lemma AddCollisionsToLink_rule K B _link link _mobod _modelClique s o s' :
  links s !! _link = Some (Link_Simbody link) ->
  AddCollisionsToLink K B _link _mobod _modelClique s = (o, s') ->
  emits (surface_rule _mobod _modelClique
           (isValid _modelClique && negb (GetSelfCollide link))) s s'.
Proof.
  intros Hl H. unfold AddCollisionsToLink in H.
  unfold bind at 1 in H. cbn [gets] in H.
  unfold bind at 1 in H. unfold deref_SimbodyLink, bind, deref_link in H.
  rewrite Hl in H. cbn [ret] in H.
  revert H. apply respects_for_each; [typeclasses eauto|].
  intros ci. apply AddCollisionsToLink_shape_emits.
Qed.

Lemma bodies_of_app a b : bodies_of (a ++ b) = bodies_of a ++ bodies_of b.
Proof.
  induction a as [|c a IH]; [reflexivity|].
  destruct c; cbn; rewrite ?IH; reflexivity.
Qed.

Lemma bodies_of_none tr :
  Forall (fun e => ~ is_new_MobilizedBody e) tr -> bodies_of tr = [].
Proof.
  induction 1 as [|c tr Hc _ IH]; [reflexivity|].
  destruct c; cbn in *; try exact IH. tauto.
Qed.

Lemma surfaces_no_body tr :
  Forall is_addContactSurface tr -> bodies_of tr = [].
Proof.
  intros H. apply bodies_of_none. eapply Forall_impl; [exact H|].
  intros []; cbn; tauto.
Qed.

Lemma surface_rule_surface b c j tr :
  Forall (surface_rule b c j) tr -> Forall is_addContactSurface tr.
Proof.
  intros H. eapply Forall_impl; [exact H|]. intros []; cbn; tauto.
Qed.

Lemma surface_rule_attaches b c j tr :
  Forall (surface_rule b c j) tr -> Forall (attaches_to [b; Ground]) tr.
Proof.
  intros H. eapply Forall_impl; [exact H|].
  intros []; cbn; try tauto.
  unfold is_ground_halfspace. intros [[(-> & _) _]|[-> _]]; auto.
Qed.

(** The last branch of the chain on [type], as an equation. *)
Lemma mobilize_joint_unimplemented K B type id gzJoint rev parent mp s :
  ~ In type implemented_types ->
  mobilize_joint K B type id gzJoint rev parent mp s =
  (Ret EmptyHandle,
   set_console
     (console s ++
      [mkLog gzerr_level
         ("Simbody joint type [" +:+ type +:+ "] not implemented." +:+ nl)]) s).
Proof.
  intros Hn. unfold mobilize_joint.
  repeat match goal with
         | |- context [String.eqb type ?n] =>
             destruct (String.eqb_spec type n) as [->|_];
             [exfalso; apply Hn; cbn; tauto|]
         end.
  reflexivity.
Qed.

(** ** Joint types the builder does not implement *)

(** X1: for a mobilizer of an input joint whose type name is none of free,
    screw, universal, revolute, prismatic, ball (revolute2, which is
    registered with the graph maker, is one), the loop body constructs no
    body and no force element. It reports the type on the error console,
    writes the empty handle and the reversed flag to the joint, records
    the empty handle on the outboard link (as master body, or among the
    slave bodies), and still attaches the link's contact surfaces: to
    that empty handle, or to Ground. *)
Theorem AddMobilizer_unimplemented_type K B modelClique mob id s s' :
  AddMobilizer K B modelClique mob s = (Ret tt, s') ->
  isAddedBaseMobilizer mob = false ->
  getJointRef mob = Some id ->
  ~ In (getJointTypeName mob) implemented_types ->
  (exists surfaces,
     trace s' = trace s ++ surfaces /\
     Forall (attaches_to [EmptyHandle; Ground]) surfaces) /\
  numMobods s' = numMobods s /\
  numForces s' = numForces s /\
  In (mkLog gzerr_level
        ("Simbody joint type [" +:+ getJointTypeName mob
         +:+ "] not implemented." +:+ nl)) (console s') /\
  (exists j, joints s' !! id = Some (Joint_Simbody j) /\
             mobod j = EmptyHandle /\
             isReversed j = isReversedFromJoint mob) /\
  (exists l, links s' !! getOutboardMasterBodyRef mob = Some (Link_Simbody l) /\
             if isSlaveMobilizer mob
             then In EmptyHandle (slaveMobods l)
             else masterMobod l = EmptyHandle).
Proof.
  intros H Hbase Hid Hn.
  apply AddMobilizer_steps in H. cbv zeta in H.
  destruct H as (outb & parent & h & s1 & Houtb & _ & Hsyn & _ & Hcol).
  rewrite Hbase in Hsyn.
  destruct Hsyn as (id' & gz & s0 & j0 & Hid' & _ & Hmj & Hj0 & ->).
  rewrite Hid in Hid'. injection Hid' as <-.
  rewrite mobilize_joint_unimplemented in Hmj by exact Hn.
  injection Hmj as <- <-.
  pose proof (AddCollisionsToLink_rule _ _ _ _ _ _ _ _ _
                (lookup_insert_eq _ _ _) Hcol) as (surfaces & Ht & Hs).
  pose proof (AddCollisionsToLink_keeps _ _ _ _ _ _ _ _ Hcol) as (Hl & Hj & _).
  pose proof (AddCollisionsToLink_counters _ _ _ _ _ _ _ _ Hcol) as (Hm & Hf & _).
  pose proof (AddCollisionsToLink_console _ _ _ _ _ _ _ _ Hcol) as Hc.
  unfold keeps in *. cbn in Ht, Hl, Hj, Hm, Hf.
  split; [|split; [|split; [|split; [|split]]]].
  - exists surfaces. split; [exact Ht|].
    eapply surface_rule_attaches, Hs.
  - exact Hm.
  - exact Hf.
  - eapply console_grows_In; [exact Hc|]. cbn.
    apply in_or_app. right. left. reflexivity.
  - eexists. split; [rewrite Hj; apply lookup_insert_eq|].
    split; reflexivity.
  - eexists. split; [rewrite Hl; apply lookup_insert_eq|].
    destruct (isSlaveMobilizer mob); cbn; [|reflexivity].
    apply in_or_app. right. left. reflexivity.
Qed.

Lemma AddMobilizer_unimplemented_type_witness :
  let s' := snd (AddMobilizer Example.K Example.quiet (CliqueId 0) mob_hinge2
                   Example.world0) in
  trace s' =
    [addContactSurface EmptyHandle (Pose2Transform Example.origin)
       (mkContactSurface
          (TriangleMesh_Brick (mkVec3 1 1 1) 6) Example.rubber (Some 1%nat)
          [CliqueId 0])] /\
  exists j, joints s' !! 1%nat = Some (Joint_Simbody j) /\
            mobod j = EmptyHandle /\ isReversed j = true.
Proof.
  intros s'.
  pose proof (AddMobilizer_unimplemented_type Example.K Example.quiet (CliqueId 0)
                mob_hinge2 1%nat Example.world0 s') as H.
  assert (Hrun : AddMobilizer Example.K Example.quiet (CliqueId 0) mob_hinge2
                   Example.world0 = (Ret tt, s')).
  { apply (run_outcome (AddMobilizer Example.K Example.quiet (CliqueId 0)
                          mob_hinge2)).
    vm_compute. reflexivity. }
  assert (Hn : ~ In (getJointTypeName mob_hinge2) implemented_types).
  { cbn. intros [E|[E|[E|[E|[E|[E|[]]]]]]]; discriminate E. }
  destruct (H Hrun eq_refl eq_refl Hn) as (_ & _ & _ & _ & Hj & _).
  split; [vm_compute; reflexivity | exact Hj].
Defined.

(** ** What a step of the loop records *)

(** The loop body, summed up: the calls it adds construct at most one
    body, whose parent is the one chosen from the inboard link, and the
    handle it ends with is recorded on the outboard link. *)
Lemma AddMobilizer_summary K B modelClique mob s s' :
  AddMobilizer K B modelClique mob s = (Ret tt, s') ->
  exists outb parent new,
    links s !! getOutboardMasterBodyRef mob = Some (Link_Simbody outb) /\
    match getInboardBodyRef mob with
    | None => parent = Ground
    | Some inb =>
        exists l, links s !! inb = Some (Link_Simbody l) /\ parent = masterMobod l
    end /\
    trace s' = trace s ++ new /\
    (length (bodies_of new) <= 1)%nat /\
    (forall c, In c (bodies_of new) -> parentMobod c = parent) /\
    links s' =
      <[getOutboardMasterBodyRef mob :=
          Link_Simbody
            (let h := handle_after (numMobods s) new in
             if isSlaveMobilizer mob
             then set_slaveMobods (slaveMobods outb ++ [h]) outb
             else set_masterMobod h outb)]> (links s).
Proof.
  intros H. apply AddMobilizer_steps in H. cbv zeta in H.
  destruct H as (outb & parent & h & s1 & Houtb & Hparent & Hsyn & Hlinks & Hcol).
  assert (Hnew : exists new1,
             trace s1 = trace s ++ new1 /\
             (length (bodies_of new1) <= 1)%nat /\
             (forall c, In c (bodies_of new1) -> parentMobod c = parent) /\
             h = handle_after (numMobods s) new1).
  { destruct (isAddedBaseMobilizer mob).
    - apply mobilize_added_base_inv in Hsyn
        as (_ & _ & _ & [(_ & -> & _ & X & Ht & _)|(_ & -> & ->)]).
      + eexists. split; [exact Ht|]. cbn.
        split; [lia|]. split; [|reflexivity].
        intros c [<-|[]]. reflexivity.
      + exists []. rewrite app_nil_r. cbn.
        split; [reflexivity|]. split; [lia|]. split; [tauto | reflexivity].
    - destruct Hsyn as (id & gz & s0 & j0 & _ & _ & Hmj & _ & ->).
      apply mobilize_joint_inv in Hmj
        as (_ & [(_ & -> & _ & c & rest & Ht & Hrest & _ & Hp & _)
                |(_ & -> & Ht & _)]).
      + exists (new_MobilizedBody c :: rest). split; [exact Ht|].
        unfold handle_after. cbn. rewrite (bodies_of_none _ Hrest). cbn.
        split; [lia|]. split; [|reflexivity].
        intros c' [<-|[]]. exact Hp.
      + exists []. rewrite app_nil_r. cbn.
        split; [exact Ht|]. split; [lia|]. split; [tauto | reflexivity]. }
  destruct Hnew as (new1 & Ht1 & Hlen & Hpar & ->).
  pose proof (AddCollisionsToLink_keeps _ _ _ _ _ _ _ _ Hcol)
    as (Hl & _ & surfaces & Ht & Hs).
  unfold keeps in Hl. cbn in Hl, Ht.
  assert (Hb : bodies_of (new1 ++ surfaces) = bodies_of new1).
  { rewrite bodies_of_app, (surfaces_no_body _ Hs). apply app_nil_r. }
  exists outb, parent, (new1 ++ surfaces).
  split; [exact Houtb|]. split; [exact Hparent|].
  split; [rewrite Ht, Ht1; symmetry; apply app_assoc|].
  rewrite Hb. split; [exact Hlen|]. split; [exact Hpar|].
  rewrite Hl. unfold handle_after. rewrite Hb. reflexivity.
Qed.

(** X2: when the loop body returns, the calls it added construct at most
    one body, and the outboard link is the only link written: a slave
    mobilizer appends its handle to the link's slave bodies and leaves
    the master body alone, any other mobilizer overwrites the master
    body. The handle is that of the body just constructed, and the empty
    handle when none was. *)
Theorem AddMobilizer_records_handle K B modelClique mob s s' :
  AddMobilizer K B modelClique mob s = (Ret tt, s') ->
  exists outb new,
    links s !! getOutboardMasterBodyRef mob = Some (Link_Simbody outb) /\
    trace s' = trace s ++ new /\
    (length (bodies_of new) <= 1)%nat /\
    links s' =
      <[getOutboardMasterBodyRef mob :=
          Link_Simbody
            (let h := handle_after (numMobods s) new in
             if isSlaveMobilizer mob
             then set_slaveMobods (slaveMobods outb ++ [h]) outb
             else set_masterMobod h outb)]> (links s).
Proof.
  intros H. apply AddMobilizer_summary in H
    as (outb & parent & new & Houtb & _ & Ht & Hlen & _ & Hl).
  exists outb, new. auto.
Qed.

Lemma AddMobilizer_records_handle_witness :
  let s' := snd (AddMobilizer Example.K Example.quiet (CliqueId 0) mob_slave
                   Example.world0) in
  exists outb new,
    links Example.world0 !! 2%nat = Some (Link_Simbody outb) /\
    trace s' = new /\
    (length (bodies_of new) <= 1)%nat /\
    links s' =
      <[2%nat :=
          Link_Simbody
            (set_slaveMobods
               (slaveMobods outb ++ [handle_after 1%nat new]) outb)]>
        (links Example.world0).
Proof.
  intros s'.
  apply (AddMobilizer_records_handle Example.K Example.quiet (CliqueId 0)
           mob_slave Example.world0 s').
  apply (run_outcome (AddMobilizer Example.K Example.quiet (CliqueId 0) mob_slave)).
  vm_compute. reflexivity.
Defined.

(** X3: every body the loop body constructs, whatever the joint type,
    hangs from Ground when the mobilizer has no inboard link, and from
    the master body recorded on the inboard link otherwise. *)
Theorem AddMobilizer_parent K B modelClique mob s s' :
  AddMobilizer K B modelClique mob s = (Ret tt, s') ->
  exists new,
    trace s' = trace s ++ new /\
    forall c, In c (bodies_of new) ->
      match getInboardBodyRef mob with
      | None => parentMobod c = Ground
      | Some inb =>
          exists l, links s !! inb = Some (Link_Simbody l) /\
                    parentMobod c = masterMobod l
      end.
Proof.
  intros H. apply AddMobilizer_summary in H
    as (outb & parent & new & _ & Hp & Ht & _ & Hc & _).
  exists new. split; [exact Ht|]. intros c Hin. rewrite (Hc c Hin).
  destruct (getInboardBodyRef mob); [|exact Hp].
  destruct Hp as (l0 & Hl0 & ->). eauto.
Qed.

Lemma AddMobilizer_parent_witness :
  let s' := snd (AddMobilizer Example.K Example.quiet (CliqueId 0)
                   Example.mob_hinge Example.world0) in
  exists new,
    trace s' = new /\
    forall c, In c (bodies_of new) -> parentMobod c = Ground.
Proof.
  intros s'.
  apply (AddMobilizer_parent Example.K Example.quiet (CliqueId 0)
           Example.mob_hinge Example.world0 s').
  apply (run_outcome (AddMobilizer Example.K Example.quiet (CliqueId 0)
                        Example.mob_hinge)).
  vm_compute. reflexivity.
Defined.

(** X4: two steps of the loop compose. When a step that is not a slave
    mobilizer has run for a link, a body constructed by a later step
    whose inboard link is that link has as its parent the handle the
    first step ended with: the body the first step constructed, and the
    empty handle when it constructed none. *)
Theorem AddMobilizer_chain K B modelClique mob1 mob2 s s1 s2 :
  AddMobilizer K B modelClique mob1 s = (Ret tt, s1) ->
  AddMobilizer K B modelClique mob2 s1 = (Ret tt, s2) ->
  isSlaveMobilizer mob1 = false ->
  getInboardBodyRef mob2 = Some (getOutboardMasterBodyRef mob1) ->
  exists new1 new2,
    trace s1 = trace s ++ new1 /\
    trace s2 = trace s1 ++ new2 /\
    forall c, In c (bodies_of new2) ->
      parentMobod c = handle_after (numMobods s) new1.
Proof.
  intros H1 H2 Hslave Hinb.
  apply AddMobilizer_summary in H1
    as (outb1 & parent1 & new1 & _ & _ & Ht1 & _ & _ & Hl1).
  apply AddMobilizer_summary in H2
    as (outb2 & parent2 & new2 & _ & Hp2 & Ht2 & _ & Hc2 & _).
  exists new1, new2. split; [exact Ht1|]. split; [exact Ht2|].
  intros c Hin. rewrite (Hc2 c Hin).
  rewrite Hinb in Hp2. destruct Hp2 as (l & Hl & ->).
  rewrite Hl1, lookup_insert_eq, Hslave in Hl. cbv zeta in Hl.
  injection Hl as <-. reflexivity.
Qed.

Lemma AddMobilizer_chain_witness :
  let run := AddMobilizer Example.K Example.quiet (CliqueId 0) in
  let s1 := snd (run Example.mob_hinge Example.world0) in
  let s2 := snd (run Example.mob_slider s1) in
  exists new1 new2,
    trace s1 = new1 /\
    trace s2 = trace s1 ++ new2 /\
    forall c, In c (bodies_of new2) -> parentMobod c = handle_after 1%nat new1.
Proof.
  intros run s1 s2.
  apply (AddMobilizer_chain Example.K Example.quiet (CliqueId 0)
           Example.mob_hinge Example.mob_slider Example.world0 s1 s2).
  - apply (run_outcome (run Example.mob_hinge)). vm_compute. reflexivity.
  - apply (run_outcome (run Example.mob_slider)). vm_compute. reflexivity.
  - reflexivity.
  - reflexivity.
Defined.

(** ** The base mobilizer added by the graph maker *)



(** ** Welding the slaves *)

Lemma update_link_ok id f l s :
  links s !! id = Some (Link_Simbody l) ->
  update_link id f s =
    (Ret tt, set_links (<[id := Link_Simbody (f l)]> (links s)) s).
Proof.
  intros Hl. unfold update_link, deref_SimbodyLink, deref_link, bind.
  rewrite Hl. reflexivity.
Qed.

Lemma set_slaveWelds_twice w w' l :
  set_slaveWelds w (set_slaveWelds w' l) = set_slaveWelds w l.
Proof. destruct l; reflexivity. Qed.

Lemma set_slaveWelds_same l : set_slaveWelds (slaveWelds l) l = l.
Proof. destruct l; reflexivity. Qed.

(** The loop over the slave bodies of one link. *)
Lemma weld_loop B lx master slaves :
  (forall slave, In slave slaves -> throws B (new_Weld master slave) = None) ->
  forall l s,
    links s !! lx = Some (Link_Simbody l) ->
    exists s',
      for_each slaves (fun slave =>
        call B (new_Weld master slave) ;;
        update_link lx (fun l =>
          set_slaveWelds (slaveWelds l ++ [(master, slave)]) l))%sim s
      = (Ret tt, s') /\
      trace s' = trace s ++ map (new_Weld master) slaves /\
      links s' =
        <[lx := Link_Simbody
                  (set_slaveWelds
                     (slaveWelds l ++ map (pair master) slaves) l)]> (links s) /\
      joints s' = joints s /\ console s' = console s /\
      numMobods s' = numMobods s /\ numForces s' = numForces s.
Proof.
  induction slaves as [|x slaves IH]; intros HB l s Hl; cbn [for_each map].
  - exists s. rewrite !app_nil_r, set_slaveWelds_same, insert_id by exact Hl.
    repeat split.
  - assert (Hstep :
      (call B (new_Weld master x) ;;
       update_link lx (fun l =>
         set_slaveWelds (slaveWelds l ++ [(master, x)]) l))%sim s
      = (Ret tt,
         set_links
           (<[lx := Link_Simbody
                      (set_slaveWelds (slaveWelds l ++ [(master, x)]) l)]>
              (links s))
           (set_trace (trace s ++ [new_Weld master x]) s))).
    { rewrite (bind_Ret_eq _ _ _ _ _ (call_ok _ _ _ (HB x (or_introl eq_refl)))).
      rewrite (update_link_ok lx _ l) by exact Hl. reflexivity. }
    rewrite (bind_Ret_eq _ _ _ _ _ Hstep).
    match type of Hstep with
    | _ = (_, ?s1) =>
        destruct (IH (fun y Hy => HB y (or_intror Hy)) _ s1
                    (lookup_insert_eq _ _ _))
          as (s' & Hrun & Ht & Hk & Hrest)
    end.
    exists s'. split; [exact Hrun|].
    cbn in Ht, Hk, Hrest.
    split; [rewrite Ht, <- app_assoc; reflexivity|].
    split; [|exact Hrest].
    rewrite Hk, insert_insert_eq, set_slaveWelds_twice. cbn.
    rewrite <- app_assoc. reflexivity.
Qed.

(** X6: for a link with master body m and slave bodies s1 .. sn,
    weld_slaves constructs exactly the welds (m, s1) .. (m, sn), in that
    order, when the solver accepts them; it appends them to the welds the
    link already holds and writes no other link. A link without slave
    bodies gets no weld and is left as it was. *)
Theorem weld_slaves_welds_each_slave B lx link s :
  links s !! lx = Some (Link_Simbody link) ->
  (forall slave, In slave (slaveMobods link) ->
     throws B (new_Weld (masterMobod link) slave) = None) ->
  let welds := map (pair (masterMobod link)) (slaveMobods link) in
  exists s',
    weld_slaves B lx s = (Ret tt, s') /\
    trace s' = trace s ++ map (fun w => new_Weld (fst w) (snd w)) welds /\
    links s' =
      <[lx := Link_Simbody (set_slaveWelds (slaveWelds link ++ welds) link)]>
        (links s) /\
    (slaveMobods link = [] -> s' = s).
Proof.
  intros Hl HB welds. unfold weld_slaves.
  rewrite (bind_Ret_eq (deref_SimbodyLink lx) _ s link s).
  2:{ unfold deref_SimbodyLink, deref_link, bind. rewrite Hl. reflexivity. }
  destruct (weld_loop B lx (masterMobod link) (slaveMobods link) HB link s Hl)
    as (s' & Hrun & Ht & Hk & _).
  exists s'. split; [exact Hrun|].
  split; [rewrite Ht; unfold welds; rewrite map_map; reflexivity|].
  split; [exact Hk|].
  intros E. rewrite E in Hrun. cbn [for_each] in Hrun.
  apply ret_inv in Hrun as [_ ->]. reflexivity.
Qed.

Lemma weld_slaves_welds_each_slave_witness :
  let link :=
    set_slaveMobods [Mobod 4; Mobod 7] (set_masterMobod (Mobod 2) Example.link_B) in
  let s := set_links (<[2%nat := Link_Simbody link]> Example.the_links)
             Example.world0 in
  exists s',
    weld_slaves Example.quiet 2%nat s = (Ret tt, s') /\
    trace s' = [new_Weld (Mobod 2) (Mobod 4); new_Weld (Mobod 2) (Mobod 7)] /\
    links s' =
      <[2%nat :=
          Link_Simbody
            (set_slaveWelds [(Mobod 2, Mobod 4); (Mobod 2, Mobod 7)] link)]>
        (links s) /\
    (slaveMobods link = [] -> s' = s).
Proof.
  intros link s.
  apply (weld_slaves_welds_each_slave Example.quiet 2%nat link s).
  - vm_compute. reflexivity.
  - reflexivity.
Defined.

(** ** The clique of a dynamic model *)

Lemma new_clique_run B s :
  match throws B createNewContactClique with
  | Some what => new_clique B s = (Throw (std_exception what), s)
  | None =>
      new_clique B s =
        (Ret (CliqueId (numCliques s)),
         set_numCliques (S (numCliques s))
           (set_trace (trace s ++ [createNewContactClique]) s))
  end.
Proof.
  unfold new_clique, bind, call.
  destruct (throws B createNewContactClique); reflexivity.
Qed.

Ltac within_tac :=
  first
    [ apply emits_same_trace; reflexivity
    | apply emits_call; cbn;
      repeat match goal with
             | |- context [if ?b then _ else _] => destruct b
             end;
      cbn; auto ].

Lemma AddMobilizer_within K B clique mob :
  respects (emits (within_clique clique)) (AddMobilizer K B clique mob).
Proof. respects_with within_tac. Qed.

Lemma weld_slaves_within B clique lx :
  respects (emits (within_clique clique)) (weld_slaves B lx).
Proof. respects_with within_tac. Qed.

(** X7: AddDynamicModelToSimbodySystem creates one contact clique, as
    its first call, and no other; every contact surface it attaches
    afterwards, for whichever link and shape, is in that clique alone or
    in no clique. This holds of the calls made up to an exception as
    well; when the creation of the clique itself throws, nothing has been
    called. *)
Theorem AddDynamicModelToSimbodySystem_one_clique K B _mbgraph _model s o s' :
  AddDynamicModelToSimbodySystem K B _mbgraph _model s = (o, s') ->
  (exists what, throws B createNewContactClique = Some what /\
                o = Throw (std_exception what) /\ s' = s)
  \/ (exists rest,
        trace s' = trace s ++ createNewContactClique :: rest /\
        Forall (within_clique (CliqueId (numCliques s))) rest).
Proof.
  unfold AddDynamicModelToSimbodySystem. intros H.
  pose proof (new_clique_run B s) as Hc.
  unfold bind at 1 in H.
  destruct (throws B createNewContactClique) as [what|]; rewrite Hc in H.
  - left. exists what. inversion H. auto.
  - right.
    assert (Hr : forall c,
               respects (emits (within_clique c))
                 (for_each (mobilizers _mbgraph) (AddMobilizer K B c) ;;
                  let* models := gets world_GetModels in
                  for_each models (fun mi =>
                    for_each (GetLinks mi) (weld_slaves B)))%sim).
    { intros c. apply respects_bind; [typeclasses eauto | |].
      - apply respects_for_each; [typeclasses eauto|].
        intros mob. apply AddMobilizer_within.
      - intros _. apply respects_bind; [typeclasses eauto | |].
        + apply respects_gets. typeclasses eauto.
        + intros models. apply respects_for_each; [typeclasses eauto|].
          intros mi. apply respects_for_each; [typeclasses eauto|].
          intros lx. apply weld_slaves_within. }
    apply Hr in H as (rest & Ht & Hf). cbn in Ht.
    exists rest. split; [rewrite Ht, <- app_assoc; reflexivity | exact Hf].
Qed.

Lemma AddDynamicModelToSimbodySystem_one_clique_witness :
  let g := mkGraphMaker [] [Example.mob_hinge; Example.mob_slider] in
  let r := AddDynamicModelToSimbodySystem Example.K Example.quiet g Example.arm
             Example.world0 in
  exists rest,
    trace (snd r) = createNewContactClique :: rest /\
    Forall (within_clique (CliqueId 0)) rest.
Proof.
  intros g r.
  destruct (AddDynamicModelToSimbodySystem_one_clique Example.K Example.quiet g
              Example.arm Example.world0 (fst r) (snd r))
    as [(what & Hw & _)|H].
  - apply surjective_pairing.
  - discriminate Hw.
  - exact H.
Defined.

(** ** The weld pass *)

#[local] Instance keeps_mobods_PreOrder : PreOrder keeps_mobods.
Proof.
  split.
  - intros s li. reflexivity.
  - intros a b c H1 H2 li. rewrite H2. apply H1.
Qed.

Lemma keeps_mobods_same s s' : links s' = links s -> keeps_mobods s s'.
Proof. intros H li. rewrite H. reflexivity. Qed.

(** A loop that returned, and one iteration of it with what surrounds
    it. *)
Lemma for_each_returned {A} (R : relation SimbodyPhysics) `{!PreOrder R}
    (body : A -> Sim unit) :
  (forall y s u s', body y s = (Ret u, s') -> R s s') ->
  forall l s u s', for_each l body s = (Ret u, s') -> R s s'.
Proof.
  intros Hb l. induction l as [|y l IH]; intros s u s' H; cbn [for_each] in H.
  - apply ret_inv in H as [_ ->]. reflexivity.
  - apply bind_Ret_inv in H as (u1 & s1 & H1 & H).
    etransitivity; [eapply Hb, H1 | eapply IH, H].
Qed.

Lemma for_each_In {A} (R : relation SimbodyPhysics) `{!PreOrder R}
    (body : A -> Sim unit) x :
  (forall y s u s', body y s = (Ret u, s') -> R s s') ->
  forall l s u s',
    for_each l body s = (Ret u, s') -> In x l ->
    exists t t', R s t /\ body x t = (Ret tt, t') /\ R t' s'.
Proof.
  intros Hb l. induction l as [|y l IH]; intros s u s' H Hin; [destruct Hin|].
  cbn [for_each] in H. apply bind_Ret_inv in H as ([] & s1 & H1 & H).
  destruct Hin as [->|Hin].
  - exists s, s1. split; [reflexivity|]. split; [exact H1|].
    eapply (for_each_returned R body Hb), H.
  - destruct (IH _ _ _ H Hin) as (t & t' & Hst & Hrun & Hts).
    exists t, t'. split; [|auto].
    etransitivity; [eapply Hb, H1 | exact Hst].
Qed.

Lemma weld_loop_inv B lx master slaves :
  forall s u s',
    for_each slaves (fun slave =>
      call B (new_Weld master slave) ;;
      update_link lx (fun l =>
        set_slaveWelds (slaveWelds l ++ [(master, slave)]) l))%sim s
    = (Ret u, s') ->
    trace s' = trace s ++ map (new_Weld master) slaves /\ keeps_mobods s s'.
Proof.
  induction slaves as [|x slaves IH]; intros s u s' H; cbn [for_each] in H.
  - apply ret_inv in H as [_ ->]. split; [symmetry; apply app_nil_r | reflexivity].
  - apply bind_Ret_inv in H as (u1 & s1 & H1 & H).
    apply IH in H as [Ht Hk]. sim_inv. cbn in Ht.
    split; [rewrite Ht, <- app_assoc; reflexivity|].
    etransitivity; [|exact Hk].
    intros li. cbn. destruct (decide (li = lx)) as [->|Hne].
    + rewrite lookup_insert_eq.
      match goal with Hl : links _ !! lx = Some _ |- _ => cbn in Hl; rewrite Hl end.
      reflexivity.
    + rewrite lookup_insert_ne by congruence. reflexivity.
Qed.

Lemma weld_slaves_inv B lx s u s' :
  weld_slaves B lx s = (Ret u, s') ->
  exists link,
    links s !! lx = Some (Link_Simbody link) /\
    trace s' = trace s ++ map (new_Weld (masterMobod link)) (slaveMobods link) /\
    keeps_mobods s s'.
Proof.
  unfold weld_slaves. intros H.
  apply bind_Ret_inv in H as (link & s0 & H0 & H).
  apply deref_SimbodyLink_inv in H0 as [Hl ->].
  apply weld_loop_inv in H. eauto.
Qed.

Lemma weld_slaves_pass B lx s u s' :
  weld_slaves B lx s = (Ret u, s') ->
  both keeps_mobods (emits (fun _ => True)) s s'.
Proof.
  intros H. apply weld_slaves_inv in H as (link & _ & Ht & Hk).
  split; [exact Hk|]. eexists. split; [exact Ht|].
  apply Forall_forall. auto.
Qed.

Lemma AddMobilizer_models K B clique mob :
  respects (keeps world_GetModels) (AddMobilizer K B clique mob).
Proof. respects_with ltac:(reflexivity). Qed.

(** The loop over the mobilizers writes no link but the outboard ones. *)
Lemma mobilizer_loop_links K B clique mobs :
  forall s u s',
    for_each mobs (AddMobilizer K B clique) s = (Ret u, s') ->
    forall lx, ~ In lx (map getOutboardMasterBodyRef mobs) ->
               links s' !! lx = links s !! lx.
Proof.
  induction mobs as [|mob mobs IH]; intros s u s' H lx Hn; cbn [for_each] in H.
  - apply ret_inv in H as [_ ->]. reflexivity.
  - apply bind_Ret_inv in H as ([] & s1 & H1 & H).
    rewrite (IH _ _ _ H lx) by (intros Hin; apply Hn; right; exact Hin).
    apply AddMobilizer_summary in H1 as (outb & p & new & _ & _ & _ & _ & _ & ->).
    apply lookup_insert_ne. intros E. apply Hn. left. exact E.
Qed.

(** X8: the weld pass at the end of AddDynamicModelToSimbodySystem runs
    over the links of every model of the world, not only of the model
    being added. Any link of any model that holds slave bodies when the
    method is entered, and is not an outboard link of the graph being
    built, gets a weld between its master body and each of its slave
    bodies constructed by this call. *)
Theorem AddDynamicModelToSimbodySystem_welds_every_model
    K B _mbgraph _model s s' mi lx link slave :
  AddDynamicModelToSimbodySystem K B _mbgraph _model s = (Ret tt, s') ->
  In mi (world_GetModels s) ->
  In lx (GetLinks mi) ->
  ~ In lx (map getOutboardMasterBodyRef (mobilizers _mbgraph)) ->
  links s !! lx = Some (Link_Simbody link) ->
  In slave (slaveMobods link) ->
  exists new,
    trace s' = trace s ++ new /\
    In (new_Weld (masterMobod link) slave) new.
Proof.
  unfold AddDynamicModelToSimbodySystem. intros H Hmi Hlx Hout Hl Hslave.
  apply bind_Ret_inv in H as (c & s0 & Hc & H).
  apply bind_Ret_inv in H as ([] & s1 & Hloop & H).
  apply bind_Ret_inv in H as (models & s1' & Hg & H).
  apply gets_inv in Hg as [-> ->].
  unfold new_clique in Hc. sim_inv.
  pose proof (mobilizer_loop_links _ _ _ _ _ _ _ Hloop lx Hout) as Hl1.
  cbn in Hl1. rewrite Hl in Hl1.
  assert (Hm1 : world_GetModels s1 = world_GetModels s).
  { revert Hloop. apply (respects_for_each (keeps world_GetModels)).
    intros mob. apply AddMobilizer_models. }
  assert (He1 : emits (fun _ => True) s s1).
  { assert (E : emits (fun _ => True)
                  (set_numCliques (S (numCliques s))
                     (set_trace (trace s ++ [createNewContactClique]) s)) s1).
    { revert Hloop. apply (respects_for_each (emits (fun _ => True))).
      intros mob. unfold AddMobilizer. respects_with ltac:(first
        [ apply emits_same_trace; reflexivity | apply emits_call; exact I ]). }
    destruct E as (e & Ht & _). cbn in Ht. eexists.
    split; [rewrite Ht, <- app_assoc; reflexivity | apply Forall_forall; auto]. }
  rewrite Hm1 in H.
  set (R := both keeps_mobods (emits (fun _ => True))).
  assert (Hinner : forall (mj : Model) t u t',
             for_each (GetLinks mj) (weld_slaves B) t = (Ret u, t') -> R t t').
  { intros mj. apply (for_each_returned R). intros y. apply weld_slaves_pass. }
  destruct (for_each_In R _ mi Hinner _ _ _ _ H Hmi)
    as (t & t' & [Hk1 He2] & Hrun & [_ He5]).
  destruct (for_each_In R _ lx (weld_slaves_pass B) _ _ _ _ Hrun Hlx)
    as (t2 & t2' & [Hk2 He3] & Hw & [_ He4]).
  apply weld_slaves_inv in Hw as (link2 & Hl2 & Ht2 & _).
  assert (Hsame : mobods_of (Link_Simbody link2) = mobods_of (Link_Simbody link)).
  { pose proof (Hk2 lx) as E2. pose proof (Hk1 lx) as E1.
    rewrite Hl2, E1, Hl1 in E2. cbn in E2 |- *. congruence. }
  cbn in Hsame. injection Hsame as Hmaster Hslaves.
  destruct He1 as (e1 & T1 & _), He2 as (e2 & T2 & _), He3 as (e3 & T3 & _),
           He4 as (e4 & T4 & _), He5 as (e5 & T5 & _).
  exists (e1 ++ e2 ++ e3
          ++ map (new_Weld (masterMobod link2)) (slaveMobods link2) ++ e4 ++ e5).
  split.
  - rewrite T5, T4, Ht2, T3, T2, T1, <- !app_assoc. reflexivity.
  - rewrite !in_app_iff. do 3 right. left.
    rewrite Hmaster, Hslaves. apply in_map, Hslave.
Qed.

Lemma AddDynamicModelToSimbodySystem_welds_every_model_witness :
  let g := mkGraphMaker [] [Example.mob_hinge; Example.mob_slider] in
  let s' := snd (AddDynamicModelToSimbodySystem Example.K Example.quiet g
                   Example.arm world_with_slave) in
  In Example.press (world_GetModels world_with_slave) /\
  exists new,
    trace s' = trace world_with_slave ++ new /\
    In (new_Weld (Mobod 5) (Mobod 9)) new.
Proof.
  intros g s'. split; [cbn; tauto|].
  apply (AddDynamicModelToSimbodySystem_welds_every_model Example.K Example.quiet
           g Example.arm world_with_slave s' Example.press 6%nat
           (set_slaveMobods [Mobod 9] (set_masterMobod (Mobod 5) Example.link_D))
           (Mobod 9)).
  - apply (run_outcome (AddDynamicModelToSimbodySystem Example.K Example.quiet g
                          Example.arm)).
    vm_compute. reflexivity.
  - cbn. tauto.
  - cbn. tauto.
  - cbn. intros [E|[E|[]]]; discriminate E.
  - vm_compute. reflexivity.
  - cbn. tauto.
Defined.

(** ** Static models *)

Lemma AddStatic_step K B li s u s' :
  (let* l := deref_link li in
   match l with
   | Link_Simbody _ =>
       AddCollisionsToLink K B li Ground InvalidCliqueId ;;
       update_link li (set_masterMobod Ground)
   | Link_Other name =>
       gzerr ("simbodyLink [" +:+ name +:+ "]is not a SimbodyLinkPtr" +:+ nl)
   end)%sim s = (Ret u, s') ->
  console_grows s s' /\
  ((exists l0, links s !! li = Some (Link_Simbody l0) /\
               links s' = <[li := on_ground (Link_Simbody l0)]> (links s))
   \/ (exists name,
         links s !! li = Some (Link_Other name) /\
         links s' = links s /\
         In (mkLog gzerr_level
               ("simbodyLink [" +:+ name +:+ "]is not a SimbodyLinkPtr" +:+ nl))
            (console s'))).
Proof.
  intros H. apply bind_Ret_inv in H as (l & s0 & H0 & H).
  apply deref_link_inv in H0 as [Hl ->].
  destruct l as [l0|name].
  - apply bind_Ret_inv in H as (u1 & s1 & Hc & H).
    pose proof (AddCollisionsToLink_keeps _ _ _ _ _ _ _ _ Hc) as (Hk & _).
    pose proof (AddCollisionsToLink_console _ _ _ _ _ _ _ _ Hc) as Hg.
    unfold keeps in Hk.
    apply update_link_inv in H as (l1 & Hl1 & ->).
    rewrite Hk, Hl in Hl1. injection Hl1 as <-.
    split.
    + destruct Hg as [m Hm]. exists m. exact Hm.
    + left. exists l0. split; [exact Hl|]. cbn. rewrite Hk. reflexivity.
  - apply log_inv in H as ->. split; [eexists; reflexivity|].
    right. exists name. split; [exact Hl|]. split; [reflexivity|].
    cbn. apply in_or_app. right. left. reflexivity.
Qed.

Lemma on_ground_twice l : on_ground (on_ground l) = on_ground l.
Proof. destruct l as [[]|]; reflexivity. Qed.

(** The loop of AddStaticModelToSimbodySystem, link by link. *)
Lemma AddStatic_links K B lis :
  forall s u s',
    for_each lis (fun li =>
      let* l := deref_link li in
      match l with
      | Link_Simbody _ =>
          AddCollisionsToLink K B li Ground InvalidCliqueId ;;
          update_link li (set_masterMobod Ground)
      | Link_Other name =>
          gzerr ("simbodyLink [" +:+ name +:+ "]is not a SimbodyLinkPtr" +:+ nl)
      end)%sim s = (Ret u, s') ->
    console_grows s s' /\
    (forall li, In li lis -> links s' !! li = on_ground <$> links s !! li) /\
    (forall li, ~ In li lis -> links s' !! li = links s !! li) /\
    (forall li name,
       In li lis -> links s !! li = Some (Link_Other name) ->
       In (mkLog gzerr_level
             ("simbodyLink [" +:+ name +:+ "]is not a SimbodyLinkPtr" +:+ nl))
          (console s')).
Proof.
  induction lis as [|x lis IH]; intros s u s' H; cbn [for_each] in H.
  - apply ret_inv in H as [_ ->]. split; [reflexivity|].
    split; [intros li []|]. split; [reflexivity | intros li name []].
  - apply bind_Ret_inv in H as (u1 & s1 & H1 & H).
    apply AddStatic_step in H1 as [Hg1 Hstep].
    apply IH in H as (Hg & Hin & Hout & Hlog).
    assert (Hs1 : exists lk, links s !! x = Some lk /\
                             links s1 = <[x := on_ground lk]> (links s)).
    { destruct Hstep as [(l0 & Hl & E)|(name & Hl & E & _)].
      - eauto.
      - exists (Link_Other name). split; [exact Hl|].
        rewrite E. symmetry. apply insert_id. exact Hl. }
    destruct Hs1 as (lk & Hx & Hs1).
    split; [etransitivity; eassumption|].
    split; [|split].
    + intros li Hli.
      destruct (in_dec Nat.eq_dec li lis) as [Hr|Hr].
      * rewrite (Hin li Hr), Hs1.
        destruct (decide (li = x)) as [->|Hne].
        -- rewrite lookup_insert_eq, Hx. cbn. rewrite on_ground_twice. reflexivity.
        -- rewrite lookup_insert_ne by congruence. reflexivity.
      * destruct Hli as [<-|Hli]; [|contradiction].
        rewrite (Hout x Hr), Hs1, lookup_insert_eq, Hx. reflexivity.
    + intros li Hli. rewrite Hout by (intros Hr; apply Hli; right; exact Hr).
      rewrite Hs1. apply lookup_insert_ne. intros E. apply Hli. left. exact E.
    + intros li name Hli Hl.
      destruct (in_dec Nat.eq_dec li lis) as [Hr|Hr].
      * apply (Hlog li name Hr). rewrite Hs1.
        destruct (decide (li = x)) as [->|Hne].
        -- rewrite lookup_insert_eq. rewrite Hx in Hl. injection Hl as ->.
           reflexivity.
        -- rewrite lookup_insert_ne by congruence. exact Hl.
      * destruct Hli as [<-|Hli]; [|contradiction].
        destruct Hstep as [(l0 & Hl0 & _)|(name' & Hl' & _ & Hmsg)].
        -- rewrite Hl in Hl0. discriminate Hl0.
        -- rewrite Hl in Hl'. injection Hl' as <-.
           eapply console_grows_In; eassumption.
Qed.

Lemma AddStatic_calls K B _model :
  respects (both (keeps joints) (both (keeps numMobods) (emits static_surface)))
    (AddStaticModelToSimbodySystem K B _model).
Proof.
  respects_with ltac:(split; [reflexivity | split;
    [ reflexivity
    | first [ apply emits_same_trace; reflexivity
            | apply emits_call; cbn; split; reflexivity ] ]]).
Qed.

(** X9: AddStaticModelToSimbodySystem constructs nothing: all it calls
    is the attachment of contact surfaces, every one to the Ground body
    and in no clique. It writes no joint. When it returns, every Simbody
    link of the model is recorded on Ground as its master body and is
    otherwise as before, every link that is not a Simbody link has been
    reported on the error console and skipped, and the links of other
    models are untouched. *)
Theorem AddStaticModelToSimbodySystem_grounds K B _model s s' :
  AddStaticModelToSimbodySystem K B _model s = (Ret tt, s') ->
  (exists surfaces,
     trace s' = trace s ++ surfaces /\ Forall static_surface surfaces) /\
  joints s' = joints s /\
  numMobods s' = numMobods s /\
  (forall li, In li (GetLinks _model) ->
     links s' !! li = on_ground <$> links s !! li) /\
  (forall li, ~ In li (GetLinks _model) -> links s' !! li = links s !! li) /\
  (forall li name,
     In li (GetLinks _model) -> links s !! li = Some (Link_Other name) ->
     In (mkLog gzerr_level
           ("simbodyLink [" +:+ name +:+ "]is not a SimbodyLinkPtr" +:+ nl))
        (console s')).
Proof.
  intros H.
  pose proof (AddStatic_calls _ _ _ _ _ _ H) as (Hj & Hm & He).
  unfold AddStaticModelToSimbodySystem in H.
  apply AddStatic_links in H as (_ & Hin & Hout & Hlog).
  auto 10.
Qed.

Lemma AddStaticModelToSimbodySystem_grounds_witness :
  let s' := snd (AddStaticModelToSimbodySystem Example.K Example.quiet scenery
                   world_with_foreign) in
  links s' !! 4%nat = Some (on_ground (Link_Simbody Example.link_ground)) /\
  links s' !! 1%nat = Some (Link_Simbody Example.link_A) /\
  In (mkLog gzerr_level
        ("simbodyLink [foreign]is not a SimbodyLinkPtr" +:+ nl)) (console s').
Proof.
  intros s'.
  destruct (AddStaticModelToSimbodySystem_grounds Example.K Example.quiet scenery
              world_with_foreign s') as (_ & _ & _ & Hin & Hout & Hlog).
  - apply (run_outcome (AddStaticModelToSimbodySystem Example.K Example.quiet
                          scenery)).
    vm_compute. reflexivity.
  - split; [|split].
    + etransitivity; [apply (Hin 4%nat); cbn; tauto | vm_compute; reflexivity].
    + etransitivity; [apply (Hout 1%nat) | vm_compute; reflexivity].
      cbn. intros [E|[E|[E|[]]]]; discriminate E.
    + apply (Hlog 7%nat "foreign"); [cbn; tauto | vm_compute; reflexivity].
Defined.

(** ** The initialised flags *)

(** A loop whose body rewrites the entry of its own key with [f]. *)
Lemma for_each_updates {V} (get : SimbodyPhysics -> gmap nat V) (f : V -> V)
    (body : nat -> Sim unit) :
  (forall v, f (f v) = f v) ->
  (forall x s u s1, body x s = (Ret u, s1) ->
     exists v, get s !! x = Some v /\ get s1 = <[x := f v]> (get s)) ->
  forall lis s u s',
    for_each lis body s = (Ret u, s') ->
    (forall li, In li lis -> get s' !! li = f <$> get s !! li) /\
    (forall li, ~ In li lis -> get s' !! li = get s !! li).
Proof.
  intros Hf Hb lis. induction lis as [|x lis IH]; intros s u s' H;
    cbn [for_each] in H.
  - apply ret_inv in H as [_ ->]. split; [intros li [] | reflexivity].
  - apply bind_Ret_inv in H as (u1 & s1 & H1 & H).
    apply Hb in H1 as (v & Hx & Hs1). apply IH in H as (Hin & Hout).
    split.
    + intros li Hli.
      destruct (in_dec Nat.eq_dec li lis) as [Hr|Hr].
      * rewrite (Hin li Hr), Hs1.
        destruct (decide (li = x)) as [->|Hne].
        -- rewrite lookup_insert_eq, Hx. cbn. rewrite Hf. reflexivity.
        -- rewrite lookup_insert_ne by congruence. reflexivity.
      * destruct Hli as [<-|Hli]; [|contradiction].
        rewrite (Hout x Hr), Hs1, lookup_insert_eq, Hx. reflexivity.
    + intros li Hli. rewrite Hout by (intros Hr; apply Hli; right; exact Hr).
      rewrite Hs1. apply lookup_insert_ne. intros E. apply Hli. left. exact E.
Qed.

Lemma mark_links_done lis s u s' :
  for_each lis mark_link_initialized s = (Ret u, s') ->
  (forall li, In li lis -> links s' !! li = link_initialized <$> links s !! li) /\
  (forall li, ~ In li lis -> links s' !! li = links s !! li).
Proof.
  apply (for_each_updates links link_initialized).
  - intros [[]|]; reflexivity.
  - intros x t v t1 H. unfold mark_link_initialized in H.
    apply bind_Ret_inv in H as (l & t0 & H0 & H).
    apply deref_link_inv in H0 as [Hl ->].
    exists l. split; [exact Hl|]. destruct l as [l0|name].
    + apply update_link_inv in H as (l1 & Hl1 & ->).
      rewrite Hl in Hl1. injection Hl1 as <-. reflexivity.
    + apply log_inv in H as ->. cbn. symmetry. apply insert_id. exact Hl.
Qed.

Lemma mark_joints_done jis s u s' :
  for_each jis mark_joint_initialized s = (Ret u, s') ->
  (forall ji, In ji jis -> joints s' !! ji = joint_initialized <$> joints s !! ji) /\
  (forall ji, ~ In ji jis -> joints s' !! ji = joints s !! ji).
Proof.
  apply (for_each_updates joints joint_initialized).
  - intros [[]|]; reflexivity.
  - intros x t v t1 H. unfold mark_joint_initialized in H.
    apply bind_Ret_inv in H as (j & t0 & H0 & H).
    apply deref_joint_inv in H0 as [Hj ->].
    exists j. split; [exact Hj|]. destruct j as [j0|name].
    + apply update_joint_inv in H as (j1 & Hj1 & ->).
      rewrite Hj in Hj1. injection Hj1 as <-. reflexivity.
    + apply log_inv in H as ->. cbn. symmetry. apply insert_id. exact Hj.
Qed.

Lemma mark_joints_links jis :
  respects (keeps links) (for_each jis mark_joint_initialized).
Proof. respects_with ltac:(reflexivity). Qed.

(** X10: when InitModel returns, for a static or a dynamic model, the
    engine is flagged initialised, and every Simbody link and every
    Simbody joint of the model has its physicsInitialized flag set. *)
Theorem InitModel_marks_initialized K B _model s s' :
  InitModel K B _model s = (Ret tt, s') ->
  simbodyPhysicsInitialized s' = true /\
  (forall li l, In li (GetLinks _model) ->
     links s' !! li = Some (Link_Simbody l) -> l_physicsInitialized l = true) /\
  (forall ji j, In ji (GetJoints _model) ->
     joints s' !! ji = Some (Joint_Simbody j) -> j_physicsInitialized j = true).
Proof.
  intros H. unfold InitModel in H.
  apply bind_Ret_inv in H as (saved & s1 & _ & H).
  apply bind_Ret_inv in H as (u1 & s2 & _ & H).
  apply bind_Ret_inv in H as (u2 & s3 & _ & H).
  unfold finish_init in H.
  apply bind_Ret_inv in H as (u3 & s4 & _ & H).
  apply bind_Ret_inv in H as (state & s5 & _ & H).
  apply bind_Ret_inv in H as (u4 & s6 & _ & H).
  apply bind_Ret_inv in H as (u5 & s7 & _ & H).
  apply bind_Ret_inv in H as (u6 & s8 & Hml & H).
  apply bind_Ret_inv in H as (u7 & s9 & Hmj & H).
  apply modify_inv in H as ->.
  pose proof (mark_joints_links _ _ _ _ Hmj) as Hk. unfold keeps in Hk.
  apply mark_links_done in Hml as [Hl _].
  apply mark_joints_done in Hmj as [Hj _].
  cbn. split; [reflexivity|]. split.
  - intros li l Hin E. rewrite Hk, (Hl li Hin) in E.
    destruct (links s7 !! li) as [[l0|name]|]; cbn in E; try discriminate E.
    injection E as <-. destruct l0; reflexivity.
  - intros ji j Hin E. rewrite (Hj ji Hin) in E.
    destruct (joints s8 !! ji) as [[j0|name]|]; cbn in E; try discriminate E.
    injection E as <-. destruct j0; reflexivity.
Qed.

Lemma InitModel_marks_initialized_witness :
  let s' := snd (InitModel Example.K Example.quiet Example.arm Example.running) in
  simbodyPhysicsInitialized s' = true /\
  (forall li l, In li [1%nat; 2%nat] ->
     links s' !! li = Some (Link_Simbody l) -> l_physicsInitialized l = true) /\
  (forall ji j, In ji [1%nat; 2%nat] ->
     joints s' !! ji = Some (Joint_Simbody j) -> j_physicsInitialized j = true).
Proof.
  intros s'.
  apply (InitModel_marks_initialized Example.K Example.quiet Example.arm
           Example.running s').
  apply (run_outcome (InitModel Example.K Example.quiet Example.arm)).
  vm_compute. reflexivity.
Defined.

(** *** Methods that do not depend on the graph maker *)

Lemma agree_refl {A} (m : Sim A) : agree m m.
Proof. intros s. reflexivity. Qed.

Lemma agree_bind {A C} (m m' : Sim A) (k k' : A -> Sim C) :
  agree m m' -> (forall a, agree (k a) (k' a)) -> agree (bind m k) (bind m' k').
Proof.
  intros Hm Hk s. unfold bind. rewrite (Hm s).
  destruct (m' s) as [[a|e] s1]; [apply Hk | reflexivity].
Qed.

Lemma agree_for_each {A} (l : list A) (body body' : A -> Sim unit) :
  (forall x, agree (body x) (body' x)) ->
  agree (for_each l body) (for_each l body').
Proof.
  intros Hb. induction l as [|x l IH]; cbn [for_each].
  - apply agree_refl.
  - apply agree_bind; [apply Hb | intros _; exact IH].
Qed.

Lemma agree_fold_each {A G} (l : list A) (body body' : G -> A -> Sim G) :
  (forall g x, agree (body g x) (body' g x)) ->
  forall g, agree (fold_each l body g) (fold_each l body' g).
Proof.
  intros Hb. induction l as [|x l IH]; intros g; cbn [fold_each].
  - apply agree_refl.
  - apply agree_bind; [apply Hb | intros g'; apply IH].
Qed.

Lemma agree_try_catch {A} (m m' : Sim A) (h h' : string -> Sim A) :
  agree m m' -> (forall what, agree (h what) (h' what)) ->
  agree (try_catch m h) (try_catch m' h').
Proof.
  intros Hm Hh s. unfold try_catch. rewrite (Hm s).
  destruct (m' s) as [[a|[what|what|what]] s1]; try reflexivity. apply Hh.
Qed.

Lemma agree_call B B' c :
  same_but_graph_maker B B' ->
  match c with graph_call _ => False | _ => True end ->
  agree (call B c) (call B' c).
Proof.
  intros (Hth & _) Hc s. unfold call. specialize (Hth c).
  destruct c; try destruct Hc; rewrite Hth; reflexivity.
Qed.

(** Decompose an [agree] goal along the structure of the method. *)
Ltac agree_with H :=
  repeat
    (intros;
     lazymatch goal with
     | |- agree ?m ?m => apply agree_refl
     | |- agree (bind _ _) _ => apply agree_bind
     | |- agree (for_each _ _) _ => apply agree_for_each
     | |- agree (fold_each _ _ _) _ => apply agree_fold_each
     | |- agree (try_catch _ _) _ => apply agree_try_catch
     | |- agree (call _ _) _ => apply (agree_call _ _ _ H); exact I
     | |- agree (match ?x with _ => _ end) _ => destruct x
     | |- agree (let _ := _ in _) _ => cbv zeta
     | |- agree ?m _ => let h := head_of m in unfold h
     end).

Lemma AddStaticModelToSimbodySystem_agree K B B' _model :
  same_but_graph_maker B B' ->
  agree (AddStaticModelToSimbodySystem K B _model)
        (AddStaticModelToSimbodySystem K B' _model).
Proof. intros H. agree_with H. Qed.

Lemma save_states_agree B B' _model :
  same_but_graph_maker B B' ->
  agree (save_states B _model) (save_states B' _model).
Proof. intros H. agree_with H. Qed.

Lemma InitSimbodySystem_agree B B' :
  same_but_graph_maker B B' ->
  agree (InitSimbodySystem B) (InitSimbodySystem B').
Proof. intros H. agree_with H. Qed.

Lemma finish_init_agree B B' _model stateTime simbodyStateSaved :
  same_but_graph_maker B B' ->
  agree (finish_init B _model stateTime simbodyStateSaved)
        (finish_init B' _model stateTime simbodyStateSaved).
Proof.
  intros H. pose proof H as (_ & Hr & Hi). unfold finish_init.
  rewrite Hr.
  apply agree_bind; [agree_with H|intros _].
  apply agree_bind; [agree_with H|intros state].
  rewrite Hi. agree_with H.
Qed.

(** X11: InitModel of a static model constructs nothing in the solver
    and uses no graph maker. Whatever the outcome, none of the calls it
    makes creates a mobilized body, a force element, a weld or a contact
    clique: what it calls is the capture and restore of states, the
    attachment of contact surfaces, the gravity setter, realizeTopology
    and the initialisation of the integrator. And the run is the same,
    in its outcome and in the state it leaves, with any solver that
    differs only in what the calls on a graph maker do and in what
    generateGraph computes. *)
Theorem InitModel_static_constructs_nothing K B _model s o s' :
  IsStatic _model = true ->
  InitModel K B _model s = (o, s') ->
  (exists new,
     trace s' = trace s ++ new /\ Forall constructs_nothing new) /\
  (forall B', same_but_graph_maker B B' ->
              InitModel K B' _model s = (o, s')).
Proof.
  intros Hs Hrun. split.
  - revert s o s' Hrun.
    change (respects (emits constructs_nothing) (InitModel K B _model)).
    unfold InitModel.
    replace (build_system K B _model)
      with (AddStaticModelToSimbodySystem K B _model)
      by (unfold build_system; rewrite Hs; reflexivity).
    respects_with ltac:(first
      [ apply emits_same_trace; reflexivity | apply emits_call; exact I ]).
  - intros B' HB. rewrite <- Hrun. symmetry. revert s Hrun.
    intros s _. revert s.
    change (agree (InitModel K B _model) (InitModel K B' _model)).
    unfold InitModel, build_system. rewrite Hs.
    apply agree_bind; [apply save_states_agree, HB | intros saved].
    apply agree_bind.
    { apply agree_try_catch;
        [apply AddStaticModelToSimbodySystem_agree, HB | intros; apply agree_refl]. }
    intros _. apply agree_bind.
    { apply agree_try_catch;
        [apply InitSimbodySystem_agree, HB | intros; apply agree_refl]. }
    intros _. apply finish_init_agree, HB.
Qed.

Lemma InitModel_static_constructs_nothing_witness :
  let r := InitModel Example.K Example.quiet Example.ground_model
             Example.running in
  ((exists new,
      trace (snd r) = trace Example.running ++ new /\
      Forall constructs_nothing new) /\
   InitModel Example.K Example.failing_graph Example.ground_model
     Example.running = r) /\
  fst (InitModel Example.K Example.failing_graph Example.arm Example.running)
  <> fst (InitModel Example.K Example.quiet Example.arm Example.running).
Proof.
  intros r. split.
  - destruct (InitModel_static_constructs_nothing Example.K Example.quiet
                Example.ground_model Example.running (fst r) (snd r))
      as [Hnew Hsame].
    + reflexivity.
    + apply surjective_pairing.
    + split; [exact Hnew|].
      rewrite (Hsame Example.failing_graph); [symmetry; apply surjective_pairing|].
      split; [intros c; destruct c; try exact I; reflexivity|].
      split; [reflexivity | intros st; reflexivity].
  - vm_compute. discriminate.
Defined.

(** * Further properties of the Bullet slider joint *)

(** X12: a stop set before the native constraint exists cannot be read
    back. SetHighStop then stores the angle in the generic joint and
    fails, and a following GetHighStop returns the zero angle, whatever
    was stored, and reports on the error console; the same holds of
    SetLowStop and GetLowStop. *)
Theorem Bullet_stop_unreadable_before_creation
    (i1 i2 : nat) (angle : ign.Angle) (j : Bullet.BulletSliderJoint) :
  Bullet.bulletSlider j = None ->
  let high := snd (Bullet.SetHighStop i1 angle j) in
  let low := snd (Bullet.SetLowStop i1 angle j) in
  Bullet.upperLimit high = <[0%nat := angle]> (Bullet.upperLimit j) /\
  fst (BulletStops.GetHighStop i2 high) = ign.mkAngle 0%float /\
  Bullet.console (snd (BulletStops.GetHighStop i2 high)) =
    Bullet.console j ++
    [mkLog gzerr_level ("bulletSlider not yet created." +:+ nl);
     mkLog gzerr_level
       ("Joint must be created before getting high stop" +:+ nl)] /\
  Bullet.lowerLimit low = <[0%nat := angle]> (Bullet.lowerLimit j) /\
  fst (BulletStops.GetLowStop i2 low) = ign.mkAngle 0%float /\
  Bullet.console (snd (BulletStops.GetLowStop i2 low)) =
    Bullet.console j ++
    [mkLog gzerr_level ("bulletSlider not yet created." +:+ nl);
     mkLog gzerr_level
       ("Joint must be created before getting low stop" +:+ nl)].
Proof.
  intros Hnull high low. subst high low.
  unfold Bullet.SetHighStop, Bullet.SetLowStop,
    BulletStops.GetHighStop, BulletStops.GetLowStop.
  cbn. rewrite Hnull. cbn. rewrite <- !app_assoc.
  repeat split; reflexivity.
Qed.

Lemma Bullet_stop_unreadable_before_creation_witness :
  let a := ign.mkAngle 1.5%float in
  let high := snd (Bullet.SetHighStop 0 a Bullet.fresh_joint) in
  Bullet.upperLimit high = [a] /\
  fst (BulletStops.GetHighStop 0 high) = ign.mkAngle 0%float.
Proof.
  intros a high.
  pose proof (Bullet_stop_unreadable_before_creation 0 0 a Bullet.fresh_joint
                eq_refl) as H.
  cbv zeta in H. destruct H as (H1 & H2 & _).
  split; [exact H1 | exact H2].
Defined.

(** X13: the two stop setters do not interfere. Setting the high stop
    and then the low stop leaves the joint in the same state as setting
    them the other way round, with or without the native constraint, and
    each setter reports the same success in either order; the low stop
    read from the joint is not changed by SetHighStop, nor the high stop
    by SetLowStop. *)
Theorem Bullet_stop_setters_commute
    (i1 i2 i3 : nat) (a b : ign.Angle) (j : Bullet.BulletSliderJoint) :
  let hl := Bullet.SetLowStop i2 b (snd (Bullet.SetHighStop i1 a j)) in
  let lh := Bullet.SetHighStop i1 a (snd (Bullet.SetLowStop i2 b j)) in
  snd hl = snd lh /\
  fst hl = fst (Bullet.SetLowStop i2 b j) /\
  fst lh = fst (Bullet.SetHighStop i1 a j) /\
  fst (BulletStops.GetLowStop i3 (snd (Bullet.SetHighStop i1 a j)))
    = fst (BulletStops.GetLowStop i3 j) /\
  fst (BulletStops.GetHighStop i3 (snd (Bullet.SetLowStop i2 b j)))
    = fst (BulletStops.GetHighStop i3 j).
Proof.
  destruct j as [lo up [c|] con];
    cbn; rewrite <- ?app_assoc; repeat split; reflexivity.
Qed.

(** * Further properties of the engine parameters *)

(** X14: SetParam sets nothing. For every key and every value it
    returns false, and the engine is as before but for one line added to
    the console. *)
Theorem SetParam_never_sets what show _key _value s :
  exists msg,
    Params.SetParam what show _key _value s
    = (Ret false, set_console (console s ++ [msg]) s).
Proof.
  unfold Params.SetParam, Params.cast_failed, Params.not_yet_supported.
  repeat match goal with
         | |- context [String.eqb _key ?k] => destruct (String.eqb _key k)
         end;
    destruct _value; eexists; reflexivity.
Qed.

(** X15: the accuracy that GetParam returns is never accepted back:
    GetParam gives it as a double (a float while there is no
    integrator), SetParam casts it to int, so writing back what was read
    ends at the cast error. For max_transient_velocity the value read
    passes the cast and is refused as not yet supported. *)
Theorem SetParam_rejects_accuracy_read_back what show src s :
  (let* v := Params.GetParam src "accuracy" in
   Params.SetParam what show "accuracy" v)%sim s
  = (Ret false,
     set_console
       (console s ++
        [mkLog gzerr_level ("boost any_cast error:" +:+ what +:+ nl)]) s)
  /\
  (let* v := Params.GetParam src "max_transient_velocity" in
   Params.SetParam what show "max_transient_velocity" v)%sim s
  = (Ret false,
     set_console
       (console s ++
        [mkLog gzerr_level
           ("Setting [max_transient_velocity] in Simbody to ["
            +:+ show (Params.contact_getTransitionVelocity src)
            +:+ "] not yet supported." +:+ nl)]) s).
Proof.
  split.
  - unfold Params.GetParam, Params.GetParam_key. cbn.
    destruct (Params.integ_getAccuracyInUse src); reflexivity.
  - reflexivity.
Qed.

(** * Further properties of the joint type names *)

(** X16: the name GetTypeString gives depends on the six joint flags
    alone. Bits of the type that belong to none of them (the entity and
    joint bits every joint carries) do not change the result; so, the
    flags being distinct bits, a type made of one joint flag and any such
    bits is named after that flag. *)
Theorem GetTypeString_ignores_other_bits K t extra :
  joint_flags_ok K = true ->
  disjoint_from extra (joint_flags K) = true ->
  GetTypeString K (Z.lor t extra) = GetTypeString K t /\
  GetTypeString K (Z.lor (HINGE_JOINT K) extra) = ret "revolute" /\
  GetTypeString K (Z.lor (HINGE2_JOINT K) extra) = ret "revolute2" /\
  GetTypeString K (Z.lor (SLIDER_JOINT K) extra) = ret "prismatic" /\
  GetTypeString K (Z.lor (UNIVERSAL_JOINT K) extra) = ret "universal" /\
  GetTypeString K (Z.lor (SCREW_JOINT K) extra) = ret "screw" /\
  GetTypeString K (Z.lor (BALL_JOINT K) extra) = ret "ball".
Proof.
  intros HK Hd.
  assert (Hany : forall t', GetTypeString K (Z.lor t' extra) = GetTypeString K t').
  { intros t'. unfold joint_flags in Hd. cbn [disjoint_from] in Hd.
    repeat match goal with
           | H : _ && _ = true |- _ => apply andb_true_iff in H as [? ?]
           end.
    unfold GetTypeString. rewrite !Z.land_lor_distr_l.
    repeat match goal with
           | H : (Z.land extra _ =? 0)%Z = true |- _ =>
               apply Z.eqb_eq in H; rewrite H
           end.
    rewrite !Z.lor_0_r. reflexivity. }
  destruct (GetTypeString_flags K HK) as (T1 & T2 & T3 & T4 & T5 & T6).
  rewrite !Hany. auto 10.
Qed.

Lemma GetTypeString_ignores_other_bits_witness :
  GetTypeString Example.K (Z.lor 0x200 0x9) = ret "revolute".
Proof.
  apply (GetTypeString_ignores_other_bits Example.K 0 0x9).
  - vm_compute. reflexivity.
  - vm_compute. reflexivity.
Defined.

(** * Further properties of the factories *)

(** What the graph maker has received when CreateMultibodyGraph
    returns. *)
Lemma CreateMultibodyGraph_received K B _model s g s' :
  joint_flags_ok K = true ->
  CreateMultibodyGraph K B new_MultibodyGraphMaker _model s = (Ret g, s') ->
  exists bodies_and_joints,
    received g =
      [addJointType "revolute" 1 false; addJointType "revolute2" 2 false;
       addJointType "prismatic" 1 false; addJointType "universal" 2 false;
       addJointType "screw" 1 false; addJointType "ball" 3 false]
      ++ bodies_and_joints ++ [generateGraph] /\
    Forall is_body_or_joint bodies_and_joints.
Proof.
  intros HK H.
  destruct (GetTypeString_flags K HK) as (T1 & T2 & T3 & T4 & T5 & T6).
  unfold CreateMultibodyGraph in H.
  apply bind_Ret_inv in H as (g1 & s1 & H1 & H).
  apply (registerJointType_inv _ _ _ _ _ _ _ _ _ T1) in H1 as (-> & _ & R1).
  apply bind_Ret_inv in H as (g2 & s2 & H2 & H).
  apply (registerJointType_inv _ _ _ _ _ _ _ _ _ T2) in H2 as (-> & _ & R2).
  apply bind_Ret_inv in H as (g3 & s3 & H3 & H).
  apply (registerJointType_inv _ _ _ _ _ _ _ _ _ T3) in H3 as (-> & _ & R3).
  apply bind_Ret_inv in H as (g4 & s4 & H4 & H).
  apply (registerJointType_inv _ _ _ _ _ _ _ _ _ T4) in H4 as (-> & _ & R4).
  apply bind_Ret_inv in H as (g5 & s5 & H5 & H).
  apply (registerJointType_inv _ _ _ _ _ _ _ _ _ T5) in H5 as (-> & _ & R5).
  apply bind_Ret_inv in H as (g6 & s6 & H6 & H).
  apply (registerJointType_inv _ _ _ _ _ _ _ _ _ T6) in H6 as (-> & _ & R6).
  apply bind_Ret_inv in H as (g7 & s7 & H7 & H).
  apply graph_Ret_inv in H7 as (_ & -> & R7 & _).
  apply bind_Ret_inv in H as (g8 & s8 & H8 & H).
  apply (fold_each_adds _ (CreateMultibodyGraph_link_adds B)) in H8
    as (e8 & R8 & F8).
  apply bind_Ret_inv in H as (g9 & s9 & H9 & H).
  apply (fold_each_adds _ (CreateMultibodyGraph_joint_adds K B)) in H9
    as (e9 & R9 & F9).
  apply graph_Ret_inv in H as (_ & _ & R10 & _).
  exists (addBody "world" infinity false None :: e8 ++ e9). split.
  - rewrite R10, R9, R8, R7, R6, R5, R4, R3, R2, R1. cbn.
    rewrite <- !app_assoc. reflexivity.
  - constructor; [exact I | apply Forall_app; auto].
Qed.

(** X17: the joint type names CreateJoint accepts are exactly the names
    CreateMultibodyGraph registers with the graph maker: revolute,
    revolute2, prismatic, universal, screw and ball. For each of them
    CreateJoint returns a joint and changes nothing; for any other name,
    among them weld and free, which the graph maker predefines, it
    throws a gazebo exception that quotes the name. *)
Theorem CreateJoint_accepts_registered_types K B _model s g s' _type t :
  joint_flags_ok K = true ->
  CreateMultibodyGraph K B new_MultibodyGraphMaker _model s = (Ret g, s') ->
  ((exists dofs, In (addJointType _type dofs false) (received g)) ->
   exists joint, Creation.CreateJoint _type t = (Ret joint, t)) /\
  (~ (exists dofs, In (addJointType _type dofs false) (received g)) ->
   Creation.CreateJoint _type t =
     (Throw (common_Exception
               ("Unable to create joint of type[" +:+ _type +:+ "]")), t)).
Proof.
  intros HK H.
  apply (CreateMultibodyGraph_received _ _ _ _ _ _ HK) in H as (bj & Hr & Hbj).
  assert (Hreg : (exists dofs, In (addJointType _type dofs false) (received g))
                 <-> In _type ["revolute"; "revolute2"; "prismatic";
                               "universal"; "screw"; "ball"]).
  { rewrite Hr. split.
    - intros (dofs & Hin). rewrite !in_app_iff in Hin.
      destruct Hin as [Hin|[Hin|Hin]].
      + cbn in Hin. cbn.
        repeat destruct Hin as [Hin|Hin]; try (injection Hin as <- _; tauto).
        destruct Hin.
      + rewrite List.Forall_forall in Hbj. destruct (Hbj _ Hin).
      + destruct Hin as [Hin|[]]. discriminate Hin.
    - intros Hin. cbn in Hin.
      repeat destruct Hin as [<-|Hin]; try destruct Hin;
        eexists; apply in_or_app; left; cbn; eauto 10. }
  unfold Creation.CreateJoint. split.
  - intros Hin. apply Hreg in Hin. cbn in Hin.
    repeat destruct Hin as [<-|Hin]; try destruct Hin; eexists; reflexivity.
  - intros Hn.
    repeat match goal with
           | |- context [String.eqb _type ?n] =>
               destruct (String.eqb_spec _type n) as [->|_];
               [exfalso; apply Hn, Hreg; cbn; tauto|]
           end.
    reflexivity.
Qed.

Lemma CreateJoint_accepts_registered_types_witness :
  Creation.CreateJoint "weld" Example.world0 =
    (Throw (common_Exception "Unable to create joint of type[weld]"),
     Example.world0) /\
  exists joint,
    Creation.CreateJoint "revolute2" Example.world0 = (Ret joint, Example.world0).
Proof.
  pose (r := CreateMultibodyGraph Example.K Example.quiet new_MultibodyGraphMaker
               Example.arm Example.world0).
  destruct (fst r) as [g|e] eqn:E; [|vm_compute in E; discriminate E].
  assert (Hrun : CreateMultibodyGraph Example.K Example.quiet
                   new_MultibodyGraphMaker Example.arm Example.world0
                 = (Ret g, snd r)).
  { rewrite <- E. apply surjective_pairing. }
  assert (Hg : Ret g = fst r) by (symmetry; exact E).
  vm_compute in Hg. injection Hg as Hg.
  split.
  - apply (CreateJoint_accepts_registered_types Example.K Example.quiet
             Example.arm Example.world0 g (snd r) "weld" Example.world0
             eq_refl Hrun).
    rewrite Hg. cbn. intros (dofs & Hin).
    repeat destruct Hin as [Hin|Hin]; try discriminate Hin. destruct Hin.
  - apply (CreateJoint_accepts_registered_types Example.K Example.quiet
             Example.arm Example.world0 g (snd r) "revolute2" Example.world0
             eq_refl Hrun).
    exists 2%nat. rewrite Hg. cbn. tauto.
Defined.

(** X18: CreateCollision returns a collision only for the shape type
    names CreateShape knows (plane, sphere, box, cylinder, mesh, trimesh,
    heightmap, multiray, ray), and then it changes nothing. For any other
    name CreateShape reports the name on the error console and returns a
    null shape, and CreateCollision goes on to use that null pointer. *)
Theorem CreateCollision_shape_types _type parent s :
  (In _type Creation.shape_types ->
   exists shape,
     Creation.CreateCollision _type (Some parent) s
     = (Ret (Creation.mkSimbodyCollision (Some parent) (Some shape)), s)) /\
  (~ In _type Creation.shape_types ->
   let logged :=
     set_console
       (console s ++
        [mkLog gzerr_level
           ("Unable to create collision of type[" +:+ _type +:+ "]" +:+ nl)])
       s in
   (forall c, Creation.CreateShape _type c s = (Ret None, logged)) /\
   exists why,
     Creation.CreateCollision _type (Some parent) s
     = (Throw (undefined_behaviour why), logged)).
Proof.
  split.
  - intros Hin. cbn in Hin.
    repeat destruct Hin as [<-|Hin]; try destruct Hin; eexists; reflexivity.
  - intros Hn logged.
    assert (Hs : forall c, Creation.CreateShape _type c s = (Ret None, logged)).
    { intros c. unfold Creation.CreateShape.
      repeat match goal with
             | |- context [String.eqb _type ?n] =>
                 destruct (String.eqb_spec _type n) as [->|_];
                 [exfalso; apply Hn; cbn; tauto|]
             end.
      reflexivity. }
    split; [exact Hs|].
    unfold Creation.CreateCollision.
    rewrite (bind_Ret_eq _ _ _ _ _ (Hs _)). eexists. reflexivity.
Qed.

(** * Further properties of loading *)

(** X19: after Load the viscous friction of the contact material is the
    sdf value plastic_coef_restitution: the value read from
    viscous_friction is overwritten at once, so it has no effect on the
    engine at all. The three following members are each filled from the
    sdf key of the next one, contactStictionTransitionVelocity is never
    assigned, and the integrator is always the semi-explicit Euler one,
    created without an error line. *)
Theorem Load_viscous_friction_overwritten step sim con con' this :
  (forall key, key <> "viscous_friction" -> con' key = con key) ->
  let e := Loading.Load step sim con this in
  Loading.Load step sim con' this = e /\
  Loading.material_of (Loading.members e) =
    mkContactMaterial (con "stiffness") (con "dissipation")
      (con "static_friction") (con "dynamic_friction")
      (con "plastic_coef_restitution") /\
  Loading.contactMaterialPlasticCoefRestitution (Loading.members e)
    = con "plastic_impact_velocity" /\
  Loading.contactMaterialPlasticImpactVelocity (Loading.members e)
    = con "override_impact_capture_velocity" /\
  Loading.contactImpactCaptureVelocity (Loading.members e)
    = con "override_stiction_transition_velocity" /\
  Loading.contactStictionTransitionVelocity (Loading.members e)
    = Loading.contactStictionTransitionVelocity (Loading.members this) /\
  Loading.integ e = Some Loading.SemiExplicitEuler2Integrator /\
  Loading.errors e = Loading.errors this.
Proof.
  intros Hcon e. subst e. destruct this as [[] ? ? ? ? ? ?].
  unfold Loading.Load, Loading.material_of. cbv.
  rewrite !Hcon by discriminate.
  repeat split; reflexivity.
Qed.

Lemma Load_viscous_friction_overwritten_witness :
  let e := Loading.Load 0.001 (fun _ => 0.01%float) (Loading.contact_sdf 0.3)
             Loading.constructed in
  Loading.Load 0.001 (fun _ => 0.01%float) (Loading.contact_sdf 0.7)
    Loading.constructed = e /\
  viscousFriction (Loading.material_of (Loading.members e)) = 0.5%float.
Proof.
  intros e.
  destruct (Load_viscous_friction_overwritten 0.001 (fun _ => 0.01%float)
              (Loading.contact_sdf 0.3) (Loading.contact_sdf 0.7)
              Loading.constructed) as (H1 & H2 & _).
  - intros key Hk. unfold Loading.contact_sdf.
    destruct (String.eqb_spec key "viscous_friction"); [contradiction|].
    reflexivity.
  - split; [exact H1|]. fold e in H2. rewrite H2. reflexivity.
Defined.

(** * Properties of stepping *)

Import Stepping.

Lemma push_links_ok ls : forall w,
  (forall lx, In lx ls -> exists l, links (engine w) !! lx = Some (Link_Simbody l)) ->
  exists w',
    push_links ls w = Done w' /\
    engine w' = engine w /\ GetSimTime w' = GetSimTime w /\
    simbodyPhysicsStepped w' = simbodyPhysicsStepped w /\
    dirtyPoses w' = dirtyPoses w ++ ls /\
    step_calls w' =
      step_calls w ++
      flat_map (fun lx =>
                  match links (engine w) !! lx with
                  | Some (Link_Simbody l) =>
                      [getBodyTransform (masterMobod l)
                                        (integ_getState (engine w));
                       SetDirtyPose lx (masterMobod l)]
                  | _ => []
                  end) ls.
Proof.
  induction ls as [|lx ls IH]; intros w Hall; cbn [push_links flat_map].
  - exists w. rewrite !app_nil_r. auto 10.
  - destruct (Hall lx (or_introl eq_refl)) as (l & Hl). rewrite Hl.
    cbv zeta.
    edestruct IH as (w' & Hrun & He & Ht & Hs & Hd & Hc);
      [|exists w'; split; [exact Hrun|]].
    { intros y Hy. cbn. apply Hall. right. exact Hy. }
    cbn in He, Ht, Hs, Hd, Hc.
    rewrite He, Ht, Hs, Hd, Hc, <- !app_assoc. auto 10.
Qed.

Lemma cache_joints_ok js : forall w,
  (forall jx, In jx js -> exists j, joints (engine w) !! jx = Some (Joint_Simbody j)) ->
  exists w',
    cache_joints js w = Done w' /\
    engine w' = engine w /\ GetSimTime w' = GetSimTime w /\
    simbodyPhysicsStepped w' = simbodyPhysicsStepped w /\
    dirtyPoses w' = dirtyPoses w /\
    step_calls w' = step_calls w ++ map CacheForceTorque js.
Proof.
  induction js as [|jx js IH]; intros w Hall; cbn [cache_joints map].
  - exists w. rewrite !app_nil_r. auto 10.
  - destruct (Hall jx (or_introl eq_refl)) as (j & Hj). rewrite Hj.
    edestruct IH as (w' & Hrun & He & Ht & Hs & Hd & Hc);
      [|exists w'; split; [exact Hrun|]].
    { intros y Hy. cbn. apply Hall. right. exact Hy. }
    cbn in He, Ht, Hs, Hd, Hc.
    rewrite He, Ht, Hs, Hd, Hc, <- !app_assoc. auto 10.
Qed.

Lemma push_models_ok ms : forall w,
  all_simbody (engine w) ms ->
  exists w',
    push_models ms w = Done w' /\
    engine w' = engine w /\ GetSimTime w' = GetSimTime w /\
    simbodyPhysicsStepped w' = simbodyPhysicsStepped w /\
    dirtyPoses w' = dirtyPoses w ++ flat_map GetLinks ms /\
    step_calls w' = step_calls w ++ pose_calls (engine w) ms.
Proof.
  induction ms as [|mi ms IH]; intros w Hall; cbn [push_models flat_map pose_calls].
  - exists w. rewrite !app_nil_r. auto 10.
  - destruct (Hall mi (or_introl eq_refl)) as [Hl Hj].
    destruct (push_links_ok _ w Hl) as (w1 & R1 & E1 & T1 & S1 & D1 & C1).
    rewrite R1.
    destruct (cache_joints_ok (GetJoints mi) w1) as (w2 & R2 & E2 & T2 & S2 & D2 & C2).
    { rewrite E1. exact Hj. }
    rewrite R2.
    destruct (IH w2) as (w' & R & E & T & S & D & C).
    { rewrite E2, E1. intros m Hm. apply Hall. right. exact Hm. }
    exists w'. split; [exact R|].
    rewrite E2, E1 in E, C.
    rewrite E, T, T2, T1, S, S2, S1, D, D2, D1, C, C2, C1.
    unfold pose_calls. cbn [flat_map]. rewrite <- !app_assoc. auto 10.
Qed.

(** What UpdatePhysics does once its loop has finished. *)
Lemma UpdatePhysics_after_loop I fuel w w1 :
  step_loop I fuel w = Done w1 ->
  all_simbody (engine w1) (world_GetModels (engine w1)) ->
  exists w',
    UpdatePhysics I fuel w = Done w' /\
    engine w' = engine w1 /\
    simbodyPhysicsStepped w' = true /\
    dirtyPoses w' =
      dirtyPoses w1 ++ flat_map GetLinks (world_GetModels (engine w1)) /\
    step_calls w' =
      step_calls w1 ++ pose_calls (engine w1) (world_GetModels (engine w1))
      ++ [clearAllForces].
Proof.
  intros Hloop Hall. unfold UpdatePhysics. rewrite Hloop.
  destruct (push_models_ok (world_GetModels (engine w1))
              (set_simbodyPhysicsStepped true w1) Hall)
    as (w2 & R & E & _ & S & D & C).
  cbn [engine set_simbodyPhysicsStepped] in R |- *. rewrite R.
  eexists. split; [reflexivity|]. cbn.
  rewrite E, S, D, C, <- app_assoc. auto.
Qed.

(** X20: a failing step is tried once and not again, and is not rolled
    back. When the integrator is behind the simulation time and stepTo
    throws, UpdatePhysics makes that one stepTo call and reports the
    message of the exception on the error console. It then goes on with
    the integrator in whatever state the failed step left it: the step
    is flagged as done, the pose of every link of every model is pushed,
    read from that state, and the forces are cleared. *)
Theorem UpdatePhysics_gives_up_after_failure I fuel w what left :
  PrimFloat.ltb (getTime (integ_getState (engine w))) (GetSimTime w) = true ->
  stepTo_result I (integ_getState (engine w)) (GetSimTime w)
    = stepTo_throws what left ->
  all_simbody (engine w) (world_GetModels (engine w)) ->
  let after :=
    set_console (console (engine w) ++ [stepTo_failed what])
      (set_integ_getState left (engine w)) in
  exists w',
    UpdatePhysics I (S fuel) w = Done w' /\
    engine w' = after /\
    step_calls w' =
      step_calls w ++ [integ_stepTo (GetSimTime w) (GetSimTime w)]
      ++ pose_calls after (world_GetModels (engine w))
      ++ [clearAllForces] /\
    dirtyPoses w' =
      dirtyPoses w ++ flat_map GetLinks (world_GetModels (engine w)) /\
    simbodyPhysicsStepped w' = true.
Proof.
  intros Hlt Hthrow Hall after.
  edestruct (UpdatePhysics_after_loop I (S fuel) w) as (w' & R & E & S & D & C).
  - cbn [step_loop]. rewrite Hlt. cbn. rewrite Hthrow. reflexivity.
  - exact Hall.
  - exists w'. split; [exact R|]. rewrite E, S, D, C. cbn.
    rewrite <- !app_assoc. auto 10.
Qed.

Lemma UpdatePhysics_gives_up_after_failure_witness :
  exists w',
    UpdatePhysics failing 1 (world_at 3) = Done w' /\
    console (engine w') = [stepTo_failed "step failed"] /\
    getTime (integ_getState (engine w')) = 2.75%float /\
    In (getBodyTransform EmptyHandle (integ_getState (engine w')))
       (step_calls w') /\
    dirtyPoses w' = [4%nat; 1%nat; 2%nat; 3%nat; 6%nat] /\
    simbodyPhysicsStepped w' = true.
Proof.
  destruct (UpdatePhysics_gives_up_after_failure failing 0 (world_at 3)
              "step failed"
              (setTime 2.75 (integ_getState (engine (world_at 3)))))
    as (w' & R & He & Hc & Hd & Hs).
  - reflexivity.
  - reflexivity.
  - intros mi Hmi. cbn in Hmi.
    destruct Hmi as [<-|[<-|[<-|[]]]]; split; intros x Hx; cbn in Hx;
      repeat destruct Hx as [<-|Hx]; try destruct Hx;
      eexists; vm_compute; reflexivity.
  - exists w'. split; [exact R|]. rewrite Hc, Hd, Hs, He.
    split; [reflexivity|]. split; [reflexivity|].
    split; [vm_compute; tauto | split; reflexivity].
Defined.

(** X21: UpdatePhysics steps only when the integrator is behind. When
    the integrator's time is not below the simulation time no stepTo is
    made, however often the loop may run; when it is below and stepTo
    brings it to a time that is not below any more, exactly one stepTo
    is made. In both cases the integrator is left in that state, nothing
    is reported, and the poses are pushed, read from that state. *)
Theorem UpdatePhysics_steps_when_behind I fuel w :
  all_simbody (engine w) (world_GetModels (engine w)) ->
  let t := GetSimTime w in
  let st := integ_getState (engine w) in
  let models := world_GetModels (engine w) in
  (PrimFloat.ltb (getTime st) t = false ->
   exists w',
     UpdatePhysics I fuel w = Done w' /\
     step_calls w' =
       step_calls w ++ pose_calls (engine w) models ++ [clearAllForces] /\
     engine w' = engine w) /\
  (forall st',
     PrimFloat.ltb (getTime st) t = true ->
     stepTo_result I st t = stepTo_returns st' ->
     PrimFloat.ltb (getTime st') t = false ->
     exists w',
       UpdatePhysics I (S fuel) w = Done w' /\
       step_calls w' =
         step_calls w ++ [integ_stepTo t t]
         ++ pose_calls (set_integ_getState st' (engine w)) models
         ++ [clearAllForces] /\
       engine w' = set_integ_getState st' (engine w)).
Proof.
  intros Hall t st models. subst t st models. split.
  - intros Hlt.
    edestruct (UpdatePhysics_after_loop I fuel w) as (w' & R & E & S & D & C).
    + destruct fuel; cbn [step_loop]; rewrite Hlt; reflexivity.
    + exact Hall.
    + exists w'. auto.
  - intros st' Hlt Hstep Hlt'.
    edestruct (UpdatePhysics_after_loop I (S fuel) w) as (w' & R & E & S & D & C).
    + cbn [step_loop]. rewrite Hlt. cbn. rewrite Hstep.
      destruct fuel; cbn; rewrite Hlt'; reflexivity.
    + exact Hall.
    + exists w'. split; [exact R|]. rewrite E, C. cbn.
      rewrite <- !app_assoc. auto.
Qed.

Lemma UpdatePhysics_steps_when_behind_witness :
  exists w',
    UpdatePhysics reaching 1 (world_at 3) = Done w' /\
    Exists is_stepTo (step_calls w') /\
    integ_getState (engine w') = setTime 3 (integ_getState Example.running).
Proof.
  destruct (UpdatePhysics_steps_when_behind reaching 0 (world_at 3)) as [_ H].
  - intros mi Hmi. cbn in Hmi.
    destruct Hmi as [<-|[<-|[<-|[]]]]; split; intros x Hx; cbn in Hx;
      repeat destruct Hx as [<-|Hx]; try destruct Hx;
      eexists; vm_compute; reflexivity.
  - destruct (H (setTime 3 (integ_getState Example.running))
                eq_refl eq_refl eq_refl) as (w' & R & C & E).
    exists w'. split; [exact R|]. split.
    + rewrite C. cbn. left. exact I.
    + rewrite E. reflexivity.
Defined.

(** X22: the loop of UpdatePhysics has no bound of its own. While the
    integrator is behind the simulation time and stepTo returns without
    an exception and without leaving the state it was called in,
    UpdatePhysics never gets past the loop: after any number of
    iterations it is still stepping. *)
Theorem UpdatePhysics_does_not_return_without_progress I w :
  PrimFloat.ltb (getTime (integ_getState (engine w))) (GetSimTime w) = true ->
  stepTo_result I (integ_getState (engine w)) (GetSimTime w)
    = stepTo_returns (integ_getState (engine w)) ->
  forall fuel, UpdatePhysics I fuel w = Unfinished.
Proof.
  intros Hlt Hstep fuel.
  assert (Hloop : step_loop I fuel w = Unfinished).
  { revert w Hlt Hstep. induction fuel as [|fuel IH]; intros w Hlt Hstep;
      cbn [step_loop]; rewrite Hlt; [reflexivity|].
    cbn. rewrite Hstep. apply IH; cbn; assumption. }
  unfold UpdatePhysics. rewrite Hloop. reflexivity.
Qed.

Lemma UpdatePhysics_does_not_return_without_progress_witness :
  UpdatePhysics stalled 1000 (world_at 3) = Unfinished.
Proof.
  apply (UpdatePhysics_does_not_return_without_progress stalled (world_at 3)).
  - reflexivity.
  - reflexivity.
Defined.

(** * Further properties of the model as a whole *)

Lemma builds_body_joint mob :
  isAddedBaseMobilizer mob = false ->
  builds_body mob = true <-> In (getJointTypeName mob) implemented_types.
Proof.
  intros Hb. unfold builds_body. rewrite Hb. rewrite existsb_exists. split.
  - intros (x & Hin & E). apply String.eqb_eq in E. subst x. exact Hin.
  - intros Hin. exists (getJointTypeName mob). split; [exact Hin|].
    apply String.eqb_refl.
Qed.

(** The bodies a step of the loop constructs, counted. *)
Lemma AddMobilizer_count K B modelClique mob s s' :
  AddMobilizer K B modelClique mob s = (Ret tt, s') ->
  exists new,
    trace s' = trace s ++ new /\
    numMobods s' = (numMobods s + length (bodies_of new))%nat /\
    length (bodies_of new) = (if builds_body mob then 1 else 0)%nat.
Proof.
  intros H. apply AddMobilizer_steps in H. cbv zeta in H.
  destruct H as (outb & parent & h & s1 & _ & _ & Hsyn & _ & Hcol).
  assert (Hnew : exists new1,
             trace s1 = trace s ++ new1 /\
             numMobods s1 = (numMobods s + length (bodies_of new1))%nat /\
             length (bodies_of new1) = (if builds_body mob then 1 else 0)%nat).
  { destruct (isAddedBaseMobilizer mob) eqn:Hb.
    - unfold builds_body. rewrite Hb.
      apply mobilize_added_base_inv in Hsyn
        as (_ & _ & _ & [(-> & _ & Hn & X & Ht & _)|(Hne & _ & ->)]).
      + eexists. split; [exact Ht|]. cbn. rewrite Hn. split; [lia | reflexivity].
      + exists []. rewrite app_nil_r. cbn.
        apply String.eqb_neq in Hne. rewrite Hne. split; [reflexivity|].
        split; [lia | reflexivity].
    - destruct Hsyn as (id & gz & s0 & j0 & _ & _ & Hmj & _ & ->).
      pose proof (builds_body_joint mob Hb) as Hbb.
      apply mobilize_joint_inv in Hmj
        as (_ & [(Hin & _ & Hn & c & rest & Ht & Hrest & _)
                |(Hnin & _ & Ht & Hn)]).
      + exists (new_MobilizedBody c :: rest). cbn.
        rewrite (bodies_of_none _ Hrest). cbn.
        apply Hbb in Hin. rewrite Hin, Hn.
        split; [exact Ht|]. split; [lia | reflexivity].
      + exists []. rewrite app_nil_r. cbn.
        destruct (builds_body mob); [exfalso; apply Hnin, Hbb; reflexivity|].
        split; [exact Ht|]. split; [lia | reflexivity]. }
  destruct Hnew as (new1 & Ht1 & Hn1 & Hlen).
  pose proof (AddCollisionsToLink_keeps _ _ _ _ _ _ _ _ Hcol)
    as (_ & _ & surfaces & Ht & Hs).
  pose proof (AddCollisionsToLink_counters _ _ _ _ _ _ _ _ Hcol) as (Hm & _).
  unfold keeps in Hm. cbn in Hm, Ht.
  exists (new1 ++ surfaces).
  rewrite bodies_of_app, (surfaces_no_body _ Hs), app_nil_r.
  split; [rewrite Ht, Ht1; symmetry; apply app_assoc|].
  split; [rewrite Hm; exact Hn1 | exact Hlen].
Qed.

Lemma mobilizer_loop_count K B modelClique mobs :
  forall s u s',
    for_each mobs (AddMobilizer K B modelClique) s = (Ret u, s') ->
    exists new,
      trace s' = trace s ++ new /\
      numMobods s' = (numMobods s + length (bodies_of new))%nat /\
      length (bodies_of new) = length (List.filter builds_body mobs).
Proof.
  induction mobs as [|mob mobs IH]; intros s u s' H; cbn [for_each] in H.
  - apply ret_inv in H as [_ ->]. exists []. rewrite app_nil_r. cbn.
    split; [reflexivity|]. split; [lia | reflexivity].
  - apply bind_Ret_inv in H as ([] & s1 & H1 & H).
    apply AddMobilizer_count in H1 as (n1 & T1 & N1 & L1).
    apply IH in H as (n2 & T2 & N2 & L2).
    exists (n1 ++ n2). rewrite bodies_of_app, length_app.
    split; [rewrite T2, T1; symmetry; apply app_assoc|].
    split; [lia|].
    rewrite L1, L2. cbn [List.filter].
    destruct (builds_body mob); reflexivity.
Qed.

Lemma weld_pass_no_body B models :
  respects (both (keeps numMobods) (emits (fun c => ~ is_new_MobilizedBody c)))
    (for_each models (fun mi => for_each (GetLinks mi) (weld_slaves B))).
Proof.
  respects_with ltac:(split;
    [ reflexivity
    | first [ apply emits_same_trace; reflexivity
            | apply emits_call; cbn; tauto ] ]).
Qed.

(** X23: when AddDynamicModelToSimbodySystem returns it has constructed
    one body for each mobilizer of the graph whose type it implements
    (free for a base mobilizer the graph maker added; free, screw,
    universal, revolute, prismatic or ball for an input joint), none
    for any other mobilizer and none besides; the body handles count up
    accordingly. *)
Theorem AddDynamicModelToSimbodySystem_one_body_per_mobilizer
    K B _mbgraph _model s s' :
  AddDynamicModelToSimbodySystem K B _mbgraph _model s = (Ret tt, s') ->
  exists new,
    trace s' = trace s ++ new /\
    length (bodies_of new) = length (List.filter builds_body (mobilizers _mbgraph)) /\
    numMobods s' = (numMobods s + length (bodies_of new))%nat.
Proof.
  unfold AddDynamicModelToSimbodySystem. intros H.
  apply bind_Ret_inv in H as (c & s0 & Hc & H).
  apply bind_Ret_inv in H as ([] & s1 & Hloop & H).
  apply bind_Ret_inv in H as (models & s1' & Hg & H).
  apply gets_inv in Hg as [-> ->].
  unfold new_clique in Hc. sim_inv.
  apply mobilizer_loop_count in Hloop as (n1 & T1 & N1 & L1).
  apply weld_pass_no_body in H as (Hn & n2 & T2 & F2).
  unfold keeps in Hn. cbn in T1, N1.
  exists (createNewContactClique :: n1 ++ n2).
  cbn [bodies_of]. rewrite bodies_of_app, (bodies_of_none _ F2), app_nil_r.
  split; [rewrite T2, T1, <- !app_assoc; reflexivity|].
  split; [exact L1 | rewrite Hn; exact N1].
Qed.

Lemma AddDynamicModelToSimbodySystem_one_body_per_mobilizer_witness :
  let g := mkGraphMaker [] [Example.mob_hinge; mob_hinge2; Example.mob_slider] in
  let s' := snd (AddDynamicModelToSimbodySystem Example.K Example.quiet g
                   Example.arm Example.world0) in
  exists new,
    trace s' = new /\ length (bodies_of new) = 2%nat /\ numMobods s' = 3%nat.
Proof.
  intros g s'.
  destruct (AddDynamicModelToSimbodySystem_one_body_per_mobilizer Example.K
              Example.quiet g Example.arm Example.world0 s')
    as (new & Ht & Hl & Hn).
  - apply (run_outcome (AddDynamicModelToSimbodySystem Example.K Example.quiet g
                          Example.arm)).
    vm_compute. reflexivity.
  - exists new. split; [exact Ht|]. split; [exact Hl|].
    rewrite Hn, Hl. reflexivity.
Defined.
